(** * Assignment solver: the solve routes, the Solution model and the
      dashboard's polling loop

    A shallow embedding of
      - [backend/routes/solve.js]      (the Express handlers, the close
                                        callback of the solver process and
                                        [createSimplePdf]),
      - [backend/models/Solution.js]   (the Mongoose schema, [getSummary],
                                        [findUserSolutions],
                                        [isAssignmentSolved]),
      - [frontend/src/pages/DashboardNew.tsx]  ([pollSolutionStatus]),
    followed by the properties of the specification, each proved or
    refuted on these definitions. *)

From Stdlib Require Import List NArith ZArith Bool String Ascii Lia.
From Stdlib Require Import Permutation Sorted.
Import ListNotations.

Set Implicit Arguments.
Set Warnings "-register-all".

(* ===================================================================== *)
(** * JavaScript values *)
(* ===================================================================== *)

Module JS.

(** A JavaScript string is a sequence of UTF-16 code units. *)
Definition JsString := list N.

(** An ASCII literal of the source, as code units. *)
Definition lit (s : string) : JsString :=
  map N_of_ascii (list_ascii_of_string s).

Fixpoint str_eqb (a b : JsString) : bool :=
  match a, b with
  | [], [] => true
  | x :: a', y :: b' => N.eqb x y && str_eqb a' b'
  | _, _ => false
  end.

(** [WhiteSpace] and [LineTerminator] of ECMAScript: what
    [String.prototype.trim] and [parseInt] strip. *)
Definition isWhiteSpace (c : N) : bool :=
  (N.leb 9 c && N.leb c 13)
  || N.eqb c 32 || N.eqb c 160 || N.eqb c 5760
  || (N.leb 8192 c && N.leb c 8202)
  || N.eqb c 8232 || N.eqb c 8233 || N.eqb c 8239 || N.eqb c 8287
  || N.eqb c 12288 || N.eqb c 65279.

Fixpoint trimStart (s : JsString) : JsString :=
  match s with
  | c :: r => if isWhiteSpace c then trimStart r else s
  | [] => []
  end.

Definition trimEnd (s : JsString) : JsString := rev (trimStart (rev s)).

(** [s.trim()] *)
Definition trim (s : JsString) : JsString := trimEnd (trimStart s).

(** A number as [JSON.parse] reads it: sign, the digits of the integer and
    fraction parts read as one natural number, and the decimal exponent
    left after the fraction digits are moved in; the value is
    [(-1)^neg * mant * 10^exp10], rounded to a double by JavaScript. *)
Record JsNumber := mkNum { neg : bool; mant : N; exp10 : Z }.

(** The double nearest to the literal is [0] or [-0]: the mantissa is zero,
    or the value is at most [2^-1075], half of the least subnormal (the tie
    goes to the even neighbour, zero). *)
Definition num_is_zero (n : JsNumber) : bool :=
  N.eqb (mant n) 0
  || (Z.ltb (exp10 n) 0
      && N.leb (mant n * 2 ^ 1075) (10 ^ Z.to_N (- exp10 n)))%N.

Inductive JsValue :=
| JUndefined
| JNull
| JBool (b : bool)
| JNum (n : JsNumber)
| JStr (s : JsString)
| JArr (items : list JsValue)
| JObj (props : list (JsString * JsValue)).

(** [ToBoolean]: what [!v], [v || w] and [if (v)] look at. *)
Definition truthy (v : JsValue) : bool :=
  match v with
  | JUndefined | JNull => false
  | JBool b => b
  | JNum n => negb (num_is_zero n)
  | JStr s => match s with [] => false | _ => true end
  | JArr _ | JObj _ => true
  end.

(** [a || b] *)
Definition or_else (a b : JsValue) : JsValue := if truthy a then a else b.

(** The own property [k] of an object parsed from JSON: the last binding
    of a repeated key wins. *)
Fixpoint own_prop (props : list (JsString * JsValue)) (k : JsString)
  : option JsValue :=
  match props with
  | [] => None
  | (k', v) :: rest =>
      match own_prop rest k with
      | Some w => Some w
      | None => if str_eqb k' k then Some v else None
      end
  end.

(** [v.k] for a property name that no built-in prototype defines
    ([pdfBytes], [solutionText]): [None] is the [TypeError] of reading a
    property of [null] or [undefined]. *)
Definition get_prop (v : JsValue) (k : JsString) : option JsValue :=
  match v with
  | JUndefined | JNull => None
  | JObj props =>
      match own_prop props k with Some w => Some w | None => Some JUndefined end
  | _ => Some JUndefined
  end.

(* --------------------------------------------------------------------- *)
(** ** [JSON.parse] *)
(* --------------------------------------------------------------------- *)

(** JSON white space: tab, line feed, carriage return, space. *)
Definition isJsonWs (c : N) : bool :=
  N.eqb c 9 || N.eqb c 10 || N.eqb c 13 || N.eqb c 32.

Fixpoint skip_ws (s : JsString) : JsString :=
  match s with
  | c :: r => if isJsonWs c then skip_ws r else s
  | [] => []
  end.

Definition isDigit (c : N) : bool := N.leb 48 c && N.leb c 57.

Definition hexval (c : N) : option N :=
  if isDigit c then Some (c - 48)%N
  else if N.leb 97 c && N.leb c 102 then Some (c - 87)%N
  else if N.leb 65 c && N.leb c 70 then Some (c - 55)%N
  else None.

Fixpoint strip_prefix (p s : JsString) : option JsString :=
  match p, s with
  | [], _ => Some s
  | x :: p', y :: s' => if N.eqb x y then strip_prefix p' s' else None
  | _ :: _, [] => None
  end.

(** The character an escape [\e] stands for (other than [\u]). *)
Definition unescape (e : N) : option N :=
  if N.eqb e 34 then Some 34%N          (* quote *)
  else if N.eqb e 92 then Some 92%N     (* backslash *)
  else if N.eqb e 47 then Some 47%N     (* slash *)
  else if N.eqb e 98 then Some 8%N      (* b *)
  else if N.eqb e 102 then Some 12%N    (* f *)
  else if N.eqb e 110 then Some 10%N    (* n *)
  else if N.eqb e 114 then Some 13%N    (* r *)
  else if N.eqb e 116 then Some 9%N     (* t *)
  else None.

Definition cons_fst {A B} (a : A) (r : option (list A * B))
  : option (list A * B) :=
  match r with Some (l, b) => Some (a :: l, b) | None => None end.

(** The characters of a string literal, after its opening quote. *)
Fixpoint parse_chars (s : JsString) : option (JsString * JsString) :=
  match s with
  | [] => None
  | c :: r =>
      if N.eqb c 34 then Some ([], r)
      else if N.eqb c 92 then
        match r with
        | [] => None
        | e :: r1 =>
            if N.eqb e 117 then
              match r1 with
              | h1 :: h2 :: h3 :: h4 :: r2 =>
                  match hexval h1, hexval h2, hexval h3, hexval h4 with
                  | Some a, Some b, Some c', Some d =>
                      cons_fst (a * 4096 + b * 256 + c' * 16 + d)%N
                               (parse_chars r2)
                  | _, _, _, _ => None
                  end
              | _ => None
              end
            else
              match unescape e with
              | Some ch => cons_fst ch (parse_chars r1)
              | None => None
              end
        end
      else if N.ltb c 32 then None
      else cons_fst c (parse_chars r)
  end.

Fixpoint take_digits (s : JsString) : JsString * JsString :=
  match s with
  | c :: r =>
      if isDigit c then let (ds, r') := take_digits r in (c :: ds, r')
      else ([], s)
  | [] => ([], [])
  end.

Definition digits_value (base : N) (ds : list N) : N :=
  fold_left (fun acc d => (acc * base + d)%N) ds 0%N.

Definition dec_value (ds : JsString) : N :=
  digits_value 10 (map (fun c => (c - 48)%N) ds).

(** A number literal: an optional minus sign, an integer part without
    leading zeros, an optional fraction, an optional exponent. *)
Definition number_sign (s : JsString) : bool * JsString :=
  match s with
  | c :: r => if N.eqb c 45 then (true, r) else (false, s)
  | [] => (false, s)
  end.

Definition number_int (s : JsString) : option (JsString * JsString) :=
  match s with
  | c :: r =>
      if N.eqb c 48 then Some ([c], r)
      else if isDigit c then Some (take_digits s)
      else None
  | [] => None
  end.

Definition number_frac (s : JsString) : option (JsString * JsString) :=
  match s with
  | c :: r =>
      if N.eqb c 46 then
        match take_digits r with
        | ([], _) => None
        | (fs, r') => Some (fs, r')
        end
      else Some ([], s)
  | [] => Some ([], s)
  end.

Definition number_exp (s : JsString) : option (Z * JsString) :=
  match s with
  | c :: r =>
      if N.eqb c 101 || N.eqb c 69 then
        let (esg, r1) :=
          match r with
          | c1 :: r' =>
              if N.eqb c1 45 then (true, r')
              else if N.eqb c1 43 then (false, r')
              else (false, r)
          | [] => (false, r)
          end in
        match take_digits r1 with
        | ([], _) => None
        | (es, r2) =>
            let e := Z.of_N (dec_value es) in
            Some ((if esg then - e else e)%Z, r2)
        end
      else Some (0%Z, s)
  | [] => Some (0%Z, s)
  end.

Definition parse_number (s : JsString) : option (JsNumber * JsString) :=
  let (sg, s1) := number_sign s in
  match number_int s1 with
  | None => None
  | Some (ip, s2) =>
      match number_frac s2 with
      | None => None
      | Some (fp, s3) =>
          match number_exp s3 with
          | None => None
          | Some (e, s4) =>
              Some (mkNum sg (dec_value (ip ++ fp))
                          (e - Z.of_nat (List.length fp))%Z, s4)
          end
      end
  end.

Section Containers.
(** The parser of one value, at the recursion depth below. *)
Variable parse_item : JsString -> option (JsValue * JsString).

(** The elements of an array, after the opening bracket of a non-empty
    array. *)
Fixpoint parse_elements (fuel : nat) (s : JsString)
  : option (list JsValue * JsString) :=
  match fuel with
  | O => None
  | S f =>
      match parse_item s with
      | None => None
      | Some (v, r) =>
          match skip_ws r with
          | c :: r' =>
              if N.eqb c 44 then cons_fst v (parse_elements f r')
              else if N.eqb c 93 then Some ([v], r')
              else None
          | [] => None
          end
      end
  end.

(** The members of an object, after the opening brace of a non-empty
    object. *)
Fixpoint parse_members (fuel : nat) (s : JsString)
  : option (list (JsString * JsValue) * JsString) :=
  match fuel with
  | O => None
  | S f =>
      match skip_ws s with
      | q :: r0 =>
          if N.eqb q 34 then
            match parse_chars r0 with
            | None => None
            | Some (k, r1) =>
                match skip_ws r1 with
                | col :: r2 =>
                    if N.eqb col 58 then
                      match parse_item r2 with
                      | None => None
                      | Some (v, r3) =>
                          match skip_ws r3 with
                          | c :: r4 =>
                              if N.eqb c 44
                              then cons_fst (k, v) (parse_members f r4)
                              else if N.eqb c 125 then Some ([(k, v)], r4)
                              else None
                          | [] => None
                          end
                      end
                    else None
                | [] => None
                end
            end
          else None
      | [] => None
      end
  end.
End Containers.

Definition with_value (v : JsValue) (r : option JsString)
  : option (JsValue * JsString) :=
  match r with Some r' => Some (v, r') | None => None end.

(** One JSON value, white space before it skipped.  [fuel] bounds the
    nesting depth and the number of elements of a container. *)
Fixpoint parse_value (fuel : nat) (s : JsString)
  : option (JsValue * JsString) :=
  match fuel with
  | O => None
  | S f =>
      match skip_ws s with
      | [] => None
      | c :: r =>
          if N.eqb c 34 then
            match parse_chars r with
            | Some (str, r') => Some (JStr str, r')
            | None => None
            end
          else if N.eqb c 91 then
            match skip_ws r with
            | c1 :: r1 =>
                if N.eqb c1 93 then Some (JArr [], r1)
                else
                  match parse_elements (parse_value f) f r with
                  | Some (vs, r') => Some (JArr vs, r')
                  | None => None
                  end
            | [] => None
            end
          else if N.eqb c 123 then
            match skip_ws r with
            | c1 :: r1 =>
                if N.eqb c1 125 then Some (JObj [], r1)
                else
                  match parse_members (parse_value f) f r with
                  | Some (ms, r') => Some (JObj ms, r')
                  | None => None
                  end
            | [] => None
            end
          else if N.eqb c 116 then
            with_value (JBool true) (strip_prefix (lit "true") (c :: r))
          else if N.eqb c 102 then
            with_value (JBool false) (strip_prefix (lit "false") (c :: r))
          else if N.eqb c 110 then
            with_value JNull (strip_prefix (lit "null") (c :: r))
          else
            match parse_number (c :: r) with
            | Some (n, r') => Some (JNum n, r')
            | None => None
            end
      end
  end.

(** [JSON.parse(text)]: [None] is its [SyntaxError].  Every level of
    nesting and every element takes at least one character, so the
    length of the text is fuel enough. *)
Definition JSON_parse (text : JsString) : option JsValue :=
  match parse_value (S (List.length text)) text with
  | Some (v, r) => match skip_ws r with [] => Some v | _ => None end
  | None => None
  end.

(* --------------------------------------------------------------------- *)
(** ** [parseInt], UTF-8 and hexadecimal buffers *)
(* --------------------------------------------------------------------- *)

Fixpoint take_radix_digits (radix : N) (s : JsString) : list N :=
  match s with
  | c :: r =>
      match hexval c with
      | Some d => if N.ltb d radix then d :: take_radix_digits radix r else []
      | None => []
      end
  | [] => []
  end.

(** [parseInt(s)] with no radix argument: [None] is [NaN].  The integer is
    kept exact, which is what JavaScript computes up to [2^53]; above
    that JavaScript rounds to the nearest double, and to [Infinity] from
    about 309 digits on. *)
Definition parseInt (s : JsString) : option Z :=
  let s1 := trimStart s in
  let (sign, s2) :=
    match s1 with
    | c :: r =>
        if N.eqb c 45 then ((-1)%Z, r)
        else if N.eqb c 43 then (1%Z, r)
        else (1%Z, s1)
    | [] => (1%Z, s1)
    end in
  let (radix, s3) :=
    match s2 with
    | a :: b :: r =>
        if N.eqb a 48 && (N.eqb b 120 || N.eqb b 88) then (16%N, r)
        else (10%N, s2)
    | _ => (10%N, s2)
    end in
  match take_radix_digits radix s3 with
  | [] => None
  | ds => Some (sign * Z.of_N (digits_value radix ds))%Z
  end.

(** A [Buffer]: a sequence of bytes. *)
Definition Buffer := list N.

Definition isHighSurrogate (c : N) : bool := N.leb 55296 c && N.leb c 56319.
Definition isLowSurrogate (c : N) : bool := N.leb 56320 c && N.leb c 57343.

(** The UTF-8 bytes of a code point. *)
Definition utf8_point (p : N) : Buffer :=
  (if p <? 128 then [p]
   else if p <? 2048 then [192 + p / 64; 128 + p mod 64]
   else if p <? 65536 then
     [224 + p / 4096; 128 + (p / 64) mod 64; 128 + p mod 64]
   else
     [240 + p / 262144; 128 + (p / 4096) mod 64;
      128 + (p / 64) mod 64; 128 + p mod 64])%N.

(** [Buffer.from(s, 'utf-8')]: a surrogate pair is one code point, a lone
    surrogate is written as U+FFFD. *)
Fixpoint utf8 (s : JsString) : Buffer :=
  match s with
  | [] => []
  | c :: r =>
      if isHighSurrogate c then
        match r with
        | d :: r' =>
            if isLowSurrogate d
            then utf8_point (65536 + (c - 55296) * 1024 + (d - 56320))%N
                 ++ utf8 r'
            else [239; 191; 189]%N ++ utf8 r
        | [] => [239; 191; 189]%N
        end
      else if isLowSurrogate c then [239; 191; 189]%N ++ utf8 r
      else utf8_point c ++ utf8 r
  end.

(** The byte Node's hexadecimal decoder looks at: it reads each code unit
    through a cast to an unsigned byte, so only the low eight bits count
    (U+0131 reads as the digit 1). *)
Definition low_byte (c : N) : N := (c mod 256)%N.

(** [Buffer.from(s, 'hex')] for a string: pairs of hexadecimal digits are
    decoded up to the first pair that is not one; an odd last character
    is dropped. *)
Fixpoint hex_decode (s : JsString) : Buffer :=
  match s with
  | a :: b :: r =>
      match hexval (low_byte a), hexval (low_byte b) with
      | Some x, Some y => (x * 16 + y)%N :: hex_decode r
      | _, _ => []
      end
  | _ => []
  end.

End JS.

Import JS.

(* ===================================================================== *)
(** * The Solution model ([models/Solution.js]) *)
(* ===================================================================== *)

(** A MongoDB [ObjectId]: twelve bytes, read as a number. *)
Definition ObjectId := N.

Definition ObjectId_eqb : ObjectId -> ObjectId -> bool := N.eqb.

Fixpoint hex_number (acc : N) (s : JsString) : option N :=
  match s with
  | [] => Some acc
  | c :: r =>
      match hexval c with
      | Some d => hex_number (acc * 16 + d)%N r
      | None => None
      end
  end.

(** Mongoose casts the values of a query filter to the types of the schema
    before it runs the query: a string given for [_id] must be the 24
    hexadecimal digits of an [ObjectId]; for any other string the query
    rejects with a [CastError] ([None]). *)
Definition castObjectId (s : JsString) : option ObjectId :=
  if Nat.eqb (List.length s) 24 then hex_number 0%N s else None.

Definition processing : JsString := lit "processing".
Definition completed : JsString := lit "completed".
Definition failed : JsString := lit "failed".

Module Solution.

(** An entry of [materials]. *)
Record MaterialInfo := {
  fileId : option JsString;
  fileName : option JsString;
  fileUrl : option JsString
}.

(** A document of the collection, field by field as [solutionSchema]
    declares them.  Dates are milliseconds since the epoch. *)
Record doc := {
  _id : ObjectId;
  userId : ObjectId;
  assignmentId : JsString;
  assignmentTitle : JsString;
  courseId : JsString;
  courseName : JsString;
  solutionText : option JsString;      (* default: null *)
  solutionPdf : option Buffer;         (* default: null *)
  solvedAt : Z;                        (* default: Date.now *)
  status : JsString;                   (* default: 'processing' *)
  processingTime : Z;                  (* default: 0 *)
  materials : list MaterialInfo
}.

(** The collection, in insertion order. *)
Definition collection := list doc.

(** [enum: ['processing', 'completed', 'failed']] *)
Definition status_enum : list JsString := [processing; completed; failed].

Definition nonempty (s : JsString) : bool :=
  match s with [] => false | _ => true end.

(** The validators that run on [save]: the [enum] of [status] and
    [required: true] of the four strings (which an empty string fails). *)
Definition validate (d : doc) : bool :=
  existsb (str_eqb (status d)) status_enum
  && nonempty (assignmentId d) && nonempty (assignmentTitle d)
  && nonempty (courseId d) && nonempty (courseName d).

(** [doc.save()] of a new document; [None] is the rejected promise. *)
Definition insert (d : doc) (c : collection) : option collection :=
  if validate d then Some (c ++ [d]) else None.

Definition replace (d x : doc) : doc :=
  if ObjectId_eqb (_id x) (_id d) then d else x.

(** [doc.save()] of a document read from the collection. *)
Definition update (d : doc) (c : collection) : option collection :=
  if validate d then Some (map (replace d) c) else None.

(** [findOne(filter)], the filter already cast. *)
Definition findOne (filter : doc -> bool) (c : collection) : option doc :=
  find filter c.

Definition findById (id : ObjectId) (c : collection) : option doc :=
  findOne (fun d => ObjectId_eqb (_id d) id) c.

(** What [getSummary] returns. *)
Record Summary := {
  sum_id : ObjectId;
  sum_assignmentTitle : JsString;
  sum_courseName : JsString;
  sum_solvedAt : Z;
  sum_status : JsString;
  sum_processingTime : Z
}.

Definition getSummary (this : doc) : Summary :=
  {| sum_id := _id this;
     sum_assignmentTitle := assignmentTitle this;
     sum_courseName := courseName this;
     sum_solvedAt := solvedAt this;
     sum_status := status this;
     sum_processingTime := processingTime this |}.

(** [.sort({ solvedAt: -1 })]: insertion into a list that is already in
    descending order; documents with equal dates keep their order. *)
Fixpoint insert_desc (d : doc) (l : list doc) : list doc :=
  match l with
  | [] => [d]
  | x :: r =>
      if Z.ltb (solvedAt x) (solvedAt d) then d :: l
      else x :: insert_desc d r
  end.

Definition sort_desc (l : list doc) : list doc :=
  fold_right insert_desc [] l.

(** [.limit(n)]: MongoDB reads a limit of [0] as no limit and returns up
    to [n] documents for a limit from 1 to [2^31 - 1].  A negative limit
    asks for a single batch of at most [|n|] documents, which may hold
    fewer, and a limit that is no 64-bit integer is refused: the
    definition is exact on limits from 0 to [2^31 - 1]. *)
Definition limit (n : Z) (l : list doc) : list doc :=
  if Z.eqb n 0 then l else firstn (Z.abs_nat n) l.

(** [.select('-solutionPdf')] *)
Definition without_pdf (d : doc) : doc :=
  {| _id := _id d; userId := userId d; assignmentId := assignmentId d;
     assignmentTitle := assignmentTitle d; courseId := courseId d;
     courseName := courseName d; solutionText := solutionText d;
     solutionPdf := None; solvedAt := solvedAt d; status := status d;
     processingTime := processingTime d; materials := materials d |}.

Definition findUserSolutions (user : ObjectId) (n : Z) (c : collection)
  : list doc :=
  map without_pdf
      (limit n (sort_desc (filter (fun d => ObjectId_eqb (userId d) user) c))).

Definition isAssignmentSolved (user : ObjectId) (assignment : JsString)
           (c : collection) : option doc :=
  findOne (fun d => ObjectId_eqb (userId d) user
                    && str_eqb (assignmentId d) assignment
                    && str_eqb (status d) completed) c.

End Solution.

(* ===================================================================== *)
(** * The routes ([routes/solve.js]) *)
(* ===================================================================== *)

(** [req.user], as the [auth] middleware leaves it. *)
Module User.
Record GoogleTokens := { accessToken : option JsString }.
Record t := { _id : ObjectId; googleTokens : option GoogleTokens }.
End User.

(** A Classroom material, as far as the handler reads it:
    [m.driveFile?.driveFile?.id], [.title], [.alternateLink]. *)
Record DriveFile := {
  id : option JsString;
  title : option JsString;
  alternateLink : option JsString
}.
Record SharedDriveFile := { driveFile_inner : option DriveFile }.
Record Material := { driveFile : option SharedDriveFile }.

(** A body of [POST /solve] of the shape the dashboard sends: each of the
    four identifying fields is a string or absent ([None]), and
    [materials] is absent or an array of Classroom materials.  The server
    accepts any JSON; [post_solve_json] below is the handler on all of
    it, and [body_json] is such a body as JSON. *)
Record SolveBody := {
  assignmentId : option JsString;
  assignmentTitle : option JsString;
  courseId : option JsString;
  courseName : option JsString;
  materials : option (list Material)
}.

Definition field_json (field : option JsString) : JsValue :=
  match field with
  | Some s => JStr s
  | None => JUndefined
  end.

Definition driveFile_json (f : DriveFile) : JsValue :=
  JObj [(lit "id", field_json (id f));
        (lit "title", field_json (title f));
        (lit "alternateLink", field_json (alternateLink f))].

Definition material_json (m : Material) : JsValue :=
  JObj [(lit "driveFile",
         match driveFile m with
         | Some shared =>
             JObj [(lit "driveFile",
                    match driveFile_inner shared with
                    | Some f => driveFile_json f
                    | None => JUndefined
                    end)]
         | None => JUndefined
         end)].

Definition body_json (body : SolveBody) : JsValue :=
  JObj [(lit "assignmentId", field_json (assignmentId body));
        (lit "assignmentTitle", field_json (assignmentTitle body));
        (lit "courseId", field_json (courseId body));
        (lit "courseName", field_json (courseName body));
        (lit "materials",
         match materials body with
         | Some ms => JArr (map material_json ms)
         | None => JUndefined
         end)].

(** The bodies the handlers send with [res.json]. *)
Record SolutionView := {
  view_id : ObjectId;
  view_assignmentTitle : JsString;
  view_courseName : JsString;
  view_status : JsString;
  view_solutionText : option JsString;
  view_solvedAt : Z;
  view_processingTime : Z
}.

Inductive Body :=
| BError (error : JsString)
    (* { error } *)
| BFailure (error : JsString)
    (* { error, message: error.message }, from a catch block *)
| BAlreadySolved (solutionId : ObjectId)
    (* { success: true, message: 'Assignment already solved',
         solutionId, alreadySolved: true } *)
| BStarted (solutionId : ObjectId) (status : JsString)
    (* { success: true, message: 'Assignment solving started',
         solutionId, status } *)
| BSolution (solution : SolutionView)
    (* { success: true, solution } *)
| BSolutions (solutions : list Solution.Summary).
    (* { success: true, solutions } *)

Inductive Response :=
| Json (code : nat) (body : Body)
    (* res.status(code).json(body); res.json(body) is code 200 *)
| Send (contentType contentDisposition : JsString) (payload : Buffer).
    (* two res.setHeader and res.send(payload) *)

(** A solver process that was spawned and has not closed yet, with what
    its close callback holds in its closure. *)
Record Child := { child_solution : ObjectId; child_startTime : Z }.

(** A call of [solveAssignmentAsync] that threw before it spawned and
    waits, in its catch block, for [findById]. *)
Record Caught := {
  caught_solution : ObjectId;
  caught_startTime : Z;
  caught_message : JsString
}.

(** The server: the collection, the next [ObjectId] the driver hands out
    (only that identifiers are never reused matters), and the
    continuations that are pending. *)
Record State := {
  store : Solution.collection;
  nextId : ObjectId;
  children : list Child;
  caught : list Caught
}.

Definition init : State :=
  {| store := []; nextId := 0%N; children := []; caught := [] |}.

(** [!field] is false: the field is a non-empty string. *)
Definition present (field : option JsString) : bool :=
  match field with
  | Some (_ :: _) => true
  | _ => false
  end.

Definition text_of (field : option JsString) : JsString :=
  match field with Some s => s | None => [] end.

(** [user.googleTokens && user.googleTokens.accessToken] is truthy. *)
Definition hasAccessToken (user : User.t) : bool :=
  match User.googleTokens user with
  | Some tokens => present (User.accessToken tokens)
  | None => false
  end.

(** [m.driveFile?.driveFile] *)
Definition drive_meta (m : Material) : option DriveFile :=
  match driveFile m with
  | Some shared => driveFile_inner shared
  | None => None
  end.

(** The element [materials?.map(...)] builds for [m]. *)
Definition material_info (m : Material) : Solution.MaterialInfo :=
  match drive_meta m with
  | Some f =>
      {| Solution.fileId := id f;
         Solution.fileName := title f;
         Solution.fileUrl := alternateLink f |}
  | None =>
      {| Solution.fileId := None;
         Solution.fileName := None;
         Solution.fileUrl := None |}
  end.

(** [new Solution({ ... status: 'processing', materials: ... })] *)
Definition new_solution (oid : ObjectId) (now : Z) (user : User.t)
           (body : SolveBody) : Solution.doc :=
  {| Solution._id := oid;
     Solution.userId := User._id user;
     Solution.assignmentId := text_of (assignmentId body);
     Solution.assignmentTitle := text_of (assignmentTitle body);
     Solution.courseId := text_of (courseId body);
     Solution.courseName := text_of (courseName body);
     Solution.solutionText := None;
     Solution.solutionPdf := None;
     Solution.solvedAt := now;
     Solution.status := processing;
     Solution.processingTime := 0%Z;
     Solution.materials :=
       match materials body with
       | Some ms => map material_info ms
       | None => []
       end |}.

(** [process.env]: the one variable the routes read. *)
Record Env := { GEMINI_API_KEY : option JsString }.

(** [solveAssignmentAsync], up to the point where it returns to its
    caller: either the process is spawned and its close callback
    registered, or the missing key throws and the catch block suspends at
    [await Solution.findById].  The access token and the materials go to
    the process as arguments and play no part here: [spawn] is taken to
    accept them (a token without a NUL character) and to return the child
    process.  Whether the interpreter could be started shows later, in
    the close event of the child or in its error event. *)
Definition solveAssignmentAsync (env : Env) (startTime : Z)
           (solutionId : ObjectId) (st : State) : State :=
  if present (GEMINI_API_KEY env) then
    {| store := store st; nextId := nextId st;
       children := children st
                   ++ [{| child_solution := solutionId;
                          child_startTime := startTime |}];
       caught := caught st |}
  else
    {| store := store st; nextId := nextId st;
       children := children st;
       caught := caught st
                 ++ [{| caught_solution := solutionId;
                        caught_startTime := startTime;
                        caught_message :=
                          lit "GEMINI_API_KEY not found in environment variables" |}] |}.

Definition missing_fields : JsString :=
  lit "Missing required fields: assignmentId, assignmentTitle, courseId, courseName".

(** [router.post('/solve', auth, ...)] on a body of the dashboard's shape
    (on [body_json body] the handler [post_solve_json] does exactly
    this).  [tCreated] is the clock when the document is built,
    [tStarted] when [solveAssignmentAsync] starts. *)
Definition post_solve (env : Env) (tCreated tStarted : Z) (st : State)
           (user : User.t) (body : SolveBody) : State * Response :=
  if negb (present (assignmentId body)) || negb (present (assignmentTitle body))
     || negb (present (courseId body)) || negb (present (courseName body))
  then (st, Json 400 (BError missing_fields))
  else
    match Solution.isAssignmentSolved (User._id user)
                                      (text_of (assignmentId body)) (store st) with
    | Some existingSolution =>
        (st, Json 200 (BAlreadySolved (Solution._id existingSolution)))
    | None =>
        if negb (hasAccessToken user) then
          (st, Json 401
                    (BError (lit "Google authentication required to solve assignments")))
        else
          let solution := new_solution (nextId st) tCreated user body in
          match Solution.insert solution (store st) with
          | None =>
              (st, Json 500 (BFailure (lit "Failed to start assignment solving")))
          | Some store' =>
              let saved :=
                {| store := store'; nextId := N.succ (nextId st);
                   children := children st; caught := caught st |} in
              (solveAssignmentAsync env tStarted (Solution._id solution) saved,
               Json 200 (BStarted (Solution._id solution) processing))
          end
    end.

(** The filter [{ _id, userId }]. *)
Definition is_solution_of (oid uid : ObjectId) (d : Solution.doc) : bool :=
  ObjectId_eqb (Solution._id d) oid && ObjectId_eqb (Solution.userId d) uid.

(** [Solution.findOne({ _id: solutionId, userId: user._id })] on the
    string of the URL: the filter is cast first. *)
Definition find_for_user (c : Solution.collection) (user : User.t)
           (solutionId : JsString) : option (option Solution.doc) :=
  match castObjectId solutionId with
  | None => None
  | Some oid => Some (Solution.findOne (is_solution_of oid (User._id user)) c)
  end.

Definition view_of (solution : Solution.doc) : SolutionView :=
  {| view_id := Solution._id solution;
     view_assignmentTitle := Solution.assignmentTitle solution;
     view_courseName := Solution.courseName solution;
     view_status := Solution.status solution;
     view_solutionText := Solution.solutionText solution;
     view_solvedAt := Solution.solvedAt solution;
     view_processingTime := Solution.processingTime solution |}.

Definition not_found : Response := Json 404 (BError (lit "Solution not found")).

(** [router.get('/solution/:solutionId', auth, ...)] *)
Definition get_solution (c : Solution.collection) (user : User.t)
           (solutionId : JsString) : Response :=
  match find_for_user c user solutionId with
  | None => Json 500 (BFailure (lit "Failed to fetch solution"))
  | Some None => not_found
  | Some (Some solution) => Json 200 (BSolution (view_of solution))
  end.

(** Node refuses a header value that holds a character other than a tab,
    [0x20]-[0x7e] or [0x80]-[0xff]: [res.setHeader] throws. *)
Definition validHeaderChar (c : N) : bool :=
  N.eqb c 9 || (N.leb 32 c && N.leb c 126) || (N.leb 128 c && N.leb c 255).

Definition pdf_disposition (solution : Solution.doc) : JsString :=
  lit "attachment; filename=" ++ [34%N] ++ Solution.assignmentTitle solution
      ++ lit "_solution.pdf" ++ [34%N].

(** [!solution.solutionPdf || solution.solutionPdf.length === 0] is false *)
Definition has_pdf (solution : Solution.doc) : bool :=
  match Solution.solutionPdf solution with
  | Some (_ :: _) => true
  | _ => false
  end.

(** [router.get('/solution/:solutionId/pdf', auth, ...)] *)
Definition get_solution_pdf (c : Solution.collection) (user : User.t)
           (solutionId : JsString) : Response :=
  match find_for_user c user solutionId with
  | None => Json 500 (BFailure (lit "Failed to download solution PDF"))
  | Some None => not_found
  | Some (Some solution) =>
      if negb (str_eqb (Solution.status solution) completed)
         || negb (has_pdf solution)
      then Json 400 (BError (lit "Solution PDF not available"))
      else if forallb validHeaderChar (pdf_disposition solution)
      then Send (lit "application/pdf") (pdf_disposition solution)
                (match Solution.solutionPdf solution with
                 | Some b => b
                 | None => []
                 end)
      else Json 500 (BFailure (lit "Failed to download solution PDF"))
  end.

(** [parseInt(req.query.limit) || 10]; an absent parameter is
    [undefined], which [parseInt] reads as the string ["undefined"]. *)
Definition query_limit (param : option JsString) : Z :=
  match parseInt (match param with Some s => s | None => lit "undefined" end) with
  | None => 10%Z
  | Some n => if Z.eqb n 0 then 10%Z else n
  end.

(** [router.get('/solutions', auth, ...)], for a query that MongoDB
    answers (the catch block's 500 is for one it refuses). *)
Definition get_solutions (c : Solution.collection) (user : User.t)
           (limitParam : option JsString) : Response :=
  Json 200 (BSolutions
              (map Solution.getSummary
                   (Solution.findUserSolutions (User._id user)
                                               (query_limit limitParam) c))).

(* --------------------------------------------------------------------- *)
(** ** The solver process and its close callback *)
(* --------------------------------------------------------------------- *)

Definition nl : JsString := [10%N].

(** The template literal of [createSimplePdf], in its three parts: the
    lines before [${text}], the text, the lines after it.  [iso] is
    [new Date().toISOString()]. *)
Definition pdf_header : JsString :=
  nl ++ lit "PDF Content:" ++ nl ++ lit "Assignment Solution" ++ nl ++ nl.

Definition pdf_footer (iso : JsString) : JsString :=
  nl ++ nl ++ lit "Generated by Assignment Solver" ++ nl
     ++ lit "Date: " ++ iso ++ nl.

Definition pdfContent (iso text : JsString) : JsString :=
  pdf_header ++ text ++ pdf_footer iso.

(** The [try] block of [createSimplePdf]; [None] is an exception:
    [text.trim] is not a function unless [text] is a string. *)
Definition createSimplePdf_try (iso : JsString) (text : JsValue)
  : option Buffer :=
  if negb (truthy text) then Some []
  else
    match text with
    | JStr s =>
        if Nat.eqb (List.length (trim s)) 0 then Some []
        else Some (utf8 (pdfContent iso s))
    | _ => None
    end.

(** [createSimplePdf]: the [catch] block returns [Buffer.from('')]. *)
Definition createSimplePdf (iso : JsString) (text : JsValue) : Buffer :=
  match createSimplePdf_try iso text with
  | Some buffer => buffer
  | None => []
  end.

Arguments pdfContent : simpl never.
Arguments pdf_header : simpl never.
Arguments pdf_footer : simpl never.

Definition concat_chunks (chunks : list JsString) : JsString :=
  fold_left (fun acc data => acc ++ data) chunks [].

(** [code === 0]; a process killed by a signal closes with [null]. *)
Definition exit_ok (code : option Z) : bool :=
  match code with
  | Some c => Z.eqb c 0
  | None => false
  end.

Definition failure_text (detail : JsString) : JsString :=
  lit "Solving failed: " ++ detail.

(** [parsedResult]: the output parsed as JSON, or, when it is not JSON,
    taken as plain text. *)
Definition parse_output (solutionText : JsString) : JsValue :=
  match JSON_parse solutionText with
  | Some v => v
  | None => JObj [(lit "solutionText", JStr (trim solutionText))]
  end.

Section Backend.

(** Three library calls are taken as given, for values that are not
    strings:
    [Buffer.from(v, 'hex')] for an array or an object [v]; the string
    Mongoose stores when a number, a boolean, an array or an object is
    assigned to a [String] path; and what [isAssignmentSolved] returns
    for an [assignmentId] that is not a string (Mongoose casts a number,
    reads an object as query operators, an array as a list of
    alternatives).  [None] is an exception or a rejected promise. *)
Variable Buffer_from_object : JsValue -> option Buffer.
Variable castString_other : JsValue -> option JsString.
Variable isAssignmentSolved_other :
  ObjectId -> JsValue -> Solution.collection -> option (option Solution.doc).

(** [Buffer.from(v, 'hex')] for a truthy [v]: a number or a boolean is a
    [TypeError]. *)
Definition Buffer_from_hex (v : JsValue) : option Buffer :=
  match v with
  | JStr s => Some (hex_decode s)
  | JArr _ | JObj _ => Buffer_from_object v
  | _ => None
  end.

(** The cast of the [String] schema type. *)
Definition castString (v : JsValue) : option JsString :=
  match v with
  | JStr s => Some s
  | _ => castString_other v
  end.

Definition set_result (solution : Solution.doc) (text : option JsString)
           (pdf : option Buffer) (st : JsString) (time : Z) : Solution.doc :=
  {| Solution._id := Solution._id solution;
     Solution.userId := Solution.userId solution;
     Solution.assignmentId := Solution.assignmentId solution;
     Solution.assignmentTitle := Solution.assignmentTitle solution;
     Solution.courseId := Solution.courseId solution;
     Solution.courseName := Solution.courseName solution;
     Solution.solutionText := text;
     Solution.solutionPdf := pdf;
     Solution.solvedAt := Solution.solvedAt solution;
     Solution.status := st;
     Solution.processingTime := time;
     Solution.materials := Solution.materials solution |}.

(** [await solution.save()] inside the callback's [try]: a rejection is
    caught and logged, and the collection stays as it was. *)
Definition save_or_log (solution : Solution.doc) (c : Solution.collection)
  : Solution.collection :=
  match Solution.update solution c with
  | Some c' => c'
  | None => c
  end.

(** The success branch of the close callback, from [JSON.parse] to
    [solution.save()]. *)
Definition on_success (iso : JsString) (processingTime : Z)
           (solutionText : JsString) (solution : Solution.doc)
           (c : Solution.collection) : Solution.collection :=
  let parsedResult := parse_output solutionText in
  match get_prop parsedResult (lit "pdfBytes"),
        get_prop parsedResult (lit "solutionText") with
  | Some pdfBytes, Some parsedText =>
      let text := or_else parsedText (JStr solutionText) in
      let pdfBuffer :=
        if truthy pdfBytes then
          match Buffer_from_hex pdfBytes with
          | Some buffer => buffer
          | None => createSimplePdf iso text
          end
        else createSimplePdf iso text in
      match castString text with
      | Some stored =>
          save_or_log
            (set_result solution (Some stored)
               (match pdfBuffer with
                | [] => Solution.solutionPdf solution
                | _ => Some pdfBuffer
                end)
               completed processingTime) c
      | None => c
      end
  | _, _ => c   (* TypeError: caught by the callback's outer catch *)
  end.

(** [pythonProcess.on('close', async (code) => ...)] for the process
    [child], with the chunks its [stdout] and [stderr] delivered. *)
Definition onClose (child : Child) (code : option Z)
           (stdoutChunks stderrChunks : list JsString) (now : Z)
           (iso : JsString) (c : Solution.collection) : Solution.collection :=
  let processingTime := (now - child_startTime child)%Z in
  let solutionText := concat_chunks stdoutChunks in
  let errorOutput := concat_chunks stderrChunks in
  match Solution.findById (child_solution child) c with
  | None => c
  | Some solution =>
      if exit_ok code && Solution.nonempty (trim solutionText) then
        on_success iso processingTime solutionText solution c
      else
        save_or_log
          (set_result solution
             (Some (failure_text
                      (match errorOutput with
                       | [] => lit "Unknown error"
                       | _ => errorOutput
                       end)))
             (Solution.solutionPdf solution) failed processingTime) c
  end.

(** The catch block of [solveAssignmentAsync], once [findById] answers. *)
Definition onCaught (k : Caught) (now : Z) (c : Solution.collection)
  : Solution.collection :=
  match Solution.findById (caught_solution k) c with
  | None => c
  | Some solution =>
      save_or_log
        (set_result solution (Some (failure_text (caught_message k)))
           (Solution.solutionPdf solution) failed
           (now - caught_startTime k)%Z) c
  end.

(* --------------------------------------------------------------------- *)
(** ** [POST /solve] on the body as it arrives *)
(* --------------------------------------------------------------------- *)

(** [v?.k] *)
Definition get_optional (v : JsValue) (k : JsString) : JsValue :=
  match get_prop v k with
  | Some w => w
  | None => JUndefined
  end.

(** What the callback of [materials?.map] reads of an element [m]:
    [m.driveFile?.driveFile?.id], [.title] and [.alternateLink].  Reading
    [m.driveFile] of [null] is a [TypeError] ([None]). *)
Definition material_fields (m : JsValue)
  : option (JsValue * JsValue * JsValue) :=
  match get_prop m (lit "driveFile") with
  | None => None
  | Some shared =>
      let file := get_optional shared (lit "driveFile") in
      Some (get_optional file (lit "id"),
            get_optional file (lit "title"),
            get_optional file (lit "alternateLink"))
  end.

Fixpoint map_material_fields (items : list JsValue)
  : option (list (JsValue * JsValue * JsValue)) :=
  match items with
  | [] => Some []
  | m :: rest =>
      match material_fields m, map_material_fields rest with
      | Some x, Some xs => Some (x :: xs)
      | _, _ => None
      end
  end.

(** [materials?.map(m => ...) || []]: [undefined] and [null] give the
    empty list, an array is mapped, and anything else has no function
    [map] to call: a [TypeError] ([None]). *)
Definition materials_fields (materials : JsValue)
  : option (list (JsValue * JsValue * JsValue)) :=
  match materials with
  | JUndefined | JNull => Some []
  | JArr items => map_material_fields items
  | _ => None
  end.

(** A value assigned to a [String] path that is not required: [undefined]
    and [null] are kept as no value, anything else is cast. *)
Definition cast_optional (v : JsValue) : option (option JsString) :=
  match v with
  | JUndefined | JNull => Some None
  | _ =>
      match castString v with
      | Some s => Some (Some s)
      | None => None
      end
  end.

Definition cast_material (x : JsValue * JsValue * JsValue)
  : option Solution.MaterialInfo :=
  let '(fileId, fileName, fileUrl) := x in
  match cast_optional fileId, cast_optional fileName,
        cast_optional fileUrl with
  | Some i, Some n, Some u =>
      Some {| Solution.fileId := i; Solution.fileName := n;
              Solution.fileUrl := u |}
  | _, _, _ => None
  end.

Fixpoint cast_materials (l : list (JsValue * JsValue * JsValue))
  : option (list Solution.MaterialInfo) :=
  match l with
  | [] => Some []
  | x :: rest =>
      match cast_material x, cast_materials rest with
      | Some m, Some ms => Some (m :: ms)
      | _, _ => None
      end
  end.

(** [new Solution({ ... })] with the values of the body: Mongoose casts
    each to the type of its path; a value it cannot cast makes [save]
    reject ([None]). *)
Definition cast_solution (oid : ObjectId) (now : Z) (user : User.t)
           (assignmentId assignmentTitle courseId courseName : JsValue)
           (materials : list (JsValue * JsValue * JsValue))
  : option Solution.doc :=
  match castString assignmentId, castString assignmentTitle,
        castString courseId, castString courseName,
        cast_materials materials with
  | Some a, Some t, Some c, Some n, Some ms =>
      Some {| Solution._id := oid;
              Solution.userId := User._id user;
              Solution.assignmentId := a;
              Solution.assignmentTitle := t;
              Solution.courseId := c;
              Solution.courseName := n;
              Solution.solutionText := None;
              Solution.solutionPdf := None;
              Solution.solvedAt := now;
              Solution.status := processing;
              Solution.processingTime := 0%Z;
              Solution.materials := ms |}
  | _, _, _, _, _ => None
  end.

(** [Solution.isAssignmentSolved(user._id, assignmentId)] with the value
    of the body. *)
Definition isAssignmentSolved_cast (user : ObjectId) (assignmentId : JsValue)
           (c : Solution.collection) : option (option Solution.doc) :=
  match assignmentId with
  | JStr s => Some (Solution.isAssignmentSolved user s c)
  | _ => isAssignmentSolved_other user assignmentId c
  end.

Definition start_failed : Body :=
  BFailure (lit "Failed to start assignment solving").

(** [router.post('/solve', auth, ...)] for [req.body] as [express.json]
    leaves it.  Every exception and every rejected promise inside the
    [try] ends in the handler's [catch], which answers 500; nothing has
    been stored by then. *)
Definition post_solve_json (env : Env) (tCreated tStarted : Z) (st : State)
           (user : User.t) (body : JsValue) : State * Response :=
  match get_prop body (lit "assignmentId"),
        get_prop body (lit "assignmentTitle"),
        get_prop body (lit "courseId"),
        get_prop body (lit "courseName"),
        get_prop body (lit "materials") with
  | Some assignmentId, Some assignmentTitle, Some courseId,
    Some courseName, Some materials =>
      if negb (truthy assignmentId) || negb (truthy assignmentTitle)
         || negb (truthy courseId) || negb (truthy courseName)
      then (st, Json 400 (BError missing_fields))
      else
        match isAssignmentSolved_cast (User._id user) assignmentId
                                      (store st) with
        | None => (st, Json 500 start_failed)
        | Some (Some existingSolution) =>
            (st, Json 200 (BAlreadySolved (Solution._id existingSolution)))
        | Some None =>
            if negb (hasAccessToken user) then
              (st, Json 401
                        (BError (lit "Google authentication required to solve assignments")))
            else
              match materials_fields materials with
              | None => (st, Json 500 start_failed)
              | Some fields =>
                  match cast_solution (nextId st) tCreated user
                                      assignmentId assignmentTitle
                                      courseId courseName fields with
                  | None => (st, Json 500 start_failed)
                  | Some solution =>
                      match Solution.insert solution (store st) with
                      | None => (st, Json 500 start_failed)
                      | Some store' =>
                          let saved :=
                            {| store := store';
                               nextId := N.succ (nextId st);
                               children := children st;
                               caught := caught st |} in
                          (solveAssignmentAsync env tStarted
                                                (Solution._id solution) saved,
                           Json 200 (BStarted (Solution._id solution)
                                              processing))
                      end
                  end
              end
        end
  | _, _, _, _, _ => (st, Json 500 start_failed)
  end.

(* --------------------------------------------------------------------- *)
(** ** The server as a transition system *)
(* --------------------------------------------------------------------- *)

(** What can happen to the server: a request to one of the four routes
    ([POST /solve] with any JSON body), the close event of a running
    process (a process closes once), the catch block of
    [solveAssignmentAsync] going on after its [await], and the error
    event of a process that could not be started. *)
Inductive Event :=
| PostSolve (tCreated tStarted : Z) (user : User.t) (body : JsValue)
| GetSolution (user : User.t) (solutionId : JsString)
| GetSolutionPdf (user : User.t) (solutionId : JsString)
| GetSolutions (user : User.t) (limitParam : option JsString)
| ProcessClosed (solutionId : ObjectId) (code : option Z)
                (stdoutChunks stderrChunks : list JsString)
                (now : Z) (iso : JsString)
| CatchResumed (solutionId : ObjectId) (now : Z)
| ProcessError (solutionId : ObjectId).

Fixpoint take_child (solutionId : ObjectId) (l : list Child)
  : option (Child * list Child) :=
  match l with
  | [] => None
  | x :: r =>
      if ObjectId_eqb (child_solution x) solutionId then Some (x, r)
      else match take_child solutionId r with
           | Some (y, r') => Some (y, x :: r')
           | None => None
           end
  end.

Fixpoint take_caught (solutionId : ObjectId) (l : list Caught)
  : option (Caught * list Caught) :=
  match l with
  | [] => None
  | x :: r =>
      if ObjectId_eqb (caught_solution x) solutionId then Some (x, r)
      else match take_caught solutionId r with
           | Some (y, r') => Some (y, x :: r')
           | None => None
           end
  end.

(** One event; [None] when it cannot happen in [st] (no such process, no
    such suspended catch block).  The three reading routes answer from
    the collection ([get_solution], [get_solution_pdf], [get_solutions])
    and write nothing.

    [spawn] returns a process object even when the interpreter, whose
    path is written into the source, cannot be started; the object then
    emits ['error'].  No listener is registered for it, so Node throws
    and the server ends: every continuation that was pending is lost.
    The collection is in the database and stays as it is, and a server
    started again goes on from there. *)
Definition step (env : Env) (st : State) (e : Event) : option State :=
  match e with
  | PostSolve tCreated tStarted user body =>
      Some (fst (post_solve_json env tCreated tStarted st user body))
  | GetSolution _ _ | GetSolutionPdf _ _ | GetSolutions _ _ => Some st
  | ProcessClosed solutionId code out err now iso =>
      match take_child solutionId (children st) with
      | Some (child, rest) =>
          Some {| store := onClose child code out err now iso (store st);
                  nextId := nextId st; children := rest; caught := caught st |}
      | None => None
      end
  | CatchResumed solutionId now =>
      match take_caught solutionId (caught st) with
      | Some (k, rest) =>
          Some {| store := onCaught k now (store st);
                  nextId := nextId st; children := children st; caught := rest |}
      | None => None
      end
  | ProcessError solutionId =>
      match take_child solutionId (children st) with
      | Some _ =>
          Some {| store := store st; nextId := nextId st;
                  children := []; caught := [] |}
      | None => None
      end
  end.

Fixpoint run (env : Env) (st : State) (events : list Event) : option State :=
  match events with
  | [] => Some st
  | e :: rest =>
      match step env st e with
      | Some st' => run env st' rest
      | None => None
      end
  end.

End Backend.

(* ===================================================================== *)
(** * The dashboard's polling loop ([pages/DashboardNew.tsx]) *)
(* ===================================================================== *)

Module Dashboard.

(** What [await assignmentService.getSolution(solutionId)] gives: the
    promise rejects (no network, or an answer that is not 2xx), or it
    resolves to [response.data] with its [success] flag and the status of
    [response.solution]. *)
Inductive Fetched :=
| Rejected
| Resolved (success : bool) (status : JsString).

(** The banner the loop sets. *)
Inductive Message :=
| SolvedMessage        (* setSuccessMessage: solved successfully *)
| FailedMessage        (* setErrorMessage: failed to solve *)
| TakingLonger.        (* setErrorMessage: taking longer than expected *)

Definition maxAttempts : nat := 30.

(** A finished run: the calls of [getSolution] made, the banner set (if
    any), and the delays of the timers that were armed, in order. *)
Record Outcome := {
  attempts : nat;
  message : option Message;
  timers : list Z
}.

Definition stop (n : nat) (m : option Message) : option Outcome :=
  Some {| attempts := n; message := m; timers := [] |}.

Definition after (delay : Z) (rest : option Outcome) : option Outcome :=
  match rest with
  | Some o =>
      Some {| attempts := attempts o; message := message o;
              timers := delay :: timers o |}
  | None => None
  end.

(** The closure [poll], run with [attempts] calls already made.
    [getSolution n] is the result of the [n]-th call.  [fuel] bounds the
    number of calls the model follows; [None] means it ran out. *)
Fixpoint poll (fuel : nat) (getSolution : nat -> Fetched) (attempts : nat)
  : option Outcome :=
  match fuel with
  | O => None
  | S fuel' =>
      let attempts := S attempts in
      let reached := if Nat.leb maxAttempts attempts
                     then stop attempts (Some TakingLonger)
                     else stop attempts None in
      match getSolution attempts with
      | Resolved true status =>
          if str_eqb status completed then stop attempts (Some SolvedMessage)
          else if str_eqb status failed then stop attempts (Some FailedMessage)
          else if str_eqb status processing && Nat.ltb attempts maxAttempts
          then after 10000 (poll fuel' getSolution attempts)
          else reached
      | Resolved false _ => reached
      | Rejected =>
          if Nat.ltb attempts maxAttempts
          then after 10000 (poll fuel' getSolution attempts)
          else stop attempts None
      end
  end.

(** [pollSolutionStatus]: [poll] is first called after five seconds. *)
Definition pollSolutionStatus (getSolution : nat -> Fetched) : option Outcome :=
  after 5000 (poll maxAttempts getSolution 0).

End Dashboard.

(* ===================================================================== *)
(** * Identifiers on the wire *)
(* ===================================================================== *)

(** The character of a hexadecimal digit, in lower case. *)
Definition hexchar (d : N) : N := (if d <? 10 then 48 + d else 87 + d)%N.

(** The last [width] hexadecimal digits of [n], put before [rest]. *)
Fixpoint hex_digits (width : nat) (n : N) (rest : JsString) : JsString :=
  match width with
  | O => rest
  | S w => hex_digits w (n / 16)%N (hexchar (n mod 16)%N :: rest)
  end.

(** [res.json] writes an [ObjectId] with its [toString]: its twelve bytes
    as 24 hexadecimal digits.  This is the [solutionId] the dashboard
    receives and puts in the URL of [GET /solution/:solutionId]. *)
Definition ObjectId_toString (oid : ObjectId) : JsString :=
  hex_digits 24 oid [].


(* ===================================================================== *)
(** * The dashboard's badges and lists ([pages/DashboardNew.tsx]) *)
(* ===================================================================== *)

(** A JavaScript number as far as a comparison reads it: not a number, an
    infinity, or a rational [num / den] (every finite double is one). *)
Inductive JsDouble :=
| NaN
| Infinity (negative : bool)
| Ratio (num : Z) (den : positive).

(** [x <= k] for a whole number [k] *)
Definition le_int (x : JsDouble) (k : Z) : bool :=
  match x with
  | NaN => false
  | Infinity negative => negative
  | Ratio num den => Z.leb num (k * Z.pos den)
  end.

(** The fields of [interface Assignment] that the dashboard's functions
    read.  An optional field that is absent is [None]. *)
Module Assignment.
Record t := {
  id : JsString;
  title : JsString;
  courseId : JsString;
  courseName : option JsString;
  state : JsString;
  isOverdue : bool;
  daysUntilDue : option JsDouble;     (* number | null *)
  isSolved : bool;
  submissionState : JsString;
  materials : option (list Material)
}.
End Assignment.

Definition getStatusColor (assignment : Assignment.t) : JsString :=
  if Assignment.isSolved assignment then
    lit "text-green-300 bg-green-500/20 border border-green-500/30"
  else if Assignment.isOverdue assignment then
    lit "text-red-300 bg-red-500/20 border border-red-500/30"
  else if str_eqb (Assignment.submissionState assignment) (lit "CREATED") then
    lit "text-blue-300 bg-blue-500/20 border border-blue-500/30"
  else if str_eqb (Assignment.submissionState assignment) (lit "NEW") then
    lit "text-yellow-300 bg-yellow-500/20 border border-yellow-500/30"
  else if str_eqb (Assignment.state assignment) (lit "TURNED_IN") then
    lit "text-green-300 bg-green-500/20 border border-green-500/30"
  else if str_eqb (Assignment.state assignment) (lit "CREATED") then
    lit "text-blue-300 bg-blue-500/20 border border-blue-500/30"
  else if str_eqb (Assignment.state assignment) (lit "ASSIGNED") then
    lit "text-yellow-300 bg-yellow-500/20 border border-yellow-500/30"
  else
    lit "text-slate-300 bg-slate-500/20 border border-slate-500/30".

Definition getPriorityColor (assignment : Assignment.t) : JsString :=
  if Assignment.isOverdue assignment then lit "border-red-500"
  else
    match Assignment.daysUntilDue assignment with
    | Some days =>
        if le_int days 1 then lit "border-red-500"
        else if le_int days 3 then lit "border-yellow-500"
        else lit "border-green-500"
    | None => lit "border-slate-500"
    end.

Definition getStatusText (assignment : Assignment.t) : JsString :=
  if Assignment.isSolved assignment then
    if str_eqb (Assignment.submissionState assignment) (lit "TURNED_IN")
    then lit "Submitted"
    else if str_eqb (Assignment.submissionState assignment) (lit "RETURNED")
    then lit "Graded"
    else lit "Completed"
  else if Assignment.isOverdue assignment then lit "Overdue"
  else if str_eqb (Assignment.submissionState assignment) (lit "CREATED") then
    lit "In Progress"
  else if str_eqb (Assignment.submissionState assignment) (lit "NEW") then
    lit "Not Started"
  else if str_eqb (Assignment.state assignment) (lit "TURNED_IN") then
    lit "Submitted"
  else if str_eqb (Assignment.state assignment) (lit "CREATED") then
    lit "In Progress"
  else if str_eqb (Assignment.state assignment) (lit "ASSIGNED") then
    lit "Assigned"
  else lit "Unknown".

(** [assignments.filter(...)]: the assignments still to solve. *)
Definition pendingAssignments (assignments : list Assignment.t)
  : list Assignment.t :=
  filter (fun assignment =>
            negb (str_eqb (Assignment.state assignment) (lit "TURNED_IN"))
            && negb (str_eqb (Assignment.state assignment) (lit "RETURNED"))
            && negb (Assignment.isSolved assignment))
         assignments.

(** The numbers of the cards 'Unsolved', 'Solved' and 'In Progress'. *)
Definition unsolvedCount (assignments : list Assignment.t) : nat :=
  List.length (pendingAssignments assignments).

Definition solvedCount (assignments : list Assignment.t) : nat :=
  List.length (filter Assignment.isSolved assignments).

Definition inProgressCount (assignments : list Assignment.t) : nat :=
  List.length
    (filter (fun a => str_eqb (Assignment.submissionState a) (lit "CREATED")
                      && negb (Assignment.isSolved a))
            assignments).

(** [pendingAssignments.slice(0, 10)]: the cards that are drawn. *)
Definition shownAssignments (assignments : list Assignment.t)
  : list Assignment.t :=
  firstn 10 (pendingAssignments assignments).

(** [pendingAssignments.length > 10]: the link 'View all' is drawn. *)
Definition showsViewAll (assignments : list Assignment.t) : bool :=
  Nat.ltb 10 (List.length (pendingAssignments assignments)).

(** The body [handleSolveAssignment] posts: [courseName] is left out of
    the JSON when the assignment has none, and [materials || []] is the
    array itself whenever there is one. *)
Definition assignmentData (assignment : Assignment.t) : SolveBody :=
  {| assignmentId := Some (Assignment.id assignment);
     assignmentTitle := Some (Assignment.title assignment);
     courseId := Some (Assignment.courseId assignment);
     courseName := Assignment.courseName assignment;
     materials :=
       Some (match Assignment.materials assignment with
             | Some ms => ms
             | None => []
             end) |}.

(* ===================================================================== *)
(** * The dashboard's view of an answer ([services/api.js]) *)
(* ===================================================================== *)

(** What [assignmentService.getSolution] makes of a JSON answer of the
    server, as [poll] reads it.  Axios rejects a status outside 2xx.
    Otherwise [response.data] is the body: [{ success: true, solution }]
    gives the flag and [solution.status]; a body with [success: true] and
    no [solution] makes [solution.status] throw inside [poll]'s [try],
    which its [catch] treats like a rejected call; a body without
    [success] has a flag that is not truthy. *)
Definition fetched (code : nat) (body : Body) : Dashboard.Fetched :=
  if Nat.leb 200 code && Nat.ltb code 300 then
    match body with
    | BSolution solution => Dashboard.Resolved true (view_status solution)
    | BAlreadySolved _ | BStarted _ _ | BSolutions _ => Dashboard.Rejected
    | BError _ | BFailure _ => Dashboard.Resolved false []
    end
  else Dashboard.Rejected.

(** [s.startsWith(prefix)] and [s.includes(sub)] *)
Fixpoint startsWith (s prefix : JsString) : bool :=
  match prefix, s with
  | [], _ => true
  | p :: ps, c :: cs => N.eqb p c && startsWith cs ps
  | _ :: _, [] => false
  end.

Fixpoint includes (s sub : JsString) : bool :=
  startsWith s sub
  || match s with
     | [] => false
     | _ :: r => includes r sub
     end.

(** What the response interceptor does with a failed request before it
    rejects the promise (it always rejects): nothing, or it removes the
    token and the user from [localStorage] and goes to [/signin]. *)
Inductive Intercepted := PassedOn | SignedOut.

(** [status] is [error.response?.status] and [url] is
    [error.config?.url]; [None] is [undefined]. *)
Definition on_response_error (status : option nat) (url : option JsString)
  : Intercepted :=
  match status with
  | Some code =>
      if Nat.eqb code 401 then
        let isAssignmentEndpoint :=
          match url with
          | Some u => includes u (lit "/assignments")
          | None => false
          end in
        let isAuthEndpoint :=
          match url with
          | Some u => includes u (lit "/auth")
          | None => false
          end in
        if isAssignmentEndpoint then PassedOn
        else if isAuthEndpoint then SignedOut
        else PassedOn
      else PassedOn
  | None => PassedOn
  end.

(** The URLs [assignmentService] asks for on behalf of the dashboard;
    [stamp] is [Date.now()] as the template literal prints it, [limit]
    the number of [getSolutions] as printed, when it is truthy. *)
Definition solveAssignment_url : JsString := lit "/assignments/solve".

Definition getSolution_url (solutionId : JsString) : JsString :=
  lit "/assignments/solution/" ++ solutionId.

Definition downloadSolutionPdf_url (solutionId stamp : JsString) : JsString :=
  lit "/assignments/solution/" ++ solutionId ++ lit "/pdf?t=" ++ stamp.

Definition getSolutions_url (limit : option JsString) : JsString :=
  match limit with
  | Some n => lit "/assignments/solutions?limit=" ++ n
  | None => lit "/assignments/solutions"
  end.
(* ===================================================================== *)
(** * Vocabulary of the statements *)
(* ===================================================================== *)

(** The solutions some pending continuation will still write to. *)
Definition pending (st : State) : list ObjectId :=
  map child_solution (children st) ++ map caught_solution (caught st).

(** What every reachable state satisfies: identifiers are unique and below
    the next one, stored documents passed validation, a solution has at
    most one pending continuation, and as long as it has one it is still
    ['processing']. *)
Record Inv (st : State) : Prop := {
  inv_ids : NoDup (map Solution._id (store st));
  inv_below :
    Forall (fun i => (i < nextId st)%N) (map Solution._id (store st));
  inv_valid : Forall (fun d => Solution.validate d = true) (store st);
  inv_pending : NoDup (pending st);
  inv_pending_below : Forall (fun i => (i < nextId st)%N) (pending st);
  inv_processing :
    forall d, In d (store st) -> In (Solution._id d) (pending st) ->
              Solution.status d = processing
}.

(** Two observations of one document, the second later: it is the same
    document, field by field, or it was ['processing'] and has been given
    a final status. *)
Definition advances (before after : Solution.doc) : Prop :=
  after = before
  \/ (Solution.status before = processing
      /\ (Solution.status after = completed
          \/ Solution.status after = failed)).

(** Every document of [c] is still in [c'], under its identifier, and
    [advances]. *)
Definition evolves (c c' : Solution.collection) : Prop :=
  forall d, In d c ->
    exists d', In d' c' /\ Solution._id d' = Solution._id d
               /\ advances d d'.

(** What a pending continuation may do to the collection: nothing, or put
    a validated document with a final status in the place of document
    [i], which [findById] found. *)
Definition settles (i : ObjectId) (c c' : Solution.collection) : Prop :=
  c' = c \/
  exists old d,
    Solution.findById i c = Some old /\ Solution._id d = i
    /\ (Solution.status d = completed \/ Solution.status d = failed)
    /\ Solution.validate d = true
    /\ c' = map (Solution.replace d) c.

(** The documents of one user for one assignment. *)
Definition records_of (user : ObjectId) (assignment : JsString)
           (c : Solution.collection) : list Solution.doc :=
  filter (fun d => ObjectId_eqb (Solution.userId d) user
                   && str_eqb (Solution.assignmentId d) assignment) c.

(** A string that is not empty after trimming. *)
Definition nonblank_string (v : JsValue) : bool :=
  match v with
  | JStr s => Solution.nonempty (trim s)
  | _ => false
  end.

(** Newest first. *)
Definition newer_first (a b : Solution.doc) : Prop :=
  (Solution.solvedAt b <= Solution.solvedAt a)%Z.

(** The timers of a run: five seconds, then ten before every further
    call. *)
Definition schedule (calls : nat) : list Z :=
  5000%Z :: repeat 10000%Z (calls - 1).

(** A parser that uses up part of its input. *)
Definition consuming (pv : JsString -> option (JsValue * JsString)) : Prop :=
  forall s v r, pv s = Some (v, r) -> List.length r < List.length s.

(** Two parsers that agree on every input shorter than [m]. *)
Definition agree_below (m : nat)
           (pv pv' : JsString -> option (JsValue * JsString)) : Prop :=
  forall s, List.length s < m -> pv s = pv' s.

(** The five fields the handler of [POST /solve] takes from the body;
    [None] when the body is [null] or [undefined]. *)
Definition body_fields (body : JsValue)
  : option (JsValue * JsValue * JsValue * JsValue * JsValue) :=
  match get_prop body (lit "assignmentId"),
        get_prop body (lit "assignmentTitle"),
        get_prop body (lit "courseId"),
        get_prop body (lit "courseName"),
        get_prop body (lit "materials") with
  | Some a, Some t, Some c, Some n, Some m => Some (a, t, c, n, m)
  | _, _, _, _, _ => None
  end.

(** A Drive field of an entry of [materials] that needs no cast: absent,
    [null], or a string. *)
Definition plain_field (v : JsValue) : option (option JsString) :=
  match v with
  | JUndefined | JNull => Some None
  | JStr s => Some (Some s)
  | _ => None
  end.

(** An entry of [materials] that is not [null] and whose Drive fields are
    plain, as the entry stored for it. *)
Definition plain_material (m : JsValue) : option Solution.MaterialInfo :=
  match material_fields m with
  | Some (i, n, u) =>
      match plain_field i, plain_field n, plain_field u with
      | Some fileId, Some fileName, Some fileUrl =>
          Some {| Solution.fileId := fileId; Solution.fileName := fileName;
                  Solution.fileUrl := fileUrl |}
      | _, _, _ => None
      end
  | None => None
  end.

Fixpoint plain_entries (items : list JsValue)
  : option (list Solution.MaterialInfo) :=
  match items with
  | [] => Some []
  | m :: rest =>
      match plain_material m, plain_entries rest with
      | Some x, Some xs => Some (x :: xs)
      | _, _ => None
      end
  end.

(** [materials] that is absent, [null], or an array of such entries. *)
Definition plain_materials (materials : JsValue)
  : option (list Solution.MaterialInfo) :=
  match materials with
  | JUndefined | JNull => Some []
  | JArr items => plain_entries items
  | _ => None
  end.

(** [materials] on which the handler throws: a value other than an
    array that is not [null] or [undefined] (it has no [map]), or an
    array that holds [null]. *)
Definition throwing_materials (materials : JsValue) : Prop :=
  match materials with
  | JUndefined | JNull => False
  | JArr items => In JNull items \/ In JUndefined items
  | _ => True
  end.

(** A required field that needs no cast: a string, or a value that
    counts as missing. *)
Definition plain_text (v : JsValue) : bool :=
  match v with
  | JStr _ => true
  | _ => negb (truthy v)
  end.

(** A body that is an object whose required fields and materials are
    plain. *)
Definition plain_body (body : JsValue) : bool :=
  match body_fields body with
  | Some (a, t, c, n, m) =>
      plain_text a && plain_text t && plain_text c && plain_text n
      && match plain_materials m with Some _ => true | None => false end
  | None => false
  end.

(** The document [POST /solve] stores for a request with the strings
    [a], [t], [c], [n] and the material entries [ms]. *)
Definition started_solution (oid : ObjectId) (now : Z) (user : User.t)
           (a t c n : JsString) (ms : list Solution.MaterialInfo)
  : Solution.doc :=
  {| Solution._id := oid;
     Solution.userId := User._id user;
     Solution.assignmentId := a;
     Solution.assignmentTitle := t;
     Solution.courseId := c;
     Solution.courseName := n;
     Solution.solutionText := None;
     Solution.solutionPdf := None;
     Solution.solvedAt := now;
     Solution.status := processing;
     Solution.processingTime := 0%Z;
     Solution.materials := ms |}.

(** The server after it ended: the database is what is left. *)
Definition ended (st : State) : State :=
  {| store := store st; nextId := nextId st; children := []; caught := [] |}.

(* ===================================================================== *)
(** * Sample inputs, for the concrete instances below *)
(* ===================================================================== *)

Definition alice : User.t :=
  {| User._id := 7%N;
     User.googleTokens := Some {| User.accessToken := Some (lit "ya29.token") |} |}.

(** A user who has not linked a Google account. *)
Definition bob : User.t := {| User._id := 8%N; User.googleTokens := None |}.

Definition homework : SolveBody :=
  {| assignmentId := Some (lit "a1");
     assignmentTitle := Some (lit "Homework 1");
     courseId := Some (lit "c1");
     courseName := Some (lit "Algebra");
     materials := None |}.

(** The same request without its title. *)
Definition untitled : SolveBody :=
  {| assignmentId := Some (lit "a1");
     assignmentTitle := None;
     courseId := Some (lit "c1");
     courseName := Some (lit "Algebra");
     materials := None |}.

Definition configured : Env := {| GEMINI_API_KEY := Some (lit "key") |}.
Definition unconfigured : Env := {| GEMINI_API_KEY := None |}.

(** Library stand-ins that reject every array, object and non-string. *)
Definition rejects_buffer : JsValue -> option Buffer := fun _ => None.
Definition rejects_cast : JsValue -> option JsString := fun _ => None.
Definition rejects_query
  : ObjectId -> JsValue -> Solution.collection -> option (option Solution.doc)
  := fun _ _ _ => None.

Definition iso0 : JsString := lit "2024-01-01T00:00:00.000Z".

(** One attempt of [alice] at [homework] that the solver completed, one
    that it failed, and one on a server without the API key. *)
Definition solved_once : list Event :=
  [PostSolve 1000 1001 alice (body_json homework);
   ProcessClosed 0%N (Some 0%Z) [lit "x = 2"] [] 5000 iso0].

Definition failed_once : list Event :=
  [PostSolve 1000 1001 alice (body_json homework);
   ProcessClosed 0%N (Some 1%Z) [] [lit "Traceback"] 5000 iso0].

Definition failed_without_key : list Event :=
  [PostSolve 1000 1001 alice (body_json homework); CatchResumed 0%N 1002].

(** The access token is a string that [spawn] takes as an argument of
    the process: it holds no NUL character. *)
Definition spawn_accepts (user : User.t) : bool :=
  match User.googleTokens user with
  | Some tokens =>
      match User.accessToken tokens with
      | Some token => negb (existsb (N.eqb 0) token)
      | None => false
      end
  | None => false
  end.

(** The state a list of events leads to, with the stand-ins above. *)
Definition after_events (env : Env) (events : list Event) : State :=
  match run rejects_buffer rejects_cast rejects_query env init events with
  | Some st => st
  | None => init
  end.

(** The oldest document of a state. *)
Definition oldest (st : State) : Solution.doc :=
  hd (new_solution 0%N 0 alice homework) (store st).

Definition solved_state : State := after_events configured solved_once.
Definition failed_state : State := after_events configured failed_once.
Definition failed_without_key_state : State :=
  after_events unconfigured failed_without_key.

(** A failed attempt followed by a completed one. *)
Definition failed_then_solved : list Event :=
  failed_once
  ++ [PostSolve 6000 6001 alice (body_json homework);
      ProcessClosed 1%N (Some 0%Z) [lit "x = 2"] [] 9000 iso0].

Definition failed_then_solved_state : State :=
  after_events configured failed_then_solved.

(** The server after a process printed [text] and closed with [code]. *)
Definition closed_with (code : Z) (text : JsString) : State :=
  after_events configured
    [PostSolve 1000 1001 alice (body_json homework);
     ProcessClosed 0%N (Some code) [text] [] 5000 iso0].

Definition quoted (s : JsString) : JsString := [34%N] ++ s ++ [34%N].

(** The output [{"solutionText": 5}]. *)
Definition numeric_answer : JsString :=
  lit "{" ++ quoted (lit "solutionText") ++ lit ": 5}".

(** A cast stand-in that knows the strings of the one-digit numbers, as
    [String(5)] is ["5"], and rejects everything else. *)
Definition casts_digits (v : JsValue) : option JsString :=
  match v with
  | JNum {| neg := false; mant := m; exp10 := 0%Z |} =>
      if N.ltb m 10 then Some [(48 + m)%N] else None
  | _ => None
  end.

(** The server after the solver printed [numeric_answer]. *)
Definition numeric_state : State :=
  match run rejects_buffer casts_digits rejects_query configured init
            [PostSolve 1000 1001 alice (body_json homework);
             ProcessClosed 0%N (Some 0%Z) [numeric_answer] [] 5000 iso0] with
  | Some st => st
  | None => init
  end.

Definition five : JsValue := JNum {| neg := false; mant := 5; exp10 := 0 |}.

(** The identifier [0] as the URL carries it. *)
Definition id0 : JsString := lit "000000000000000000000000".

(** A request whose title holds a euro sign (U+20AC), and the server after
    that assignment was solved. *)
Definition euro_homework : SolveBody :=
  {| assignmentId := Some (lit "a2");
     assignmentTitle := Some (lit "Budget " ++ [8364%N]);
     courseId := Some (lit "c1");
     courseName := Some (lit "Algebra");
     materials := None |}.

Definition euro_state : State :=
  after_events configured
    [PostSolve 1000 1001 alice (body_json euro_homework);
     ProcessClosed 0%N (Some 0%Z) [lit "x = 2"] [] 5000 iso0].

(** The body of [homework] with the string ['notes.pdf'] for its
    materials, and with an array holding [null]. *)
Definition with_materials (materials : JsValue) : JsValue :=
  JObj [(lit "assignmentId", JStr (lit "a1"));
        (lit "assignmentTitle", JStr (lit "Homework 1"));
        (lit "courseId", JStr (lit "c1"));
        (lit "courseName", JStr (lit "Algebra"));
        (lit "materials", materials)].

Definition string_materials : JsValue :=
  with_materials (JStr (lit "notes.pdf")).

Definition null_material : JsValue := with_materials (JArr [JNull]).

(** A server that never answers, and one whose solver never finishes. *)
Definition unreachable (n : nat) : Dashboard.Fetched := Dashboard.Rejected.
Definition never_done (n : nat) : Dashboard.Fetched :=
  Dashboard.Resolved true processing.

(* ===================================================================== *)
(** * Vocabulary of the further statements *)
(* ===================================================================== *)

(** All four required fields pass the handler's test. *)
Definition fields_present (body : SolveBody) : bool :=
  present (assignmentId body) && present (assignmentTitle body)
  && present (courseId body) && present (courseName body).

(** An [ObjectId] has twelve bytes. *)
Definition ObjectId_bound : N := (16 ^ 24)%N.

(** [d'] is [sol] after its solving ended: a text, a final status and a
    time are written; the PDF is the one [sol] had or, for a completed
    solution, a buffer that is not empty; nothing else is touched. *)
Definition outcome_of (sol d' : Solution.doc) : Prop :=
  exists text pdf st time,
    d' = set_result sol (Some text) pdf st time
    /\ ((st = failed /\ pdf = Solution.solutionPdf sol
         /\ exists detail, text = lit "Solving failed: " ++ detail)
        \/ (st = completed
            /\ (pdf = Solution.solutionPdf sol
                \/ exists b, b <> [] /\ pdf = Some b))).

(** What the close callback and the catch block do to the collection:
    nothing, or they save the outcome of solution [i]. *)
Definition writes_outcome (i : ObjectId) (c c' : Solution.collection)
  : Prop :=
  c' = c \/
  exists sol d',
    Solution.findById i c = Some sol /\ outcome_of sol d'
    /\ Solution.validate d' = true
    /\ c' = map (Solution.replace d') c.

(** The fields [POST /solve] fills from the request and the clock. *)
Definition same_request (d d' : Solution.doc) : Prop :=
  Solution.userId d' = Solution.userId d
  /\ Solution.assignmentId d' = Solution.assignmentId d
  /\ Solution.assignmentTitle d' = Solution.assignmentTitle d
  /\ Solution.courseId d' = Solution.courseId d
  /\ Solution.courseName d' = Solution.courseName d
  /\ Solution.solvedAt d' = Solution.solvedAt d
  /\ Solution.materials d' = Solution.materials d.

(** How the result fields of a document go with its status. *)
Definition result_fits_status (d : Solution.doc) : Prop :=
  (Solution.status d = processing ->
   Solution.solutionText d = None /\ Solution.solutionPdf d = None
   /\ Solution.processingTime d = 0%Z)
  /\ (Solution.status d = failed ->
      Solution.solutionPdf d = None
      /\ exists detail,
           Solution.solutionText d = Some (lit "Solving failed: " ++ detail))
  /\ (Solution.status d = completed -> Solution.solutionText d <> None)
  /\ (forall b, Solution.solutionPdf d = Some b ->
                b <> [] /\ Solution.status d = completed).

Definition is_processing (d : Solution.doc) : bool :=
  str_eqb (Solution.status d) processing.

(** An answer after which the dashboard asks again, as long as it may:
    the call was rejected, or the solution is still ['processing']. *)
Definition asks_again (f : Dashboard.Fetched) : Prop :=
  f = Dashboard.Rejected \/ f = Dashboard.Resolved true processing.

(** The banner of a finished run goes with the answer to its last call. *)
Definition banner_fits (getSolution : nat -> Dashboard.Fetched)
           (o : Dashboard.Outcome) : Prop :=
  let last := getSolution (Dashboard.attempts o) in
  (Dashboard.message o = Some Dashboard.SolvedMessage
   <-> last = Dashboard.Resolved true completed)
  /\ (Dashboard.message o = Some Dashboard.FailedMessage
      <-> last = Dashboard.Resolved true failed)
  /\ (Dashboard.message o = Some Dashboard.TakingLonger
      <-> Dashboard.attempts o = Dashboard.maxAttempts
          /\ exists ok s,
               last = Dashboard.Resolved ok s
               /\ (ok = false \/ (s <> completed /\ s <> failed))).

(** What the solver prints when it has a PDF: the text and the bytes
    [%PDF-] in hexadecimal. *)
Definition solver_answer : JsString :=
  lit "{" ++ quoted (lit "solutionText") ++ lit ": " ++ quoted (lit "x = 2")
      ++ lit ", " ++ quoted (lit "pdfBytes") ++ lit ": "
      ++ quoted (lit "255044462d") ++ lit "}".

Definition started_state : State :=
  after_events configured [PostSolve 1000 1001 alice (body_json homework)].

Definition answered_state : State :=
  after_events configured
    [PostSolve 1000 1001 alice (body_json homework);
     ProcessClosed 0%N (Some 0%Z) [solver_answer] [] 5000 iso0].

(** The colour that goes with a label of the status badge. *)
Definition badge_colour (label : JsString) : JsString :=
  if str_eqb label (lit "Submitted") || str_eqb label (lit "Graded")
     || str_eqb label (lit "Completed")
  then lit "text-green-300 bg-green-500/20 border border-green-500/30"
  else if str_eqb label (lit "Overdue")
  then lit "text-red-300 bg-red-500/20 border border-red-500/30"
  else if str_eqb label (lit "In Progress")
  then lit "text-blue-300 bg-blue-500/20 border border-blue-500/30"
  else if str_eqb label (lit "Not Started") || str_eqb label (lit "Assigned")
  then lit "text-yellow-300 bg-yellow-500/20 border border-yellow-500/30"
  else lit "text-slate-300 bg-slate-500/20 border border-slate-500/30".

Definition badge_labels : list JsString :=
  [lit "Submitted"; lit "Graded"; lit "Completed"; lit "Overdue";
   lit "In Progress"; lit "Not Started"; lit "Assigned"; lit "Unknown"].

(** The labels of an assignment that is not solved. *)
Definition unsolved_labels : list JsString :=
  [lit "Overdue"; lit "In Progress"; lit "Not Started"; lit "Assigned";
   lit "Unknown"].

(** [x <= y] on numbers; nothing compares with [NaN]. *)
Definition double_le (x y : JsDouble) : Prop :=
  match x, y with
  | NaN, _ | _, NaN => False
  | Infinity true, _ => True
  | _, Infinity false => True
  | Ratio a b, Ratio c d => (a * Z.pos d <= c * Z.pos b)%Z
  | _, _ => False
  end.

(** How urgent a border colour is. *)
Definition urgency (colour : JsString) : nat :=
  if str_eqb colour (lit "border-red-500") then 3
  else if str_eqb colour (lit "border-yellow-500") then 2
  else if str_eqb colour (lit "border-green-500") then 1
  else 0.

(** The assignment has what [POST /solve] requires: an identifier, a
    title, a course and a course name, none of them empty. *)
Definition solvable (a : Assignment.t) : bool :=
  Solution.nonempty (Assignment.id a)
  && Solution.nonempty (Assignment.title a)
  && Solution.nonempty (Assignment.courseId a)
  && present (Assignment.courseName a).

(** An assignment of the course 'Algebra' due in [days] days, and the same
    assignment as Classroom sends it when the course name is not known. *)
Definition due_in (days : Z) : Assignment.t :=
  {| Assignment.id := lit "a1"; Assignment.title := lit "Homework 1";
     Assignment.courseId := lit "c1";
     Assignment.courseName := Some (lit "Algebra");
     Assignment.state := lit "PUBLISHED";
     Assignment.isOverdue := false;
     Assignment.daysUntilDue := Some (Ratio days 1);
     Assignment.isSolved := false;
     Assignment.submissionState := lit "NEW";
     Assignment.materials := None |}.

(** The same assignment marked overdue, and one with no due date. *)
Definition overdue (a : Assignment.t) : Assignment.t :=
  {| Assignment.id := Assignment.id a; Assignment.title := Assignment.title a;
     Assignment.courseId := Assignment.courseId a;
     Assignment.courseName := Assignment.courseName a;
     Assignment.state := Assignment.state a;
     Assignment.isOverdue := true;
     Assignment.daysUntilDue := Assignment.daysUntilDue a;
     Assignment.isSolved := Assignment.isSolved a;
     Assignment.submissionState := Assignment.submissionState a;
     Assignment.materials := Assignment.materials a |}.

Definition undated : Assignment.t :=
  {| Assignment.id := lit "a1"; Assignment.title := lit "Homework 1";
     Assignment.courseId := lit "c1";
     Assignment.courseName := Some (lit "Algebra");
     Assignment.state := lit "PUBLISHED";
     Assignment.isOverdue := false;
     Assignment.daysUntilDue := None;
     Assignment.isSolved := false;
     Assignment.submissionState := lit "NEW";
     Assignment.materials := None |}.

(** What [GET /solutions] is asked for: ten when the [limit] parameter is
    absent, or is one that [parseInt] reads as [NaN] or as 0; the number
    [parseInt] reads when that is from 1 to [2^31 - 1], which a double
    holds exactly and MongoDB takes as a limit. *)
Definition asks_for (param : option JsString) (n : nat) : Prop :=
  (param = None /\ n = 10)
  \/ exists s, param = Some s
               /\ (((parseInt s = None \/ parseInt s = Some 0%Z) /\ n = 10)
                   \/ (parseInt s = Some (Z.of_nat n) /\ 0 < n
                       /\ (Z.of_nat n <= 2147483647)%Z)).

Definition nameless : Assignment.t :=
  {| Assignment.id := lit "a1"; Assignment.title := lit "Homework 1";
     Assignment.courseId := lit "c1";
     Assignment.courseName := None;
     Assignment.state := lit "PUBLISHED";
     Assignment.isOverdue := false;
     Assignment.daysUntilDue := None;
     Assignment.isSolved := false;
     Assignment.submissionState := lit "NEW";
     Assignment.materials := None |}.

(** The dashboard polls a server for [solutionId]: the [k]-th call of
    [getSolution] is answered by [GET /solution/:solutionId] in the state
    [states k] the server is in by then.  (The route never sends a
    payload that is not JSON.) *)
Definition polled (states : nat -> State) (user : User.t)
           (solutionId : JsString) (k : nat) : Dashboard.Fetched :=
  match get_solution (store (states k)) user solutionId with
  | Json code body => fetched code body
  | Send _ _ _ => Dashboard.Rejected
  end.

(** The server holds, in state [st], the solution the URL names, it is
    the user's, and it has the status [status]. *)
Definition holds_with (st : State) (user : User.t) (solutionId : JsString)
           (status : JsString) : Prop :=
  exists oid d,
    castObjectId solutionId = Some oid
    /\ Solution.findOne (is_solution_of oid (User._id user)) (store st)
       = Some d
    /\ Solution.status d = status.

(** The server as two calls of the dashboard find it: still solving at
    the first, done from the second on. *)
Definition done_at_second_call (k : nat) : State :=
  if Nat.ltb k 2 then started_state else answered_state.

(** The server after the solver of the first solution printed [null]
    (the callback throws and saves nothing), and what happens next: the
    same assignment is asked for again and solved. *)
Definition abandoned_state : State :=
  after_events configured
    [PostSolve 1000 1001 alice (body_json homework);
     ProcessClosed 0%N (Some 0%Z) [lit "null"] [] 5000 iso0].

Definition second_attempt : list Event :=
  [PostSolve 6000 6001 alice (body_json homework);
   ProcessClosed 1%N (Some 0%Z) [lit "x = 2"] [] 9000 iso0;
   GetSolution alice id0].

(** A summary of [GET /solutions] and a view of [GET /solution] show the
    same solution. *)
Definition same_solution (s : Solution.Summary) (v : SolutionView) : Prop :=
  view_id v = Solution.sum_id s
  /\ view_assignmentTitle v = Solution.sum_assignmentTitle s
  /\ view_courseName v = Solution.sum_courseName s
  /\ view_status v = Solution.sum_status s
  /\ view_solvedAt v = Solution.sum_solvedAt s
  /\ view_processingTime v = Solution.sum_processingTime s.

(* ===================================================================== *)
(** * Basic facts *)
(* ===================================================================== *)

Lemma str_eqb_eq (a b : JsString) : str_eqb a b = true <-> a = b.
Proof.
  revert b; induction a as [|x a IH]; intros [|y b]; simpl;
    try (split; [discriminate | congruence]); try tauto.
  rewrite andb_true_iff, N.eqb_eq, IH.
  split; [intros [-> ->]; reflexivity | intros H; inversion H; auto].
Qed.

Lemma str_eqb_refl (a : JsString) : str_eqb a a = true.
Proof. apply str_eqb_eq; reflexivity. Qed.

Lemma validate_status (d : Solution.doc) :
  Solution.validate d = true -> In (Solution.status d) Solution.status_enum.
Proof.
  unfold Solution.validate. rewrite !andb_true_iff.
  intros [[[[H _] _] _] _].
  apply existsb_exists in H. destruct H as [s [Hin Heq]].
  apply str_eqb_eq in Heq. subst s. exact Hin.
Qed.

Lemma replace_id (d x : Solution.doc) :
  Solution._id (Solution.replace d x) = Solution._id x.
Proof.
  unfold Solution.replace, ObjectId_eqb.
  destruct (N.eqb_spec (Solution._id x) (Solution._id d)); congruence.
Qed.

Lemma map_replace_ids (d : Solution.doc) (c : Solution.collection) :
  map Solution._id (map (Solution.replace d) c) = map Solution._id c.
Proof.
  rewrite map_map. apply map_ext. intros x. apply replace_id.
Qed.

Lemma in_map_replace (d x : Solution.doc) (c : Solution.collection) :
  In x (map (Solution.replace d) c) ->
  x = d \/ (In x c /\ Solution._id x <> Solution._id d).
Proof.
  rewrite in_map_iff. intros [y [Hy Hin]]. subst x.
  unfold Solution.replace, ObjectId_eqb.
  destruct (N.eqb_spec (Solution._id y) (Solution._id d)); auto.
Qed.

Lemma findById_some (i : ObjectId) (c : Solution.collection) (d : Solution.doc) :
  Solution.findById i c = Some d -> In d c /\ Solution._id d = i.
Proof.
  unfold Solution.findById, Solution.findOne. intros H.
  apply find_some in H. destruct H as [Hin Heq].
  apply N.eqb_eq in Heq. auto.
Qed.

Lemma findById_none (i : ObjectId) (c : Solution.collection) :
  Solution.findById i c = None -> ~ In i (map Solution._id c).
Proof.
  unfold Solution.findById, Solution.findOne. intros H Hin.
  apply in_map_iff in Hin. destruct Hin as [d [Hd Hin]].
  pose proof (find_none _ _ H d Hin) as Hn. simpl in Hn.
  unfold ObjectId_eqb in Hn. rewrite Hd, N.eqb_refl in Hn. discriminate.
Qed.

(** After a successful update the document read back by its identifier is
    the one that was saved. *)
Lemma findById_replace (d old : Solution.doc) (c : Solution.collection) :
  Solution.findById (Solution._id d) c = Some old ->
  Solution.findById (Solution._id d) (map (Solution.replace d) c) = Some d.
Proof.
  unfold Solution.findById, Solution.findOne, ObjectId_eqb.
  induction c as [|x c IH]; simpl; [discriminate|].
  rewrite replace_id.
  destruct (N.eqb_spec (Solution._id x) (Solution._id d)) as [E|E]; auto.
  intros _. unfold Solution.replace, ObjectId_eqb.
  apply N.eqb_eq in E. rewrite E. reflexivity.
Qed.

(* --------------------------------------------------------------------- *)
(** ** The JSON parser and its fuel *)
(* --------------------------------------------------------------------- *)

Lemma skip_ws_length (s : JsString) :
  List.length (skip_ws s) <= List.length s.
Proof.
  induction s as [|c s IH]; simpl; [lia|].
  destruct (isJsonWs c); simpl; lia.
Qed.

Lemma cons_fst_some {A B : Type} (a : A) (r : option (list A * B))
      (l : list A) (b : B) :
  cons_fst a r = Some (l, b) -> exists l', r = Some (l', b) /\ l = a :: l'.
Proof.
  destruct r as [[l' b']|]; simpl; [|discriminate].
  intros H; inversion H; subst. eauto.
Qed.

Lemma parse_chars_length (s str r : JsString) :
  parse_chars s = Some (str, r) -> List.length r < List.length s.
Proof.
  remember (List.length s) as n eqn:Hn.
  assert (List.length s <= n) as Hle by lia. clear Hn.
  revert s str r Hle. induction n as [|n IH]; intros s str r Hle.
  - destruct s; [discriminate | simpl in Hle; lia].
  - destruct s as [|c s]; [discriminate|].
    cbn [parse_chars]. simpl in Hle.
    destruct (N.eqb c 34).
    { intros H; inversion H; subst. simpl. lia. }
    destruct (N.eqb c 92).
    { destruct s as [|e r1]; [discriminate|].
      destruct (N.eqb e 117).
      - destruct r1 as [|h1 [|h2 [|h3 [|h4 r2]]]]; try discriminate.
        destruct (hexval h1), (hexval h2), (hexval h3), (hexval h4);
          try discriminate.
        intros H. apply cons_fst_some in H. destruct H as [l' [H _]].
        apply IH in H; simpl in *; lia.
      - destruct (unescape e); [|discriminate].
        intros H. apply cons_fst_some in H. destruct H as [l' [H _]].
        apply IH in H; simpl in *; lia. }
    destruct (N.ltb c 32); [discriminate|].
    intros H. apply cons_fst_some in H. destruct H as [l' [H _]].
    apply IH in H; simpl in *; lia.
Qed.

Lemma take_digits_length (s ds r : JsString) :
  take_digits s = (ds, r) -> List.length r <= List.length s.
Proof.
  revert ds r; induction s as [|c s IH]; intros ds r; simpl.
  - intros H; inversion H; simpl; lia.
  - destruct (isDigit c).
    + destruct (take_digits s) as [ds' r'] eqn:E.
      intros H; inversion H; subst. specialize (IH _ _ eq_refl). lia.
    + intros H; inversion H; subst. simpl. lia.
Qed.

Lemma strip_prefix_length (p s r : JsString) :
  strip_prefix p s = Some r -> List.length r + List.length p = List.length s.
Proof.
  revert s; induction p as [|x p IH]; intros [|y s]; simpl; try discriminate.
  - intros H; inversion H; simpl; lia.
  - intros H; inversion H; simpl; lia.
  - destruct (N.eqb x y); [|discriminate]. intros H. apply IH in H. lia.
Qed.

Lemma parse_number_length (s r : JsString) (n : JsNumber) :
  parse_number s = Some (n, r) -> List.length r < List.length s.
Proof.
  unfold parse_number.
  destruct (number_sign s) as [sg s1] eqn:E0.
  assert (List.length s1 <= List.length s) as H0.
  { revert E0. unfold number_sign. destruct s as [|c s']; simpl.
    - intros H; inversion H; simpl; lia.
    - destruct (N.eqb c 45); intros H; inversion H; simpl; lia. }
  destruct (number_int s1) as [[ip s2]|] eqn:E1; [|discriminate].
  assert (List.length s2 < List.length s1) as H1.
  { revert E1. unfold number_int. destruct s1 as [|c s1']; [discriminate|].
    destruct (N.eqb c 48); [intros H; inversion H; simpl; lia|].
    destruct (isDigit c) eqn:Ed; [|discriminate].
    cbn [take_digits]. rewrite Ed.
    destruct (take_digits s1') as [ds r'] eqn:Et.
    apply take_digits_length in Et.
    intros H; inversion H; subst; simpl; lia. }
  destruct (number_frac s2) as [[fp s3]|] eqn:E2; [|discriminate].
  assert (List.length s3 <= List.length s2) as H2.
  { revert E2. unfold number_frac. destruct s2 as [|c s2'].
    - intros H; inversion H; simpl; lia.
    - destruct (N.eqb c 46); [|intros H; inversion H; simpl; lia].
      destruct (take_digits s2') as [[|f fs] r'] eqn:Et; [discriminate|].
      apply take_digits_length in Et.
      intros H; inversion H; subst; simpl; lia. }
  destruct (number_exp s3) as [[e s4]|] eqn:E3; [|discriminate].
  assert (List.length s4 <= List.length s3) as H3.
  { revert E3. unfold number_exp. destruct s3 as [|c s3'].
    - intros H; inversion H; simpl; lia.
    - destruct (N.eqb c 101 || N.eqb c 69);
        [|intros H; inversion H; simpl; lia].
      destruct (match s3' with
                | [] => (false, s3')
                | c1 :: r' =>
                    if N.eqb c1 45 then (true, r')
                    else if N.eqb c1 43 then (false, r') else (false, s3')
                end) as [esg r1] eqn:Es.
      assert (List.length r1 <= List.length s3') as Hr.
      { revert Es. destruct s3' as [|c1 r'].
        - intros H; inversion H; simpl; lia.
        - destruct (N.eqb c1 45); [intros H; inversion H; simpl; lia|].
          destruct (N.eqb c1 43); intros H; inversion H; simpl; lia. }
      destruct (take_digits r1) as [[|d ds] r2] eqn:Et; [discriminate|].
      apply take_digits_length in Et.
      intros H; inversion H; subst; simpl; lia. }
  intros H; inversion H; subst. lia.
Qed.

Lemma with_value_some (v w : JsValue) (x : option JsString) (r : JsString) :
  with_value v x = Some (w, r) -> x = Some r.
Proof. destruct x; simpl; intros H; inversion H; reflexivity. Qed.

Lemma parse_elements_length
      (pv : JsString -> option (JsValue * JsString)) :
  consuming pv ->
  forall fuel s vs r,
    parse_elements pv fuel s = Some (vs, r) -> List.length r < List.length s.
Proof.
  intros Hpv. induction fuel as [|f IH]; intros s vs r; [discriminate|].
  cbn [parse_elements].
  destruct (pv s) as [[v r0]|] eqn:E; [|discriminate].
  apply Hpv in E.
  pose proof (skip_ws_length r0) as Hw.
  destruct (skip_ws r0) as [|c r1]; [discriminate|]. simpl in Hw.
  destruct (N.eqb c 44).
  - intros H. apply cons_fst_some in H. destruct H as [l' [H _]].
    apply IH in H. lia.
  - destruct (N.eqb c 93); [|discriminate].
    intros H; inversion H; subst. lia.
Qed.

Lemma parse_members_length
      (pv : JsString -> option (JsValue * JsString)) :
  consuming pv ->
  forall fuel s ms r,
    parse_members pv fuel s = Some (ms, r) -> List.length r < List.length s.
Proof.
  intros Hpv. induction fuel as [|f IH]; intros s ms r; [discriminate|].
  cbn [parse_members].
  pose proof (skip_ws_length s) as Hw0.
  destruct (skip_ws s) as [|q r0]; [discriminate|]. simpl in Hw0.
  destruct (N.eqb q 34); [|discriminate].
  destruct (parse_chars r0) as [[k r1]|] eqn:Ek; [|discriminate].
  apply parse_chars_length in Ek.
  pose proof (skip_ws_length r1) as Hw1.
  destruct (skip_ws r1) as [|col r2]; [discriminate|]. simpl in Hw1.
  destruct (N.eqb col 58); [|discriminate].
  destruct (pv r2) as [[v r3]|] eqn:Ev; [|discriminate].
  apply Hpv in Ev.
  pose proof (skip_ws_length r3) as Hw3.
  destruct (skip_ws r3) as [|c r4]; [discriminate|]. simpl in Hw3.
  destruct (N.eqb c 44).
  - intros H. apply cons_fst_some in H. destruct H as [l' [H _]].
    apply IH in H. lia.
  - destruct (N.eqb c 125); [|discriminate].
    intros H; inversion H; subst. lia.
Qed.

Lemma parse_value_consuming (fuel : nat) : consuming (parse_value fuel).
Proof.
  induction fuel as [|f IH]; intros s v r; [discriminate|].
  cbn [parse_value].
  pose proof (skip_ws_length s) as Hw.
  destruct (skip_ws s) as [|c r0]; [discriminate|]. simpl in Hw.
  destruct (N.eqb c 34).
  { destruct (parse_chars r0) as [[str r']|] eqn:E; [|discriminate].
    apply parse_chars_length in E. intros H; inversion H; subst. lia. }
  destruct (N.eqb c 91).
  { pose proof (skip_ws_length r0) as Hw1.
    destruct (skip_ws r0) as [|c1 r1]; [discriminate|]. simpl in Hw1.
    destruct (N.eqb c1 93); [intros H; inversion H; subst; lia|].
    destruct (parse_elements (parse_value f) f r0) as [[vs r']|] eqn:E;
      [|discriminate].
    apply (@parse_elements_length (parse_value f) IH) in E.
    intros H; inversion H; subst. lia. }
  destruct (N.eqb c 123).
  { pose proof (skip_ws_length r0) as Hw1.
    destruct (skip_ws r0) as [|c1 r1]; [discriminate|]. simpl in Hw1.
    destruct (N.eqb c1 125); [intros H; inversion H; subst; lia|].
    destruct (parse_members (parse_value f) f r0) as [[ms r']|] eqn:E;
      [|discriminate].
    apply (@parse_members_length (parse_value f) IH) in E.
    intros H; inversion H; subst. lia. }
  destruct (N.eqb c 116).
  { intros H. apply with_value_some in H.
    apply strip_prefix_length in H. simpl in H. lia. }
  destruct (N.eqb c 102).
  { intros H. apply with_value_some in H.
    apply strip_prefix_length in H. simpl in H. lia. }
  destruct (N.eqb c 110).
  { intros H. apply with_value_some in H.
    apply strip_prefix_length in H. simpl in H. lia. }
  destruct (parse_number (c :: r0)) as [[n r']|] eqn:E; [|discriminate].
  apply parse_number_length in E. simpl in E.
  intros H; inversion H; subst. lia.
Qed.

Lemma parse_elements_stable (m : nat)
      (pv pv' : JsString -> option (JsValue * JsString)) :
  consuming pv -> agree_below m pv pv' ->
  forall k k' s,
    List.length s < m -> List.length s < k -> List.length s < k' ->
    parse_elements pv k s = parse_elements pv' k' s.
Proof.
  intros Hc Ha. induction k as [|k IH]; intros k' s Hm Hk Hk'; [lia|].
  destruct k' as [|k']; [lia|]. cbn [parse_elements].
  rewrite <- (Ha s Hm).
  destruct (pv s) as [[v r0]|] eqn:E; [|reflexivity].
  apply Hc in E.
  pose proof (skip_ws_length r0) as Hw.
  destruct (skip_ws r0) as [|c r1]; [reflexivity|]. simpl in Hw.
  destruct (N.eqb c 44); [|reflexivity].
  rewrite (IH k' r1); [reflexivity | lia | lia | lia].
Qed.

Lemma parse_members_stable (m : nat)
      (pv pv' : JsString -> option (JsValue * JsString)) :
  consuming pv -> agree_below m pv pv' ->
  forall k k' s,
    List.length s < m -> List.length s < k -> List.length s < k' ->
    parse_members pv k s = parse_members pv' k' s.
Proof.
  intros Hc Ha. induction k as [|k IH]; intros k' s Hm Hk Hk'; [lia|].
  destruct k' as [|k']; [lia|]. cbn [parse_members].
  pose proof (skip_ws_length s) as Hw0.
  destruct (skip_ws s) as [|q r0]; [reflexivity|]. simpl in Hw0.
  destruct (N.eqb q 34); [|reflexivity].
  destruct (parse_chars r0) as [[key r1]|] eqn:Ek; [|reflexivity].
  apply parse_chars_length in Ek.
  pose proof (skip_ws_length r1) as Hw1.
  destruct (skip_ws r1) as [|col r2]; [reflexivity|]. simpl in Hw1.
  destruct (N.eqb col 58); [|reflexivity].
  rewrite <- (Ha r2) by lia.
  destruct (pv r2) as [[v r3]|] eqn:Ev; [|reflexivity].
  apply Hc in Ev.
  pose proof (skip_ws_length r3) as Hw3.
  destruct (skip_ws r3) as [|c r4]; [reflexivity|]. simpl in Hw3.
  destruct (N.eqb c 44); [|reflexivity].
  rewrite (IH k' r4); [reflexivity | lia | lia | lia].
Qed.

(** More fuel than the text is long changes nothing. *)
Lemma parse_value_stable (f f' : nat) (s : JsString) :
  List.length s < f -> List.length s < f' ->
  parse_value f s = parse_value f' s.
Proof.
  revert f' s. induction f as [|f IH]; intros f' s Hf Hf'; [lia|].
  destruct f' as [|f']; [lia|]. cbn [parse_value].
  pose proof (skip_ws_length s) as Hw.
  destruct (skip_ws s) as [|c r0]; [reflexivity|]. simpl in Hw.
  assert (agree_below (List.length s) (parse_value f) (parse_value f'))
    as Ha.
  { intros x Hx. apply IH; lia. }
  destruct (N.eqb c 34); [reflexivity|].
  destruct (N.eqb c 91).
  { destruct (skip_ws r0) as [|c1 r1]; [reflexivity|].
    destruct (N.eqb c1 93); [reflexivity|].
    rewrite (@parse_elements_stable (List.length s) (parse_value f)
               (parse_value f') (parse_value_consuming f) Ha f f' r0);
      [reflexivity | lia | lia | lia]. }
  destruct (N.eqb c 123); [|reflexivity].
  destruct (skip_ws r0) as [|c1 r1]; [reflexivity|].
  destruct (N.eqb c1 125); [reflexivity|].
  rewrite (@parse_members_stable (List.length s) (parse_value f)
             (parse_value f') (parse_value_consuming f) Ha f f' r0);
    [reflexivity | lia | lia | lia].
Qed.

(** [JSON.parse] never fails for want of fuel: any fuel above the length
    of the text gives what [JSON_parse] computes. *)
Lemma JSON_parse_fuel (fuel : nat) (text : JsString) :
  List.length text < fuel ->
  parse_value fuel text = parse_value (S (List.length text)) text.
Proof.
  intros H. apply parse_value_stable; lia.
Qed.

(* --------------------------------------------------------------------- *)
(** ** Settling a solution *)
(* --------------------------------------------------------------------- *)

Lemma advances_refl (d : Solution.doc) : advances d d.
Proof. left; reflexivity. Qed.

Lemma advances_trans (a b c : Solution.doc) :
  advances a b -> advances b c -> advances a c.
Proof.
  unfold advances.
  intros [-> | [Ha Hb]] [-> | [Hb' Hc]]; auto.
Qed.


Lemma evolves_refl (c : Solution.collection) : evolves c c.
Proof. intros d Hd. exists d. auto using advances_refl. Qed.

Lemma evolves_trans (a b c : Solution.collection) :
  evolves a b -> evolves b c -> evolves a c.
Proof.
  intros Hab Hbc d Hd.
  destruct (Hab d Hd) as [d1 [H1 [E1 A1]]].
  destruct (Hbc d1 H1) as [d2 [H2 [E2 A2]]].
  exists d2. repeat split; auto; try congruence.
  eapply advances_trans; eauto.
Qed.

(** A settled collection holds the same identifiers, and only a document
    that was ['processing'] may have changed. *)
Lemma settles_ids (i : ObjectId) (c c' : Solution.collection) :
  settles i c c' -> map Solution._id c' = map Solution._id c.
Proof.
  intros [-> | [old [d [_ [_ [_ [_ ->]]]]]]]; auto using map_replace_ids.
Qed.

Lemma settles_evolves (i : ObjectId) (c c' : Solution.collection) :
  (forall d, In d c -> Solution._id d = i -> Solution.status d = processing) ->
  settles i c c' -> evolves c c'.
Proof.
  intros Hproc [-> | [old [d [Hfind [Hid [Hfin [_ ->]]]]]]];
    [apply evolves_refl|].
  intros x Hx.
  exists (Solution.replace d x). split; [apply in_map; exact Hx|].
  split; [apply replace_id|].
  unfold Solution.replace, ObjectId_eqb.
  destruct (N.eqb_spec (Solution._id x) (Solution._id d)) as [E|E].
  - right. split; [apply Hproc; congruence | exact Hfin].
  - apply advances_refl.
Qed.

Lemma settles_valid (i : ObjectId) (c c' : Solution.collection) :
  Forall (fun d => Solution.validate d = true) c ->
  settles i c c' ->
  Forall (fun d => Solution.validate d = true) c'.
Proof.
  intros Hv [-> | [old [d [_ [_ [_ [Hd ->]]]]]]]; auto.
  rewrite Forall_forall in *. intros x Hx.
  apply in_map_replace in Hx. destruct Hx as [-> | [Hx _]]; auto.
Qed.

Lemma settles_unchanged (i : ObjectId) (c c' : Solution.collection)
      (x : Solution.doc) :
  settles i c c' -> In x c' -> Solution._id x <> i -> In x c.
Proof.
  intros [-> | [old [d [_ [Hid [_ [_ ->]]]]]]] Hx Hne; auto.
  apply in_map_replace in Hx. destruct Hx as [-> | [Hx _]]; congruence.
Qed.

Lemma save_or_log_settles (d old : Solution.doc) (c : Solution.collection) :
  Solution.findById (Solution._id d) c = Some old ->
  Solution.status d = completed \/ Solution.status d = failed ->
  settles (Solution._id d) c (save_or_log d c).
Proof.
  intros Hfind Hfin. unfold save_or_log, Solution.update.
  destruct (Solution.validate d) eqn:Hv; [right | left; reflexivity].
  exists old, d. auto.
Qed.

Section CallbackFacts.

Variable Buffer_from_object : JsValue -> option Buffer.
Variable castString_other : JsValue -> option JsString.

Lemma onClose_settles (child : Child) (code : option Z)
      (out err : list JsString) (now : Z) (iso : JsString)
      (c : Solution.collection) :
  settles (child_solution child) c
          (onClose Buffer_from_object castString_other
                   child code out err now iso c).
Proof.
  unfold onClose.
  destruct (Solution.findById (child_solution child) c) as [solution|] eqn:Hfind;
    [|left; reflexivity].
  pose proof (findById_some _ _ Hfind) as [_ Hid].
  destruct (exit_ok code && Solution.nonempty (trim (concat_chunks out))).
  - unfold on_success.
    destruct (get_prop _ (lit "pdfBytes")); [|left; reflexivity].
    destruct (get_prop _ (lit "solutionText")); [|left; reflexivity].
    destruct (castString _ _); [|left; reflexivity].
    rewrite <- Hid at 1.
    eapply (save_or_log_settles (set_result solution _ _ completed _));
      simpl; [rewrite Hid; exact Hfind | auto].
  - rewrite <- Hid at 1.
    eapply (save_or_log_settles (set_result solution _ _ failed _));
      simpl; [rewrite Hid; exact Hfind | auto].
Qed.

Lemma onCaught_settles (k : Caught) (now : Z) (c : Solution.collection) :
  settles (caught_solution k) c (onCaught k now c).
Proof.
  unfold onCaught.
  destruct (Solution.findById (caught_solution k) c) as [solution|] eqn:Hfind;
    [|left; reflexivity].
  pose proof (findById_some _ _ Hfind) as [_ Hid].
  rewrite <- Hid at 1.
  eapply (save_or_log_settles (set_result solution _ _ failed _));
    simpl; [rewrite Hid; exact Hfind | auto].
Qed.

End CallbackFacts.

Lemma take_child_spec (i : ObjectId) (l r : list Child) (x : Child) :
  take_child i l = Some (x, r) ->
  child_solution x = i /\ exists l1 l2, l = l1 ++ x :: l2 /\ r = l1 ++ l2.
Proof.
  revert r; induction l as [|y l IH]; simpl; intros r; [discriminate|].
  unfold ObjectId_eqb.
  destruct (N.eqb_spec (child_solution y) i) as [E|E].
  - intros H; inversion H; subst. split; auto. exists [], r. auto.
  - destruct (take_child i l) as [[z r']|]; [|discriminate].
    intros H; inversion H; subst.
    destruct (IH r' eq_refl) as [Hz [l1 [l2 [-> ->]]]].
    split; auto. exists (y :: l1), l2. auto.
Qed.

Lemma take_caught_spec (i : ObjectId) (l r : list Caught) (x : Caught) :
  take_caught i l = Some (x, r) ->
  caught_solution x = i /\ exists l1 l2, l = l1 ++ x :: l2 /\ r = l1 ++ l2.
Proof.
  revert r; induction l as [|y l IH]; simpl; intros r; [discriminate|].
  unfold ObjectId_eqb.
  destruct (N.eqb_spec (caught_solution y) i) as [E|E].
  - intros H; inversion H; subst. split; auto. exists [], r. auto.
  - destruct (take_caught i l) as [[z r']|]; [|discriminate].
    intros H; inversion H; subst.
    destruct (IH r' eq_refl) as [Hz [l1 [l2 [-> ->]]]].
    split; auto. exists (y :: l1), l2. auto.
Qed.

(** Removing one entry from a duplicate-free list of pending solutions. *)
Lemma pending_remove (i : ObjectId) (a b : list ObjectId) :
  NoDup (a ++ i :: b) ->
  NoDup (a ++ b) /\ ~ In i (a ++ b) /\ incl (a ++ b) (a ++ i :: b).
Proof.
  intros H. split; [eapply NoDup_remove_1; eauto|].
  split; [eapply NoDup_remove_2; eauto|].
  intros x Hx. apply in_app_or in Hx. apply in_or_app. simpl. tauto.
Qed.

(** A pending continuation that runs and is dropped keeps the invariant. *)
Lemma Inv_settle (st st' : State) (i : ObjectId) :
  Inv st ->
  settles i (store st) (store st') ->
  nextId st' = nextId st ->
  NoDup (pending st') -> ~ In i (pending st') ->
  incl (pending st') (pending st) ->
  Inv st'.
Proof.
  intros [Hids Hbelow Hvalid Hpend Hpbelow Hproc] Hs Hn Hnd Hni Hincl.
  pose proof (settles_ids Hs) as Hsame.
  constructor; auto.
  - rewrite Hsame; exact Hids.
  - rewrite Hsame, Hn; exact Hbelow.
  - eapply settles_valid; eauto.
  - rewrite Hn. rewrite Forall_forall in *. auto.
  - intros d Hd Hp.
    assert (Solution._id d <> i) as Hne by congruence.
    apply Hproc; auto. eapply settles_unchanged; eauto.
Qed.

Lemma post_solve_cases (env : Env) (t1 t2 : Z) (st : State) (user : User.t)
      (body : SolveBody) :
  fst (post_solve env t1 t2 st user body) = st
  \/ (Solution.validate (new_solution (nextId st) t1 user body) = true
      /\ fst (post_solve env t1 t2 st user body)
         = solveAssignmentAsync env t2 (nextId st)
             {| store := store st ++ [new_solution (nextId st) t1 user body];
                nextId := N.succ (nextId st);
                children := children st; caught := caught st |}).
Proof.
  unfold post_solve.
  destruct (_ || _); [left; reflexivity|].
  destruct (Solution.isAssignmentSolved _ _ _); [left; reflexivity|].
  destruct (negb (hasAccessToken user)); [left; reflexivity|].
  unfold Solution.insert.
  destruct (Solution.validate _) eqn:Hv; [right | left; reflexivity].
  split; reflexivity.
Qed.

Lemma present_text (field : option JsString) :
  present field = true ->
  field = Some (text_of field) /\ Solution.nonempty (text_of field) = true.
Proof.
  destruct field as [[|c s]|]; simpl; try discriminate. auto.
Qed.

Section JsonBody.

Variable castString_other : JsValue -> option JsString.
Variable isAssignmentSolved_other :
  ObjectId -> JsValue -> Solution.collection -> option (option Solution.doc).

Lemma cast_solution_fresh (oid : ObjectId) (now : Z) (user : User.t)
      (a t c n : JsValue) (fields : list (JsValue * JsValue * JsValue))
      (d : Solution.doc) :
  cast_solution castString_other oid now user a t c n fields = Some d ->
  Solution._id d = oid /\ Solution.userId d = User._id user
  /\ Solution.status d = processing
  /\ Solution.solutionText d = None /\ Solution.solutionPdf d = None
  /\ Solution.processingTime d = 0%Z /\ Solution.solvedAt d = now.
Proof.
  unfold cast_solution.
  destruct (castString castString_other a); [|discriminate].
  destruct (castString castString_other t); [|discriminate].
  destruct (castString castString_other c); [|discriminate].
  destruct (castString castString_other n); [|discriminate].
  destruct (cast_materials castString_other fields); [|discriminate].
  intros H; inversion H; subst. repeat split.
Qed.

(** Whatever the body, the handler leaves the state as it was or appends
    one validated document, ['processing'] and without a result, under
    the next identifier, and starts its solving. *)
Lemma post_solve_json_cases (env : Env) (t1 t2 : Z) (st : State)
      (user : User.t) (body : JsValue) :
  fst (post_solve_json castString_other isAssignmentSolved_other env t1 t2
      st user body) = st
  \/ exists d,
       Solution.validate d = true
       /\ Solution._id d = nextId st
       /\ Solution.userId d = User._id user
       /\ Solution.status d = processing
       /\ Solution.solutionText d = None /\ Solution.solutionPdf d = None
       /\ Solution.processingTime d = 0%Z
       /\ post_solve_json castString_other isAssignmentSolved_other env t1 t2
      st user body
          = (solveAssignmentAsync env t2 (nextId st)
               {| store := store st ++ [d];
                  nextId := N.succ (nextId st);
                  children := children st; caught := caught st |},
             Json 200 (BStarted (nextId st) processing)).
Proof.
  unfold post_solve_json.
  destruct (get_prop body (lit "assignmentId")) as [a|]; [|left; reflexivity].
  destruct (get_prop body (lit "assignmentTitle")) as [t|];
    [|left; reflexivity].
  destruct (get_prop body (lit "courseId")) as [c|]; [|left; reflexivity].
  destruct (get_prop body (lit "courseName")) as [n|]; [|left; reflexivity].
  destruct (get_prop body (lit "materials")) as [m|]; [|left; reflexivity].
  destruct (_ || _); [left; reflexivity|].
  destruct (isAssignmentSolved_cast _ _ _ _) as [[x|]|];
    [left; reflexivity | | left; reflexivity].
  destruct (negb (hasAccessToken user)); [left; reflexivity|].
  destruct (materials_fields m) as [fields|]; [|left; reflexivity].
  destruct (cast_solution _ _ _ _ _ _ _ _ _) as [d|] eqn:Hd;
    [|left; reflexivity].
  unfold Solution.insert.
  destruct (Solution.validate d) eqn:Hv; [right | left; reflexivity].
  destruct (cast_solution_fresh _ _ _ _ _ _ _ _ Hd)
    as [Hid [Hu [Hs [Ht [Hp [Hti _]]]]]].
  exists d. rewrite Hid. repeat split; auto.
Qed.

Lemma truthy_field_json (field : option JsString) :
  truthy (field_json field) = present field.
Proof. destruct field as [[|c s]|]; reflexivity. Qed.

Lemma material_fields_json (m : Material) :
  material_fields (material_json m)
  = Some match drive_meta m with
         | Some f => (field_json (id f), field_json (title f),
                      field_json (alternateLink f))
         | None => (JUndefined, JUndefined, JUndefined)
         end.
Proof.
  unfold material_json, drive_meta.
  destruct (driveFile m) as [shared|]; [|reflexivity].
  destruct (driveFile_inner shared) as [f|]; reflexivity.
Qed.

Lemma cast_optional_field (field : option JsString) :
  cast_optional castString_other (field_json field) = Some field.
Proof. destruct field; reflexivity. Qed.

Lemma cast_materials_json (ms : list Material) :
  match map_material_fields (map material_json ms) with
  | Some fields => cast_materials castString_other fields
  | None => None
  end = Some (map material_info ms).
Proof.
  induction ms as [|m ms IH]; [reflexivity|].
  cbn [map map_material_fields]. rewrite material_fields_json.
  destruct (map_material_fields (map material_json ms)) as [fields|];
    [|discriminate].
  cbn [cast_materials]. rewrite IH.
  unfold cast_material, material_info.
  destruct (drive_meta m) as [f|].
  - rewrite !cast_optional_field. reflexivity.
  - reflexivity.
Qed.

(** On a body of the dashboard's shape the handler is [post_solve]. *)
Lemma post_solve_json_body (env : Env) (t1 t2 : Z) (st : State)
      (user : User.t) (body : SolveBody) :
  post_solve_json castString_other isAssignmentSolved_other env t1 t2
      st user (body_json body)
  = post_solve env t1 t2 st user body.
Proof.
  unfold post_solve_json, post_solve.
  change (get_prop (body_json body) (lit "assignmentId"))
    with (Some (field_json (assignmentId body))).
  change (get_prop (body_json body) (lit "assignmentTitle"))
    with (Some (field_json (assignmentTitle body))).
  change (get_prop (body_json body) (lit "courseId"))
    with (Some (field_json (courseId body))).
  change (get_prop (body_json body) (lit "courseName"))
    with (Some (field_json (courseName body))).
  change (get_prop (body_json body) (lit "materials"))
    with (Some match materials body with
               | Some ms => JArr (map material_json ms)
               | None => JUndefined
               end).
  cbv beta iota.
  destruct body as [fa ft fc fn fm].
  cbn [assignmentId assignmentTitle courseId courseName materials].
  destruct fa as [[|c1 a]|], ft as [[|c2 t]|], fc as [[|c3 c]|],
    fn as [[|c4 n]|]; try reflexivity.
  cbn [field_json truthy negb orb present isAssignmentSolved_cast text_of].
  destruct (Solution.isAssignmentSolved _ _ _); [reflexivity|].
  destruct (negb (hasAccessToken user)); [reflexivity|].
  assert (match materials_fields
                  match fm with
                  | Some ms => JArr (map material_json ms)
                  | None => JUndefined
                  end with
          | Some fields => cast_materials castString_other fields
          | None => None
          end
          = Some match fm with
                 | Some ms => map material_info ms
                 | None => []
                 end) as Hm.
  { destruct fm as [ms|]; [|reflexivity].
    apply cast_materials_json. }
  destruct (materials_fields _) as [fields|]; [|discriminate].
  unfold cast_solution. cbn [castString]. rewrite Hm.
  reflexivity.
Qed.

End JsonBody.

(** The state after a solution was inserted and its solving started. *)
Lemma Inv_insert (env : Env) (t : Z) (st : State) (d : Solution.doc) :
  Inv st ->
  Solution._id d = nextId st ->
  Solution.status d = processing ->
  Solution.validate d = true ->
  Inv (solveAssignmentAsync env t (nextId st)
         {| store := store st ++ [d]; nextId := N.succ (nextId st);
            children := children st; caught := caught st |}).
Proof.
  intros [Hids Hbelow Hvalid Hpend Hpbelow Hproc] Hid Hst Hv.
  assert (~ In (nextId st) (map Solution._id (store st))) as Hfresh.
  { intros Hin. rewrite Forall_forall in Hbelow.
    specialize (Hbelow _ Hin). lia. }
  assert (~ In (nextId st) (pending st)) as Hpfresh.
  { intros Hin. rewrite Forall_forall in Hpbelow.
    specialize (Hpbelow _ Hin). lia. }
  assert (forall l : list ObjectId,
             Forall (fun i => (i < nextId st)%N) l ->
             Forall (fun i => (i < N.succ (nextId st))%N) l) as Hmono.
  { intros l Hl. eapply Forall_impl; [|exact Hl]. simpl; intros; lia. }
  assert (exists p, pending (solveAssignmentAsync env t (nextId st)
            {| store := store st ++ [d]; nextId := N.succ (nextId st);
               children := children st; caught := caught st |}) = p
          /\ Permutation (nextId st :: pending st) p) as [p [Hp Hperm]].
  { eexists; split; [reflexivity|].
    unfold solveAssignmentAsync, pending.
    destruct (present (GEMINI_API_KEY env)); simpl; rewrite map_app; simpl.
    - rewrite <- app_assoc. simpl. apply Permutation_middle.
    - rewrite app_assoc. apply Permutation_cons_append. }
  assert (store (solveAssignmentAsync env t (nextId st)
            {| store := store st ++ [d]; nextId := N.succ (nextId st);
               children := children st; caught := caught st |})
          = store st ++ [d]) as Hstore.
  { unfold solveAssignmentAsync. destruct (present _); reflexivity. }
  assert (nextId (solveAssignmentAsync env t (nextId st)
            {| store := store st ++ [d]; nextId := N.succ (nextId st);
               children := children st; caught := caught st |})
          = N.succ (nextId st)) as Hnext.
  { unfold solveAssignmentAsync. destruct (present _); reflexivity. }
  constructor; rewrite ?Hstore, ?Hnext, ?Hp.
  - rewrite map_app. simpl. rewrite Hid.
    eapply Permutation_NoDup; [apply Permutation_cons_append|].
    constructor; auto.
  - rewrite map_app. apply Forall_app. split; [auto|].
    constructor; [rewrite Hid; lia | constructor].
  - apply Forall_app. split; auto.
  - eapply Permutation_NoDup; [exact Hperm|]. constructor; auto.
  - eapply Permutation_Forall; [exact Hperm|].
    constructor; [lia | auto].
  - intros x Hx Hin. apply in_app_or in Hx. destruct Hx as [Hx | [<- | []]]; auto.
    apply Hproc; auto.
    apply (Permutation_in _ (Permutation_sym Hperm)) in Hin.
    destruct Hin as [E | Hin]; auto.
    exfalso. apply Hfresh. rewrite E. apply in_map. exact Hx.
Qed.

(* ===================================================================== *)
(** * The life of a Solution *)
(* ===================================================================== *)

Lemma Inv_init : Inv init.
Proof.
  constructor; simpl; try constructor. intros d [].
Qed.

Section Lifecycle.

Variable Buffer_from_object : JsValue -> option Buffer.
Variable castString_other : JsValue -> option JsString.
Variable isAssignmentSolved_other :
  ObjectId -> JsValue -> Solution.collection -> option (option Solution.doc).
Variable env : Env.

Abbreviation step := (step Buffer_from_object castString_other isAssignmentSolved_other env).
Abbreviation run := (run Buffer_from_object castString_other isAssignmentSolved_other env).

Lemma step_inv (st st' : State) (e : Event) :
  Inv st -> step st e = Some st' -> Inv st'.
Proof.
  intros HI. destruct e as [t1 t2 user body | u sid | u sid | u lim
                              | i code out err now iso | i now | i];
    unfold step; simpl.
  - intros H; inversion H; subst; clear H.
    destruct (post_solve_json_cases castString_other
                isAssignmentSolved_other env t1 t2 st user body)
      as [-> | [d [Hv [Hid [_ [Hs [_ [_ [_ ->]]]]]]]]]; auto.
    apply Inv_insert; auto.
  - intros H; inversion H; subst; exact HI.
  - intros H; inversion H; subst; exact HI.
  - intros H; inversion H; subst; exact HI.
  - destruct (take_child i (children st)) as [[child rest]|] eqn:Ht;
      [|discriminate].
    intros H; inversion H; subst; clear H.
    apply take_child_spec in Ht. destruct Ht as [Hc [l1 [l2 [Hl ->]]]].
    pose proof (inv_pending HI) as Hnd. unfold pending in Hnd.
    rewrite Hl, map_app in Hnd. simpl in Hnd. rewrite Hc in Hnd.
    rewrite <- app_assoc in Hnd. simpl in Hnd.
    apply pending_remove in Hnd. destruct Hnd as [H1 [H2 H3]].
    apply Inv_settle with (st := st) (i := i); simpl; auto.
    + rewrite <- Hc. apply onClose_settles.
    + unfold pending; simpl. rewrite map_app, <- app_assoc. exact H1.
    + unfold pending; simpl. rewrite map_app, <- app_assoc. exact H2.
    + unfold pending; simpl. rewrite Hl, !map_app, <- !app_assoc. simpl.
      rewrite Hc. exact H3.
  - destruct (take_caught i (caught st)) as [[k rest]|] eqn:Ht;
      [|discriminate].
    intros H; inversion H; subst; clear H.
    apply take_caught_spec in Ht. destruct Ht as [Hc [l1 [l2 [Hl ->]]]].
    pose proof (inv_pending HI) as Hnd. unfold pending in Hnd.
    rewrite Hl, map_app in Hnd. simpl in Hnd. rewrite Hc in Hnd.
    rewrite app_assoc in Hnd.
    apply pending_remove in Hnd. destruct Hnd as [H1 [H2 H3]].
    apply Inv_settle with (st := st) (i := i); simpl; auto.
    + rewrite <- Hc. apply onCaught_settles.
    + unfold pending; simpl. rewrite map_app, app_assoc. exact H1.
    + unfold pending; simpl. rewrite map_app, app_assoc. exact H2.
    + unfold pending; simpl. rewrite Hl, !map_app. simpl.
      rewrite Hc, !app_assoc. exact H3.
  - destruct (take_child i (children st)) as [[child rest]|];
      [|discriminate].
    intros H; inversion H; subst; clear H.
    destruct HI as [Hids Hbelow Hvalid _ _ _].
    constructor; simpl; auto; try constructor.
    intros d _ [].
Qed.

(** The solution a continuation is about to write is ['processing']. *)
Lemma pending_processing (st : State) (i : ObjectId) :
  Inv st -> In i (pending st) ->
  forall d, In d (store st) -> Solution._id d = i ->
            Solution.status d = processing.
Proof.
  intros HI Hin d Hd <-. apply (inv_processing HI); auto.
Qed.

Lemma step_evolves (st st' : State) (e : Event) :
  Inv st -> step st e = Some st' -> evolves (store st) (store st').
Proof.
  intros HI. destruct e as [t1 t2 user body | u sid | u sid | u lim
                              | i code out err now iso | i now | i];
    unfold step; simpl.
  - intros H; inversion H; subst; clear H.
    destruct (post_solve_json_cases castString_other
                isAssignmentSolved_other env t1 t2 st user body)
      as [-> | [d0 [_ [_ [_ [_ [_ [_ [_ ->]]]]]]]]];
      [apply evolves_refl|].
    intros d Hd. exists d. split; [|auto using advances_refl].
    cbn [fst]. unfold solveAssignmentAsync. destruct (present _); simpl;
      apply in_or_app; auto.
  - intros H; inversion H; subst; apply evolves_refl.
  - intros H; inversion H; subst; apply evolves_refl.
  - intros H; inversion H; subst; apply evolves_refl.
  - destruct (take_child i (children st)) as [[child rest]|] eqn:Ht;
      [|discriminate].
    intros H; inversion H; subst; clear H. simpl.
    apply take_child_spec in Ht. destruct Ht as [Hc [l1 [l2 [Hl _]]]].
    apply settles_evolves with (i := i);
      [|rewrite <- Hc; apply onClose_settles].
    apply pending_processing; auto.
    unfold pending. rewrite Hl, map_app. simpl. rewrite Hc.
    apply in_or_app; left. apply in_or_app; right. left; reflexivity.
  - destruct (take_caught i (caught st)) as [[k rest]|] eqn:Ht;
      [|discriminate].
    intros H; inversion H; subst; clear H. simpl.
    apply take_caught_spec in Ht. destruct Ht as [Hc [l1 [l2 [Hl _]]]].
    apply settles_evolves with (i := i);
      [|rewrite <- Hc; apply onCaught_settles].
    apply pending_processing; auto.
    unfold pending. rewrite Hl, map_app. simpl. rewrite Hc.
    apply in_or_app; right. apply in_or_app; right. left; reflexivity.
  - destruct (take_child i (children st)) as [[child rest]|];
      [|discriminate].
    intros H; inversion H; subst; clear H. apply evolves_refl.
Qed.

(** A document that appears in a step is the one [POST /solve] built. *)
Lemma step_created (st st' : State) (e : Event) :
  step st e = Some st' ->
  forall d, In d (store st') ->
            ~ In (Solution._id d) (map Solution._id (store st)) ->
            Solution.status d = processing.
Proof.
  destruct e as [t1 t2 user body | u sid | u sid | u lim
                              | i code out err now iso | i now | i];
    unfold step; simpl.
  - intros H; inversion H; subst; clear H.
    destruct (post_solve_json_cases castString_other
                isAssignmentSolved_other env t1 t2 st user body)
      as [-> | [d0 [_ [_ [_ [Hs0 [_ [_ [_ ->]]]]]]]]].
    + intros d Hd Hn. exfalso. apply Hn. apply in_map. exact Hd.
    + intros d Hd Hn.
      assert (In d (store st ++ [d0])) as Hd'.
      { revert Hd. cbn [fst]. unfold solveAssignmentAsync.
        destruct (present _); simpl; auto. }
      apply in_app_or in Hd'. destruct Hd' as [Hd' | [<- | []]]; auto.
      exfalso. apply Hn. apply in_map. exact Hd'.
  - intros H; inversion H; subst.
    intros d Hd Hn. exfalso. apply Hn. apply in_map. exact Hd.
  - intros H; inversion H; subst.
    intros d Hd Hn. exfalso. apply Hn. apply in_map. exact Hd.
  - intros H; inversion H; subst.
    intros d Hd Hn. exfalso. apply Hn. apply in_map. exact Hd.
  - destruct (take_child i (children st)) as [[child rest]|]; [|discriminate].
    intros H; inversion H; subst; clear H. simpl.
    intros d Hd Hn. exfalso. apply Hn.
    rewrite <- (settles_ids (onClose_settles Buffer_from_object
                               castString_other child code out err now iso
                               (store st))).
    apply in_map. exact Hd.
  - destruct (take_caught i (caught st)) as [[k rest]|]; [|discriminate].
    intros H; inversion H; subst; clear H. simpl.
    intros d Hd Hn. exfalso. apply Hn.
    rewrite <- (settles_ids (onCaught_settles k now (store st))).
    apply in_map. exact Hd.
  - destruct (take_child i (children st)) as [[child rest]|]; [|discriminate].
    intros H; inversion H; subst; clear H. simpl.
    intros d Hd Hn. exfalso. apply Hn. apply in_map. exact Hd.
Qed.

Lemma run_inv (events : list Event) (st st' : State) :
  Inv st -> run st events = Some st' -> Inv st'.
Proof.
  revert st; induction events as [|e events IH]; simpl; intros st HI.
  - intros H; inversion H; subst; auto.
  - unfold run; simpl. fold (step st e).
    destruct (step st e) as [st1|] eqn:Hs; [|discriminate].
    apply IH. eapply step_inv; eauto.
Qed.

Lemma run_evolves (events : list Event) (st st' : State) :
  Inv st -> run st events = Some st' -> evolves (store st) (store st').
Proof.
  revert st; induction events as [|e events IH]; simpl; intros st HI.
  - intros H; inversion H; subst. apply evolves_refl.
  - unfold run; simpl. fold (step st e).
    destruct (step st e) as [st1|] eqn:Hs; [|discriminate].
    intros Hr. eapply evolves_trans; [eapply step_evolves; eauto|].
    apply IH; auto. eapply step_inv; eauto.
Qed.

(** C1.  In every state the server reaches, identifiers are unique and
    every status is one of ['processing'], ['completed'], ['failed']; a
    document that a step adds has status ['processing']; and whatever
    happens afterwards, each document is still there and is either
    exactly the document it was or was ['processing'] and has become
    ['completed'] or ['failed'] -- so a document is updated at most once,
    its status never goes back to ['processing'] and never from one final
    value to the other. *)
Theorem status_lifecycle (events : list Event) (st : State) :
  run init events = Some st ->
  NoDup (map Solution._id (store st))
  /\ Forall (fun d => In (Solution.status d) Solution.status_enum) (store st)
  /\ (forall e st', step st e = Some st' ->
        forall d, In d (store st') ->
                  ~ In (Solution._id d) (map Solution._id (store st)) ->
                  Solution.status d = processing)
  /\ (forall later st', run st later = Some st' ->
        forall d, In d (store st) ->
        exists d', In d' (store st')
                   /\ Solution._id d' = Solution._id d
                   /\ advances d d').
Proof.
  intros Hrun.
  pose proof (run_inv events Inv_init Hrun) as HI.
  split; [apply (inv_ids HI)|].
  split.
  { eapply Forall_impl; [|apply (inv_valid HI)].
    intros d. apply validate_status. }
  split.
  { intros e st' Hs. eapply step_created; eauto. }
  intros later st' Hl. apply (run_evolves later HI Hl).
Qed.

End Lifecycle.

Lemma status_lifecycle_witness :
  exists st,
    run rejects_buffer rejects_cast rejects_query configured init
        [PostSolve 1000 1001 alice (body_json homework)] = Some st
    /\ NoDup (map Solution._id (store st))
    /\ Forall (fun d => In (Solution.status d) Solution.status_enum) (store st)
    /\ (forall e st',
          step rejects_buffer rejects_cast rejects_query configured st e = Some st' ->
          forall d, In d (store st') ->
                    ~ In (Solution._id d) (map Solution._id (store st)) ->
                    Solution.status d = processing)
    /\ (forall later st',
          run rejects_buffer rejects_cast rejects_query configured st later = Some st' ->
          forall d, In d (store st) ->
          exists d', In d' (store st')
                     /\ Solution._id d' = Solution._id d
                     /\ advances d d').
Proof.
  eexists. split; [reflexivity|].
  apply (status_lifecycle rejects_buffer rejects_cast rejects_query configured
           [PostSolve 1000 1001 alice (body_json homework)]).
  reflexivity.
Defined.

(* ===================================================================== *)
(** * POST /solve *)
(* ===================================================================== *)

Lemma new_solution_valid (oid : ObjectId) (now : Z) (user : User.t)
      (body : SolveBody) :
  present (assignmentId body) = true ->
  present (assignmentTitle body) = true ->
  present (courseId body) = true ->
  present (courseName body) = true ->
  Solution.validate (new_solution oid now user body) = true.
Proof.
  intros H1 H2 H3 H4. unfold Solution.validate; simpl.
  apply present_text in H1, H2, H3, H4.
  destruct H1 as [_ ->], H2 as [_ ->], H3 as [_ ->], H4 as [_ ->].
  reflexivity.
Qed.

(** A request that passes the three guards is stored and its solving
    started. *)
Lemma post_solve_accepted (env : Env) (t1 t2 : Z) (st : State)
      (user : User.t) (body : SolveBody) :
  present (assignmentId body) = true ->
  present (assignmentTitle body) = true ->
  present (courseId body) = true ->
  present (courseName body) = true ->
  hasAccessToken user = true ->
  Solution.isAssignmentSolved (User._id user) (text_of (assignmentId body))
                              (store st) = None ->
  post_solve env t1 t2 st user body
  = (solveAssignmentAsync env t2 (nextId st)
       {| store := store st ++ [new_solution (nextId st) t1 user body];
          nextId := N.succ (nextId st);
          children := children st; caught := caught st |},
     Json 200 (BStarted (nextId st) processing)).
Proof.
  intros H1 H2 H3 H4 Ht Hs.
  unfold post_solve. rewrite H1, H2, H3, H4, Hs, Ht. simpl.
  unfold Solution.insert.
  rewrite (new_solution_valid (nextId st) t1 user body H1 H2 H3 H4).
  reflexivity.
Qed.

Lemma store_after_start (env : Env) (t : Z) (i : ObjectId) (st : State) :
  store (solveAssignmentAsync env t i st) = store st.
Proof.
  unfold solveAssignmentAsync.
  destruct (present (GEMINI_API_KEY env)); reflexivity.
Qed.

Lemma take_caught_last (i : ObjectId) (l : list Caught) (k : Caught) :
  ~ In i (map caught_solution l) -> caught_solution k = i ->
  take_caught i (l ++ [k]) = Some (k, l).
Proof.
  intros Hn Hk. induction l as [|x l IH]; simpl.
  - unfold ObjectId_eqb. rewrite Hk, N.eqb_refl. reflexivity.
  - simpl in Hn. unfold ObjectId_eqb.
    destruct (N.eqb_spec (caught_solution x) i) as [E|E]; [tauto|].
    rewrite IH by tauto. reflexivity.
Qed.

Lemma take_child_last (i : ObjectId) (l : list Child) (k : Child) :
  ~ In i (map child_solution l) -> child_solution k = i ->
  take_child i (l ++ [k]) = Some (k, l).
Proof.
  intros Hn Hk. induction l as [|x l IH]; simpl.
  - unfold ObjectId_eqb. rewrite Hk, N.eqb_refl. reflexivity.
  - simpl in Hn. unfold ObjectId_eqb.
    destruct (N.eqb_spec (child_solution x) i) as [E|E]; [tauto|].
    rewrite IH by tauto. reflexivity.
Qed.

Lemma pending_unused (st : State) :
  Inv st ->
  ~ In (nextId st) (map child_solution (children st))
  /\ ~ In (nextId st) (map caught_solution (caught st)).
Proof.
  intros HI. pose proof (inv_pending_below HI) as Hb.
  unfold pending in Hb. rewrite Forall_forall in Hb.
  split; intros Hin;
    (assert (nextId st < nextId st)%N as Hlt
        by (apply Hb; apply in_or_app; auto)); lia.
Qed.

Lemma body_fields_some (body a t c n m : JsValue) :
  body_fields body = Some (a, t, c, n, m) ->
  get_prop body (lit "assignmentId") = Some a
  /\ get_prop body (lit "assignmentTitle") = Some t
  /\ get_prop body (lit "courseId") = Some c
  /\ get_prop body (lit "courseName") = Some n
  /\ get_prop body (lit "materials") = Some m.
Proof.
  unfold body_fields.
  destruct (get_prop body (lit "assignmentId")); [|discriminate].
  destruct (get_prop body (lit "assignmentTitle")); [|discriminate].
  destruct (get_prop body (lit "courseId")); [|discriminate].
  destruct (get_prop body (lit "courseName")); [|discriminate].
  destruct (get_prop body (lit "materials")); [|discriminate].
  intros H; inversion H; subst. repeat split.
Qed.

Lemma throwing_entries (items : list JsValue) :
  In JNull items \/ In JUndefined items ->
  map_material_fields items = None.
Proof.
  induction items as [|m items IH]; cbn [In map_material_fields].
  - tauto.
  - intros [[-> | H] | [-> | H]]; try reflexivity;
      (destruct (material_fields m); [|reflexivity]);
      rewrite IH by tauto; reflexivity.
Qed.

Lemma throwing_materials_fields (m : JsValue) :
  throwing_materials m -> materials_fields m = None.
Proof.
  destruct m; cbn [throwing_materials materials_fields];
    try tauto; try reflexivity.
  apply throwing_entries.
Qed.

Lemma started_solution_valid (oid : ObjectId) (now : Z) (user : User.t)
      (a t c n : JsString) (ms : list Solution.MaterialInfo) :
  a <> [] -> t <> [] -> c <> [] -> n <> [] ->
  Solution.validate (started_solution oid now user a t c n ms) = true.
Proof.
  intros Ha Ht Hc Hn. unfold Solution.validate, started_solution.
  cbn [Solution.status Solution.assignmentId Solution.assignmentTitle
       Solution.courseId Solution.courseName].
  destruct a; [contradiction|]. destruct t; [contradiction|].
  destruct c; [contradiction|]. destruct n; [contradiction|].
  reflexivity.
Qed.

Section PostSolve.

Variable Buffer_from_object : JsValue -> option Buffer.
Variable castString_other : JsValue -> option JsString.
Variable isAssignmentSolved_other :
  ObjectId -> JsValue -> Solution.collection -> option (option Solution.doc).
Variable env : Env.

Lemma plain_field_cast (v : JsValue) (f : option JsString) :
  plain_field v = Some f -> cast_optional castString_other v = Some f.
Proof.
  destruct v; cbn [plain_field cast_optional castString];
    try discriminate; auto.
Qed.

Lemma plain_entries_cast (items : list JsValue)
      (ms : list Solution.MaterialInfo) :
  plain_entries items = Some ms ->
  exists fields,
    map_material_fields items = Some fields
    /\ cast_materials castString_other fields = Some ms.
Proof.
  revert ms. induction items as [|m items IH]; intros ms;
    cbn [plain_entries map_material_fields].
  - intros H; inversion H; subst. exists []. auto.
  - unfold plain_material.
    destruct (material_fields m) as [[[i n] u]|]; [|discriminate].
    destruct (plain_field i) as [fi|] eqn:Hi; [|discriminate].
    destruct (plain_field n) as [fn|] eqn:Hn; [|discriminate].
    destruct (plain_field u) as [fu|] eqn:Hu; [|discriminate].
    destruct (plain_entries items) as [xs|]; [|discriminate].
    intros H; inversion H; subst.
    destruct (IH xs eq_refl) as [fields [-> Hc]].
    eexists. split; [reflexivity|].
    cbn [cast_materials cast_material].
    rewrite (plain_field_cast _ Hi), (plain_field_cast _ Hn),
      (plain_field_cast _ Hu), Hc.
    reflexivity.
Qed.

Lemma plain_materials_cast (m : JsValue) (ms : list Solution.MaterialInfo) :
  plain_materials m = Some ms ->
  exists fields,
    materials_fields m = Some fields
    /\ cast_materials castString_other fields = Some ms.
Proof.
  destruct m; cbn [plain_materials materials_fields]; try discriminate.
  - intros H; inversion H; subst. exists []. auto.
  - intros H; inversion H; subst. exists []. auto.
  - apply plain_entries_cast.
Qed.

(** A request that passes the guards and whose values need no cast is
    stored and its solving started. *)
Lemma post_solve_json_accepted (t1 t2 : Z) (st : State) (user : User.t)
      (body : JsValue) (a t c n : JsString) (m : JsValue)
      (ms : list Solution.MaterialInfo) :
  body_fields body = Some (JStr a, JStr t, JStr c, JStr n, m) ->
  a <> [] -> t <> [] -> c <> [] -> n <> [] ->
  plain_materials m = Some ms ->
  hasAccessToken user = true ->
  Solution.isAssignmentSolved (User._id user) a (store st) = None ->
  post_solve_json castString_other isAssignmentSolved_other env t1 t2 st
                  user body
  = (solveAssignmentAsync env t2 (nextId st)
       {| store := store st
                   ++ [started_solution (nextId st) t1 user a t c n ms];
          nextId := N.succ (nextId st);
          children := children st; caught := caught st |},
     Json 200 (BStarted (nextId st) processing)).
Proof.
  intros Hb Ha Ht Hc Hn Hm Htok Hs.
  destruct (body_fields_some _ Hb) as [E1 [E2 [E3 [E4 E5]]]].
  destruct (plain_materials_cast _ Hm) as [fields [Hf Hcast]].
  pose proof (started_solution_valid (nextId st) t1 user ms Ha Ht Hc Hn)
    as Hv.
  unfold post_solve_json. rewrite E1, E2, E3, E4, E5.
  destruct a as [|a0 a]; [contradiction|].
  destruct t as [|t0 t]; [contradiction|].
  destruct c as [|c0 c]; [contradiction|].
  destruct n as [|n0 n]; [contradiction|].
  cbn [truthy negb orb isAssignmentSolved_cast].
  rewrite Hs, Htok. cbn [negb]. rewrite Hf.
  unfold cast_solution. cbn [castString]. rewrite Hcast.
  unfold Solution.insert.
  change (Solution.validate _)
    with (Solution.validate
            (started_solution (nextId st) t1 user (a0 :: a) (t0 :: t)
                              (c0 :: c) (n0 :: n) ms)).
  rewrite Hv. reflexivity.
Qed.

Lemma post_solve_json_missing (t1 t2 : Z) (st : State) (user : User.t)
      (body a t c n m : JsValue) :
  body_fields body = Some (a, t, c, n, m) ->
  truthy a && truthy t && truthy c && truthy n = false ->
  post_solve_json castString_other isAssignmentSolved_other env t1 t2 st
                  user body
  = (st, Json 400 (BError missing_fields)).
Proof.
  intros Hb Hm.
  destruct (body_fields_some _ Hb) as [E1 [E2 [E3 [E4 E5]]]].
  unfold post_solve_json. rewrite E1, E2, E3, E4, E5.
  destruct (truthy a), (truthy t), (truthy c), (truthy n);
    try discriminate; reflexivity.
Qed.

Lemma post_solve_json_throws (t1 t2 : Z) (st : State) (user : User.t)
      (body : JsValue) (a t c n : JsString) (m : JsValue) :
  body_fields body = Some (JStr a, JStr t, JStr c, JStr n, m) ->
  a <> [] -> t <> [] -> c <> [] -> n <> [] ->
  hasAccessToken user = true ->
  Solution.isAssignmentSolved (User._id user) a (store st) = None ->
  throwing_materials m ->
  post_solve_json castString_other isAssignmentSolved_other env t1 t2 st
                  user body
  = (st, Json 500 start_failed).
Proof.
  intros Hb Ha Ht Hc Hn Htok Hs Hm.
  destruct (body_fields_some _ Hb) as [E1 [E2 [E3 [E4 E5]]]].
  unfold post_solve_json. rewrite E1, E2, E3, E4, E5.
  destruct a as [|a0 a]; [contradiction|].
  destruct t as [|t0 t]; [contradiction|].
  destruct c as [|c0 c]; [contradiction|].
  destruct n as [|n0 n]; [contradiction|].
  cbn [truthy negb orb isAssignmentSolved_cast].
  rewrite Hs, Htok. cbn [negb].
  rewrite (throwing_materials_fields _ Hm). reflexivity.
Qed.

(** What is pending for a solution that was just started on a server
    with the API key: its process, which can close or fail to start. *)
Lemma started_child (st : State) (t2 : Z) (d : Solution.doc) :
  Inv st ->
  present (GEMINI_API_KEY env) = true ->
  let st' := solveAssignmentAsync env t2 (nextId st)
               {| store := store st ++ [d]; nextId := N.succ (nextId st);
                  children := children st; caught := caught st |} in
  children st'
  = children st ++ [{| child_solution := nextId st;
                       child_startTime := t2 |}]
  /\ (forall code out err now iso,
         step Buffer_from_object castString_other isAssignmentSolved_other
              env st' (ProcessClosed (nextId st) code out err now iso)
         <> None)
  /\ step Buffer_from_object castString_other isAssignmentSolved_other
          env st' (ProcessError (nextId st))
     = Some (ended st').
Proof.
  intros HI Hk st'. subst st'. unfold solveAssignmentAsync. rewrite Hk.
  destruct (pending_unused HI) as [Hch _].
  split; [reflexivity|]. cbn [step children].
  rewrite (@take_child_last (nextId st) (children st) _ Hch)
    by reflexivity.
  split; [intros; discriminate | reflexivity].
Qed.

(** C2, as the code has it.  In a state the server reaches, take a
    request whose four required fields are non-empty strings and whose
    [materials] is absent, [null] or an array of entries that are not
    [null] and whose Drive fields are absent, [null] or strings, from a
    user with an access token, for an assignment that is not already
    solved.  The handler stores a new document -- with a fresh
    identifier, status ['processing'] and the fields of the request --
    and answers 200 with that identifier and status ['processing'].  When
    the API key is configured and the token is one [spawn] accepts, the
    solver has by then been handed to [spawn] and the handler did not
    wait for it: in the state in which
    the answer is given its process is pending, its close event can
    still come, and so can its error event (the interpreter could not be
    started), which ends the server.  A request in which one of the four
    fields is missing or not truthy is answered 400 and leaves the state
    as it was.  A request that differs from the first only in that its
    [materials] is neither an array nor [null] nor absent, or is an array
    that holds [null], is answered 500 by the catch block and leaves the
    state as it was. *)
Theorem post_solve_starts (events : list Event) (st : State) (t1 t2 : Z)
        (user : User.t) (body : JsValue) :
  run Buffer_from_object castString_other isAssignmentSolved_other env
      init events = Some st ->
  let answer :=
    post_solve_json castString_other isAssignmentSolved_other env t1 t2 st
                    user body in
  (forall a t c n m ms,
      body_fields body = Some (JStr a, JStr t, JStr c, JStr n, m) ->
      a <> [] -> t <> [] -> c <> [] -> n <> [] ->
      plain_materials m = Some ms ->
      hasAccessToken user = true ->
      Solution.isAssignmentSolved (User._id user) a (store st) = None ->
      let d := started_solution (nextId st) t1 user a t c n ms in
      snd answer = Json 200 (BStarted (Solution._id d) processing)
      /\ store (fst answer) = store st ++ [d]
      /\ ~ In (Solution._id d) (map Solution._id (store st))
      /\ Solution.status d = processing
      /\ Solution.userId d = User._id user
      /\ (present (GEMINI_API_KEY env) = true ->
          spawn_accepts user = true ->
          children (fst answer)
          = children st ++ [{| child_solution := Solution._id d;
                               child_startTime := t2 |}]
          /\ (forall code out err now iso,
                 step Buffer_from_object castString_other
                      isAssignmentSolved_other env (fst answer)
                      (ProcessClosed (Solution._id d) code out err now iso)
                 <> None)
          /\ step Buffer_from_object castString_other
                  isAssignmentSolved_other env (fst answer)
                  (ProcessError (Solution._id d))
             = Some (ended (fst answer))))
  /\ (forall a t c n m,
         body_fields body = Some (a, t, c, n, m) ->
         truthy a && truthy t && truthy c && truthy n = false ->
         answer = (st, Json 400 (BError missing_fields)))
  /\ (forall a t c n m,
         body_fields body = Some (JStr a, JStr t, JStr c, JStr n, m) ->
         a <> [] -> t <> [] -> c <> [] -> n <> [] ->
         hasAccessToken user = true ->
         Solution.isAssignmentSolved (User._id user) a (store st) = None ->
         throwing_materials m ->
         answer = (st, Json 500 start_failed)).
Proof.
  intros Hrun answer. subst answer.
  pose proof (run_inv _ _ _ _ events Inv_init Hrun) as HI.
  split; [|split].
  - intros a t c n m ms Hb Ha Ht Hc Hn Hm Htok Hs d.
    rewrite (@post_solve_json_accepted t1 t2 st user body a t c n m ms
               Hb Ha Ht Hc Hn Hm Htok Hs).
    cbn [fst snd]. rewrite store_after_start. cbn [store].
    split; [reflexivity|]. split; [reflexivity|].
    split.
    { intros Hin. pose proof (inv_below HI) as Hbelow.
      rewrite Forall_forall in Hbelow. specialize (Hbelow _ Hin).
      cbn in Hbelow. lia. }
    split; [reflexivity|]. split; [reflexivity|].
    intros Hk _. exact (@started_child st t2 d HI Hk).
  - intros a t c n m Hb Hm.
    exact (@post_solve_json_missing t1 t2 st user body a t c n m Hb Hm).
  - intros a t c n m Hb Ha Ht Hc Hn Htok Hs Hm.
    exact (@post_solve_json_throws t1 t2 st user body a t c n m
             Hb Ha Ht Hc Hn Htok Hs Hm).
Qed.

End PostSolve.

Lemma post_solve_starts_witness :
  snd (post_solve_json rejects_cast rejects_query configured 1000 1001 init
                       alice (body_json homework))
  = Json 200 (BStarted 0%N processing)
  /\ post_solve_json rejects_cast rejects_query configured 1000 1001 init
                     alice (body_json untitled)
     = (init, Json 400 (BError missing_fields))
  /\ post_solve_json rejects_cast rejects_query configured 1000 1001 init
                     alice null_material
     = (init, Json 500 start_failed).
Proof.
  split; [|split].
  - apply (proj1 (post_solve_starts rejects_buffer rejects_cast
                    rejects_query configured [] 1000 1001 alice
                    (body_json homework) eq_refl)
             (lit "a1") (lit "Homework 1") (lit "c1") (lit "Algebra")
             JUndefined []);
      try reflexivity; discriminate.
  - apply (proj1 (proj2 (post_solve_starts rejects_buffer rejects_cast
                           rejects_query configured [] 1000 1001 alice
                           (body_json untitled) eq_refl))
             (JStr (lit "a1")) JUndefined (JStr (lit "c1"))
             (JStr (lit "Algebra")) JUndefined);
      reflexivity.
  - apply (proj2 (proj2 (post_solve_starts rejects_buffer rejects_cast
                           rejects_query configured [] 1000 1001 alice
                           null_material eq_refl))
             (lit "a1") (lit "Homework 1") (lit "c1") (lit "Algebra")
             (JArr [JNull]));
      try reflexivity; try discriminate.
    left. left. reflexivity.
Defined.

(** C2 as it is stated fails for a request whose [materials] is the
    string ['notes.pdf']: the four fields are present, the user has an
    access token and nothing is solved yet, but calling [materials.map]
    throws, the catch block answers 500, and no document is created. *)
Lemma post_solve_string_materials :
  body_fields string_materials
  = Some (JStr (lit "a1"), JStr (lit "Homework 1"), JStr (lit "c1"),
          JStr (lit "Algebra"), JStr (lit "notes.pdf"))
  /\ hasAccessToken alice = true
  /\ Solution.isAssignmentSolved (User._id alice) (lit "a1") (store init)
     = None
  /\ post_solve_json rejects_cast rejects_query configured 1000 1001 init
                     alice string_materials
     = (init, Json 500 start_failed)
  /\ snd (post_solve_json rejects_cast rejects_query configured 1000 1001
                          init alice string_materials)
     <> Json 200 (BStarted 0%N processing)
  /\ store (fst (post_solve_json rejects_cast rejects_query configured
                                 1000 1001 init alice string_materials))
     = [].
Proof.
  vm_compute. repeat split. discriminate.
Qed.

(* --------------------------------------------------------------------- *)
(** ** The duplicate check *)
(* --------------------------------------------------------------------- *)

Lemma isAssignmentSolved_some (u : ObjectId) (a : JsString)
      (c : Solution.collection) (d : Solution.doc) :
  Solution.isAssignmentSolved u a c = Some d ->
  In d c /\ Solution.userId d = u /\ Solution.assignmentId d = a
  /\ Solution.status d = completed.
Proof.
  unfold Solution.isAssignmentSolved, Solution.findOne. intros H.
  apply find_some in H. destruct H as [Hin H].
  rewrite !andb_true_iff in H. destruct H as [[Hu Ha] Hs].
  apply N.eqb_eq in Hu. apply str_eqb_eq in Ha, Hs. auto.
Qed.

Lemma isAssignmentSolved_none (u : ObjectId) (a : JsString)
      (c : Solution.collection) :
  Solution.isAssignmentSolved u a c = None <->
  (forall d, In d c -> Solution.userId d = u -> Solution.assignmentId d = a ->
             Solution.status d <> completed).
Proof.
  unfold Solution.isAssignmentSolved, Solution.findOne. split.
  - intros H d Hin Hu Ha Hs.
    pose proof (find_none _ _ H d Hin) as Hn. simpl in Hn.
    unfold ObjectId_eqb in Hn.
    rewrite Hu, Ha, Hs, N.eqb_refl, !str_eqb_refl in Hn. discriminate.
  - intros H.
    destruct (find _ c) as [d|] eqn:Hf; [|reflexivity].
    apply find_some in Hf. destruct Hf as [Hin Hf].
    rewrite !andb_true_iff in Hf. destruct Hf as [[Hu Ha] Hs].
    apply N.eqb_eq in Hu. apply str_eqb_eq in Ha, Hs.
    exfalso. exact (H d Hin Hu Ha Hs).
Qed.




(** C9, as the code has it.  The duplicate check returns only
    ['completed'] solutions.  So in a state the server reaches, when the
    user has an earlier attempt at the assignment and every such attempt
    is ['processing'] or ['failed'], a request whose four required fields
    are non-empty strings and whose [materials] is absent, [null] or an
    array of entries that are not [null] with plain Drive fields, from a
    user with an access token, passes the check and adds one more
    document for the same user and assignment, which then has at least
    two.  When the API key is configured and the token is one [spawn]
    accepts, one more solver has been handed to [spawn]: its process is
    pending, and what can still come is its
    close event, or its error event (the interpreter could not be
    started), which ends the server. *)
Theorem duplicate_attempts
        (Buffer_from_object : JsValue -> option Buffer)
        (castString_other : JsValue -> option JsString)
        (isAssignmentSolved_other :
           ObjectId -> JsValue -> Solution.collection ->
           option (option Solution.doc))
        (env : Env) (events : list Event) (st : State) (t1 t2 : Z)
        (user : User.t) (body : JsValue) (a t c n : JsString)
        (m : JsValue) (ms : list Solution.MaterialInfo)
        (earlier : Solution.doc) :
  run Buffer_from_object castString_other isAssignmentSolved_other env
      init events = Some st ->
  body_fields body = Some (JStr a, JStr t, JStr c, JStr n, m) ->
  a <> [] -> t <> [] -> c <> [] -> n <> [] ->
  plain_materials m = Some ms ->
  hasAccessToken user = true ->
  In earlier (store st) ->
  Solution.userId earlier = User._id user ->
  Solution.assignmentId earlier = a ->
  (forall d, In d (store st) ->
             Solution.userId d = User._id user ->
             Solution.assignmentId d = a ->
             Solution.status d = processing \/ Solution.status d = failed) ->
  let d := started_solution (nextId st) t1 user a t c n ms in
  let st' :=
    fst (post_solve_json castString_other isAssignmentSolved_other env
                         t1 t2 st user body) in
  (forall u x s y, Solution.isAssignmentSolved u x s = Some y ->
                   Solution.status y = completed)
  /\ Solution.isAssignmentSolved (User._id user) a (store st) = None
  /\ store st' = store st ++ [d]
  /\ ~ In (Solution._id d) (map Solution._id (store st))
  /\ Solution.userId d = Solution.userId earlier
  /\ Solution.assignmentId d = Solution.assignmentId earlier
  /\ 2 <= List.length (records_of (User._id user) a (store st'))
  /\ (present (GEMINI_API_KEY env) = true ->
      spawn_accepts user = true ->
      children st'
      = children st ++ [{| child_solution := Solution._id d;
                           child_startTime := t2 |}]
      /\ (forall code out err now iso,
             step Buffer_from_object castString_other
                  isAssignmentSolved_other env st'
                  (ProcessClosed (Solution._id d) code out err now iso)
             <> None)
      /\ step Buffer_from_object castString_other isAssignmentSolved_other
              env st' (ProcessError (Solution._id d))
         = Some (ended st')).
Proof.
  intros Hrun Hb Ha Ht Hc Hn Hm Htok Hin Hu Hea Hall d st'.
  pose proof (run_inv _ _ _ _ events Inv_init Hrun) as HI.
  assert (Solution.isAssignmentSolved (User._id user) a (store st) = None)
    as Hnone.
  { apply isAssignmentSolved_none. intros x Hx Hxu Hxa Hxs.
    destruct (Hall x Hx Hxu Hxa) as [E | E]; rewrite E in Hxs; discriminate. }
  pose proof (@post_solve_json_accepted castString_other
                isAssignmentSolved_other env t1 t2 st user body a t c n m ms
                Hb Ha Ht Hc Hn Hm Htok Hnone) as Hpost.
  fold d in Hpost. subst st'. rewrite Hpost. cbn [fst].
  rewrite store_after_start. cbn [store].
  split.
  { intros u x s y Hy. apply (isAssignmentSolved_some _ _ _ Hy). }
  split; [exact Hnone|]. split; [reflexivity|].
  split.
  { intros Hd. pose proof (inv_below HI) as Hbelow.
    rewrite Forall_forall in Hbelow. specialize (Hbelow _ Hd).
    cbn in Hbelow. lia. }
  split; [symmetry; exact Hu|].
  split; [symmetry; exact Hea|].
  split.
  { unfold records_of. rewrite filter_app, length_app.
    cbn [filter d started_solution Solution.userId Solution.assignmentId].
    unfold ObjectId_eqb. rewrite N.eqb_refl, str_eqb_refl.
    cbn [andb List.length].
    assert (In earlier (filter
              (fun x => (Solution.userId x =? User._id user)%N
                        && str_eqb (Solution.assignmentId x) a)
              (store st))) as Hf.
    { apply filter_In. split; auto.
      rewrite Hu, Hea, N.eqb_refl, str_eqb_refl. reflexivity. }
    destruct (filter _ (store st)); [contradiction | cbn [List.length]; lia]. }
  intros Hk _.
  exact (@started_child Buffer_from_object castString_other
           isAssignmentSolved_other env st t2 d HI Hk).
Qed.

Lemma duplicate_attempts_witness :
  Solution.status (oldest failed_state) = failed
  /\ store (fst (post_solve_json rejects_cast rejects_query configured
                                 6000 6001 failed_state alice
                                 (body_json homework)))
     = store failed_state
             ++ [started_solution (nextId failed_state) 6000 alice
                   (lit "a1") (lit "Homework 1") (lit "c1") (lit "Algebra")
                   []]
  /\ 2 <= List.length
            (records_of (User._id alice) (lit "a1")
               (store (fst (post_solve_json rejects_cast rejects_query
                              configured 6000 6001 failed_state alice
                              (body_json homework)))))
  /\ children (fst (post_solve_json rejects_cast rejects_query configured
                                    6000 6001 failed_state alice
                                    (body_json homework)))
     = [{| child_solution := 1%N; child_startTime := 6001 |}].
Proof.
  destruct (@duplicate_attempts rejects_buffer rejects_cast rejects_query
              configured failed_once failed_state 6000 6001 alice
              (body_json homework)
              (lit "a1") (lit "Homework 1") (lit "c1") (lit "Algebra")
              JUndefined [] (oldest failed_state))
    as [_ [_ [Hstore [_ [_ [_ [Hlen Hchild]]]]]]];
    try reflexivity; try discriminate.
  - left. reflexivity.
  - intros d [<- | []] _ _. right. reflexivity.
  - split; [reflexivity|]. split; [exact Hstore|].
    split; [exact Hlen | exact (proj1 (Hchild eq_refl eq_refl))].
Defined.

(** C9 as it is stated fails in each of these five situations, all with
    an earlier ['failed'] attempt of the same user at the same
    assignment: the server has no API key (a document is added but no
    process is spawned); the request lacks its title (400); the user has
    no access token (401); a later attempt already ['completed'] (the
    existing solution is returned); the materials of the request are a
    string (500).  In the last four nothing is added. *)
Lemma retry_is_guarded :
  (Solution.status (oldest failed_without_key_state) = failed
   /\ Solution.userId (oldest failed_without_key_state) = User._id alice
   /\ Solution.assignmentId (oldest failed_without_key_state) = lit "a1"
   /\ List.length
        (store (fst (post_solve_json rejects_cast rejects_query
                       unconfigured 6000 6001 failed_without_key_state
                       alice (body_json homework)))) = 2
   /\ children (fst (post_solve_json rejects_cast rejects_query
                       unconfigured 6000 6001 failed_without_key_state
                       alice (body_json homework))) = [])
  /\ (Solution.status (oldest failed_state) = failed
      /\ post_solve_json rejects_cast rejects_query configured 6000 6001
                         failed_state alice (body_json untitled)
         = (failed_state, Json 400 (BError missing_fields)))
  /\ (Solution.status (oldest failed_state) = failed
      /\ fst (post_solve_json rejects_cast rejects_query configured
                              6000 6001 failed_state
                              {| User._id := 7%N; User.googleTokens := None |}
                              (body_json homework))
         = failed_state)
  /\ (Solution.status (oldest failed_then_solved_state) = failed
      /\ post_solve_json rejects_cast rejects_query configured 9500 9501
                         failed_then_solved_state alice (body_json homework)
         = (failed_then_solved_state, Json 200 (BAlreadySolved 1%N)))
  /\ (Solution.status (oldest failed_state) = failed
      /\ post_solve_json rejects_cast rejects_query configured 6000 6001
                         failed_state alice string_materials
         = (failed_state, Json 500 start_failed)).
Proof.
  vm_compute. repeat split.
Qed.

(* ===================================================================== *)
(** * The close callback *)
(* ===================================================================== *)

Lemma validate_set_result (d : Solution.doc) (text : option JsString)
      (pdf : option Buffer) (st : JsString) (time : Z) :
  Solution.validate d = true ->
  In st Solution.status_enum ->
  Solution.validate (set_result d text pdf st time) = true.
Proof.
  unfold Solution.validate; simpl. rewrite !andb_true_iff.
  intros [[[[_ H1] H2] H3] H4] Hin. repeat split; auto.
  destruct Hin as [<- | [<- | [<- | []]]]; reflexivity.
Qed.

(** Saving a validated result replaces the document that was read. *)
Lemma save_or_log_saved (d old : Solution.doc) (c : Solution.collection) :
  Solution.findById (Solution._id d) c = Some old ->
  Solution.validate d = true ->
  Solution.findById (Solution._id d) (save_or_log d c) = Some d.
Proof.
  intros Hfind Hv. unfold save_or_log, Solution.update. rewrite Hv.
  eapply findById_replace; eauto.
Qed.

Section CloseCallback.

Variable Buffer_from_object : JsValue -> option Buffer.
Variable castString_other : JsValue -> option JsString.

Abbreviation onClose := (onClose Buffer_from_object castString_other).

(** The failure branch: any exit code but 0, or an output that is blank,
    marks the solution ['failed'] with the error text and the elapsed
    time. *)
Lemma onClose_failed (child : Child) (code : option Z)
      (out err : list JsString) (now : Z) (iso : JsString)
      (c : Solution.collection) (d : Solution.doc) :
  Solution.findById (child_solution child) c = Some d ->
  Solution.validate d = true ->
  exit_ok code && Solution.nonempty (trim (concat_chunks out)) = false ->
  exists d',
    Solution.findById (child_solution child)
                      (onClose child code out err now iso c) = Some d'
    /\ Solution.status d' = failed
    /\ Solution.solutionText d'
       = Some (lit "Solving failed: "
                 ++ match concat_chunks err with
                    | [] => lit "Unknown error"
                    | e => e
                    end)
    /\ Solution.processingTime d' = (now - child_startTime child)%Z.
Proof.
  intros Hfind Hv Hc. unfold onClose. rewrite Hfind, Hc.
  pose proof (findById_some _ _ Hfind) as [_ Hid].
  eexists. split.
  - rewrite <- Hid at 1.
    apply (save_or_log_saved (set_result d _ _ failed _) (old := d));
      [simpl; rewrite Hid; exact Hfind|].
    apply validate_set_result; [exact Hv | simpl; auto].
  - simpl. repeat split. unfold failure_text.
    destruct (concat_chunks err); reflexivity.
Qed.

(** The callback marks a solution ['completed'] only on exit code 0 with
    an output that is not blank. *)
Lemma onClose_completed_only (child : Child) (code : option Z)
      (out err : list JsString) (now : Z) (iso : JsString)
      (c : Solution.collection) (d d' : Solution.doc) :
  Solution.findById (child_solution child) c = Some d ->
  Solution.status d = processing ->
  Solution.findById (child_solution child)
                    (onClose child code out err now iso c) = Some d' ->
  Solution.status d' = completed ->
  exit_ok code = true /\ trim (concat_chunks out) <> [].
Proof.
  intros Hfind Hst Hfind' Hst'.
  destruct (exit_ok code && Solution.nonempty (trim (concat_chunks out)))
    eqn:Hc.
  - apply andb_true_iff in Hc. destruct Hc as [He Hn]. split; auto.
    intros E. rewrite E in Hn. discriminate.
  - exfalso.
    assert (Solution.status d' = failed \/ d' = d) as [E | ->].
    { revert Hfind'. unfold onClose. rewrite Hfind, Hc.
      unfold save_or_log, Solution.update.
      destruct (Solution.validate _).
      - pose proof (findById_some _ _ Hfind) as [_ Hid].
        rewrite <- Hid at 1.
        rewrite (findById_replace (set_result d _ _ failed _) (old := d));
          [|simpl; rewrite Hid; exact Hfind].
        intros H; inversion H; subst. left; reflexivity.
      - rewrite Hfind. intros H; inversion H. right; reflexivity. }
    + rewrite E in Hst'. discriminate.
    + rewrite Hst in Hst'. discriminate.
Qed.

(** The success branch, whenever reading the two properties of the
    parsed result does not throw and the text to store is a string. *)
Lemma onClose_completed (child : Child) (code : option Z)
      (out err : list JsString) (now : Z) (iso : JsString)
      (c : Solution.collection) (d : Solution.doc)
      (pdfBytes parsedText : JsValue) (text : JsString) :
  Solution.findById (child_solution child) c = Some d ->
  Solution.validate d = true ->
  exit_ok code = true ->
  Solution.nonempty (trim (concat_chunks out)) = true ->
  get_prop (parse_output (concat_chunks out)) (lit "pdfBytes")
  = Some pdfBytes ->
  get_prop (parse_output (concat_chunks out)) (lit "solutionText")
  = Some parsedText ->
  or_else parsedText (JStr (concat_chunks out)) = JStr text ->
  exists d',
    Solution.findById (child_solution child)
                      (onClose child code out err now iso c) = Some d'
    /\ Solution.status d' = completed
    /\ Solution.solutionText d' = Some text
    /\ Solution.processingTime d' = (now - child_startTime child)%Z.
Proof.
  intros Hfind Hv He Hn Hpdf Htext Hor.
  unfold onClose. rewrite Hfind, He, Hn. cbn [andb].
  unfold on_success. rewrite Hpdf, Htext, Hor. cbn [castString].
  pose proof (findById_some _ _ Hfind) as [_ Hid].
  eexists. split.
  - rewrite <- Hid at 1.
    apply (save_or_log_saved (set_result d (Some text) _ completed _)
                             (old := d)).
    + cbn [Solution._id set_result]. rewrite Hid. exact Hfind.
    + apply validate_set_result; [exact Hv | simpl; auto].
  - repeat split.
Qed.

Lemma get_prop_defined (v x : JsValue) (k k' : JsString) :
  get_prop v k = Some x -> exists y, get_prop v k' = Some y.
Proof.
  destruct v; simpl; try discriminate; intros _; eauto.
  destruct (own_prop props k'); eauto.
Qed.

(** C3, as the code has it.  Let the solution of the process be in the
    collection.  If the exit code is not 0 or the output is blank, the
    callback saves it as ['failed'] with the text ['Solving failed: ']
    followed by the error output (or ['Unknown error']).  If the exit
    code is 0 and the output is not blank, it saves it as ['completed']
    with, as text: the trimmed output when the output is not JSON; the
    [solutionText] of the parsed value when that is a non-empty string;
    the output as it came when the parsed value (other than [null]) has
    no truthy [solutionText].  In all these cases [processingTime] is the
    time since the start.  And the callback saves ['completed'] only on
    exit code 0 with an output that is not blank. *)
Theorem onClose_spec (child : Child) (code : option Z)
        (out err : list JsString) (now : Z) (iso : JsString)
        (c : Solution.collection) (d : Solution.doc) :
  Solution.findById (child_solution child) c = Some d ->
  Solution.validate d = true ->
  let stdout := concat_chunks out in
  let saved :=
    Solution.findById (child_solution child)
                      (onClose child code out err now iso c) in
  let completed_with text :=
    exists d', saved = Some d'
               /\ Solution.status d' = completed
               /\ Solution.solutionText d' = Some text
               /\ Solution.processingTime d'
                  = (now - child_startTime child)%Z in
  (exit_ok code && Solution.nonempty (trim stdout) = false ->
   exists d', saved = Some d'
              /\ Solution.status d' = failed
              /\ Solution.solutionText d'
                 = Some (lit "Solving failed: "
                           ++ match concat_chunks err with
                              | [] => lit "Unknown error"
                              | e => e
                              end)
              /\ Solution.processingTime d'
                 = (now - child_startTime child)%Z)
  /\ (exit_ok code && Solution.nonempty (trim stdout) = true ->
      (JSON_parse stdout = None -> completed_with (trim stdout))
      /\ (forall v s,
             JSON_parse stdout = Some v ->
             get_prop v (lit "solutionText") = Some (JStr s) ->
             s <> [] -> completed_with s)
      /\ (forall v x,
             JSON_parse stdout = Some v ->
             get_prop v (lit "solutionText") = Some x ->
             truthy x = false -> completed_with stdout))
  /\ (Solution.status d = processing ->
      forall d', saved = Some d' -> Solution.status d' = completed ->
                 exit_ok code = true /\ trim stdout <> []).
Proof.
  intros Hfind Hv stdout saved completed_with.
  subst stdout saved completed_with. cbv beta.
  split; [intros Hc; apply onClose_failed with (d := d); assumption|].
  split;
    [|intros Hst d' Hd' Hs;
      eapply onClose_completed_only;
      [exact Hfind | exact Hst | exact Hd' | exact Hs]].
  intros Hc. apply andb_true_iff in Hc. destruct Hc as [He Hn].
  split; [|split].
  - intros Hparse.
    assert (parse_output (concat_chunks out)
            = JObj [(lit "solutionText", JStr (trim (concat_chunks out)))])
      as Hpo by (unfold parse_output; rewrite Hparse; reflexivity).
    apply onClose_completed
      with (d := d) (pdfBytes := JUndefined)
           (parsedText := JStr (trim (concat_chunks out))); auto.
    + rewrite Hpo. reflexivity.
    + rewrite Hpo. reflexivity.
    + unfold or_else. cbn [truthy].
      destruct (trim (concat_chunks out)); [discriminate | reflexivity].
  - intros v s Hparse Hprop Hs.
    assert (parse_output (concat_chunks out) = v) as Hpo
        by (unfold parse_output; rewrite Hparse; reflexivity).
    destruct (get_prop_defined v (lit "solutionText") (lit "pdfBytes") Hprop)
      as [pdfBytes Hpdf].
    apply onClose_completed
      with (d := d) (pdfBytes := pdfBytes) (parsedText := JStr s); auto.
    + rewrite Hpo. exact Hpdf.
    + rewrite Hpo. exact Hprop.
    + unfold or_else. cbn [truthy]. destruct s; [contradiction | reflexivity].
  - intros v x Hparse Hprop Hx.
    assert (parse_output (concat_chunks out) = v) as Hpo
        by (unfold parse_output; rewrite Hparse; reflexivity).
    destruct (get_prop_defined v (lit "solutionText") (lit "pdfBytes") Hprop)
      as [pdfBytes Hpdf].
    apply onClose_completed
      with (d := d) (pdfBytes := pdfBytes) (parsedText := x); auto.
    + rewrite Hpo. exact Hpdf.
    + rewrite Hpo. exact Hprop.
    + unfold or_else. rewrite Hx. reflexivity.
Qed.

(** What C3 leaves out: the solver exits with code 0 and prints [null].
    The output is not blank and parses as JSON; reading
    [parsedResult.pdfBytes] of [null] throws, the callback's outer catch
    logs the error, and the collection is left as it was.  On the server
    that had one solution ['processing'], the solution is still
    ['processing'] afterwards and nothing is pending for it any more. *)
Lemma close_after_null_output (child : Child) (err : list JsString)
      (now : Z) (iso : JsString) (c : Solution.collection) :
  exit_ok (Some 0%Z) = true
  /\ trim (concat_chunks [lit "null"]) = lit "null"
  /\ parse_output (lit "null") = JNull
  /\ onClose child (Some 0%Z) [lit "null"] err now iso c = c
  /\ Solution.status (oldest (closed_with 0 (lit "null"))) = processing
  /\ pending (closed_with 0 (lit "null")) = [].
Proof.
  split; [reflexivity|]. split; [reflexivity|]. split; [reflexivity|].
  split; [|vm_compute; split; reflexivity].
  unfold onClose.
  destruct (Solution.findById (child_solution child) c); reflexivity.
Qed.

End CloseCallback.

Lemma onClose_spec_witness :
  (exists d', Solution.findById 0%N (store failed_state) = Some d'
              /\ Solution.status d' = failed
              /\ Solution.solutionText d'
                 = Some (lit "Solving failed: Traceback")
              /\ Solution.processingTime d' = 3999%Z)
  /\ (exists d', Solution.findById 0%N (store solved_state) = Some d'
                 /\ Solution.status d' = completed
                 /\ Solution.solutionText d' = Some (lit "x = 2")
                 /\ Solution.processingTime d' = 3999%Z).
Proof.
  split.
  - exact (proj1 (onClose_spec rejects_buffer rejects_cast
                    {| child_solution := 0%N; child_startTime := 1001 |}
                    (Some 1%Z) [] [lit "Traceback"] 5000 iso0
                    [new_solution 0%N 1000 alice homework]
                    eq_refl eq_refl) eq_refl).
  - exact (proj1 (proj1 (proj2 (onClose_spec rejects_buffer rejects_cast
                    {| child_solution := 0%N; child_startTime := 1001 |}
                    (Some 0%Z) [lit "x = 2"] [] 5000 iso0
                    [new_solution 0%N 1000 alice homework]
                    eq_refl eq_refl)) eq_refl) eq_refl).
Defined.

(** C3 as it is stated fails on plain output that ends in a line break:
    what is stored is neither the concatenation of the chunks nor a field
    of parsed JSON, but the concatenation trimmed. *)
Lemma plain_output_is_trimmed :
  concat_chunks [lit "x = 2"; nl] = lit "x = 2" ++ nl
  /\ JSON_parse (lit "x = 2" ++ nl) = None
  /\ Solution.solutionText
       (oldest (after_events configured
                  [PostSolve 1000 1001 alice (body_json homework);
                   ProcessClosed 0%N (Some 0%Z) [lit "x = 2"; nl] []
                                 5000 iso0]))
     = Some (lit "x = 2")
  /\ lit "x = 2" <> concat_chunks [lit "x = 2"; nl].
Proof.
  vm_compute. repeat split. discriminate.
Qed.


(* ===================================================================== *)
(** * createSimplePdf *)
(* ===================================================================== *)

Lemma utf8_cons_ascii (x : N) (r : JsString) :
  (x < 128)%N -> utf8 (x :: r) = x :: utf8 r.
Proof.
  intros Hx.
  assert (isHighSurrogate x = false) as Hh.
  { unfold isHighSurrogate. apply andb_false_intro1. apply N.leb_gt. lia. }
  assert (isLowSurrogate x = false) as Hl.
  { unfold isLowSurrogate. apply andb_false_intro1. apply N.leb_gt. lia. }
  assert (utf8_point x = [x]) as Hp.
  { unfold utf8_point. apply N.ltb_lt in Hx. rewrite Hx. reflexivity. }
  destruct r as [|d r]; cbn [utf8]; rewrite Hh, Hl, Hp; reflexivity.
Qed.

Lemma utf8_ascii_app (a b : JsString) :
  forallb (fun c => N.ltb c 128) a = true -> utf8 (a ++ b) = a ++ utf8 b.
Proof.
  induction a as [|x a IH]; cbn [forallb app]; [reflexivity|].
  intros H. apply andb_true_iff in H. destruct H as [Hx Ha].
  apply N.ltb_lt in Hx.
  rewrite utf8_cons_ascii by exact Hx. rewrite IH by exact Ha. reflexivity.
Qed.

(** Encoding does not look across a boundary that is followed by anything
    but a low surrogate. *)
Lemma utf8_app_cons (c : N) (b : JsString) :
  isLowSurrogate c = false ->
  forall a, utf8 (a ++ c :: b) = utf8 a ++ utf8 (c :: b).
Proof.
  intros Hc a.
  enough (utf8 (a ++ c :: b) = utf8 a ++ utf8 (c :: b)
          /\ forall x, utf8 ((x :: a) ++ c :: b)
                       = utf8 (x :: a) ++ utf8 (c :: b)) as [H _] by exact H.
  induction a as [|y a [IH1 IH2]].
  - split; [reflexivity|]. intros x.
    change (([x] ++ c :: b)) with (x :: c :: b).
    cbn [utf8]. rewrite Hc.
    destruct (isHighSurrogate x); [reflexivity|].
    destruct (isLowSurrogate x); [reflexivity|].
    rewrite app_nil_r. reflexivity.
  - split; [apply IH2|]. intros x.
    change ((x :: y :: a) ++ c :: b) with (x :: y :: (a ++ c :: b)).
    change (utf8 (x :: y :: (a ++ c :: b)))
      with (if isHighSurrogate x then
              if isLowSurrogate y
              then utf8_point (65536 + (x - 55296) * 1024 + (y - 56320))%N
                   ++ utf8 (a ++ c :: b)
              else [239; 191; 189]%N ++ utf8 (y :: (a ++ c :: b))
            else if isLowSurrogate x
                 then [239; 191; 189]%N ++ utf8 (y :: (a ++ c :: b))
                 else utf8_point x ++ utf8 (y :: (a ++ c :: b))).
    change (utf8 (x :: y :: a))
      with (if isHighSurrogate x then
              if isLowSurrogate y
              then utf8_point (65536 + (x - 55296) * 1024 + (y - 56320))%N
                   ++ utf8 a
              else [239; 191; 189]%N ++ utf8 (y :: a)
            else if isLowSurrogate x
                 then [239; 191; 189]%N ++ utf8 (y :: a)
                 else utf8_point x ++ utf8 (y :: a)).
    change (y :: (a ++ c :: b)) with ((y :: a) ++ c :: b).
    rewrite IH1, (IH2 y).
    destruct (isHighSurrogate x), (isLowSurrogate y), (isLowSurrogate x);
      rewrite <- ?app_assoc; reflexivity.
Qed.

(** The bytes of the fallback document: the header, the UTF-8 bytes of the
    text, the footer. *)
Lemma utf8_pdfContent (iso s : JsString) :
  utf8 (pdfContent iso s) = pdf_header ++ utf8 s ++ utf8 (pdf_footer iso).
Proof.
  unfold pdfContent. rewrite utf8_ascii_app by reflexivity.
  f_equal. apply utf8_app_cons. reflexivity.
Qed.

Lemma pdf_header_nonempty (b : Buffer) : pdf_header ++ b <> [].
Proof. discriminate. Qed.

Lemma nonempty_length (s : JsString) :
  Solution.nonempty s = true -> Nat.eqb (List.length s) 0 = false.
Proof. destruct s; [discriminate | reflexivity]. Qed.

Lemma empty_length (s : JsString) :
  Solution.nonempty s = false -> Nat.eqb (List.length s) 0 = true.
Proof. destruct s; [reflexivity | discriminate]. Qed.

Lemma nonblank_truthy (s : JsString) :
  Solution.nonempty (trim s) = true -> truthy (JStr s) = true.
Proof. destruct s; [discriminate | reflexivity]. Qed.

Lemma createSimplePdf_string (iso s : JsString) :
  Solution.nonempty (trim s) = true ->
  createSimplePdf iso (JStr s) = utf8 (pdfContent iso s).
Proof.
  intros Hn. unfold createSimplePdf, createSimplePdf_try.
  rewrite (nonblank_truthy s Hn), (nonempty_length _ Hn). reflexivity.
Qed.

Lemma createSimplePdf_blank (iso : JsString) (text : JsValue) :
  nonblank_string text = false -> createSimplePdf iso text = [].
Proof.
  unfold createSimplePdf, createSimplePdf_try, nonblank_string.
  destruct text as [| |b|n|s|l|p]; intros H;
    try (destruct (negb (truthy _)); reflexivity).
  rewrite (empty_length _ H). destruct (negb (truthy _)); reflexivity.
Qed.

Section Fallback.

Variable Buffer_from_object : JsValue -> option Buffer.
Variable castString_other : JsValue -> option JsString.

(** C10, as the code has it.  [createSimplePdf] returns a buffer for every
    value it is given, the catch block turning any exception into the
    empty buffer.  The buffer is empty exactly when the value is not a
    string with something left after trimming ([null], [undefined], the
    empty string, white space, but also a number or an object).  For such
    a string it is the UTF-8 encoding of the template, which is not empty
    and holds the UTF-8 bytes of the text between the header and the
    footer.  So when the close callback takes the fallback path (no
    [pdfBytes], or [pdfBytes] that [Buffer.from] rejects) and the solution
    text is a string that is not blank, the document it saves is
    ['completed'] and carries that buffer as [solutionPdf]. *)
Theorem createSimplePdf_spec (iso : JsString) :
  (forall text,
      createSimplePdf iso text = [] <-> nonblank_string text = false)
  /\ (forall s,
         nonblank_string (JStr s) = true ->
         createSimplePdf iso (JStr s) = utf8 (pdfContent iso s)
         /\ createSimplePdf iso (JStr s)
            = pdf_header ++ utf8 s ++ utf8 (pdf_footer iso))
  /\ (forall child code out err now c d pdfBytes parsedText s,
         Solution.findById (child_solution child) c = Some d ->
         Solution.validate d = true ->
         exit_ok code = true ->
         Solution.nonempty (trim (concat_chunks out)) = true ->
         get_prop (parse_output (concat_chunks out)) (lit "pdfBytes")
         = Some pdfBytes ->
         truthy pdfBytes = false
         \/ Buffer_from_hex Buffer_from_object pdfBytes = None ->
         get_prop (parse_output (concat_chunks out)) (lit "solutionText")
         = Some parsedText ->
         or_else parsedText (JStr (concat_chunks out)) = JStr s ->
         nonblank_string (JStr s) = true ->
         exists d',
           Solution.findById (child_solution child)
             (onClose Buffer_from_object castString_other
                      child code out err now iso c) = Some d'
           /\ Solution.status d' = completed
           /\ Solution.solutionText d' = Some s
           /\ Solution.solutionPdf d' = Some (createSimplePdf iso (JStr s))
           /\ createSimplePdf iso (JStr s) <> []).
Proof.
  split.
  { intros text. destruct (nonblank_string text) eqn:Hb.
    - split; [|discriminate]. intros H. exfalso. revert H.
      destruct text as [| |b|n|s|l|p]; try discriminate Hb.
      rewrite (createSimplePdf_string iso s Hb), utf8_pdfContent.
      apply pdf_header_nonempty.
    - split; [reflexivity | intros _; apply createSimplePdf_blank; exact Hb]. }
  split.
  { intros s Hs. change (Solution.nonempty (trim s) = true) in Hs.
    rewrite (createSimplePdf_string iso s Hs).
    split; [reflexivity | apply utf8_pdfContent]. }
  intros child code out err now c d pdfBytes parsedText s
         Hfind Hv He Hn Hpdf Hfallback Htext Hor Hs.
  change (Solution.nonempty (trim s) = true) in Hs.
  assert (createSimplePdf iso (JStr s) <> []) as Hne.
  { rewrite (createSimplePdf_string iso s Hs), utf8_pdfContent.
    apply pdf_header_nonempty. }
  pose proof (findById_some _ _ Hfind) as [_ Hid].
  exists (set_result d (Some s) (Some (createSimplePdf iso (JStr s)))
                     completed (now - child_startTime child)%Z).
  split; [|repeat split; assumption].
  unfold onClose. rewrite Hfind, He, Hn. simpl.
  unfold on_success. rewrite Hpdf, Htext, Hor. simpl castString.
  assert ((if truthy pdfBytes
           then match Buffer_from_hex Buffer_from_object pdfBytes with
                | Some buffer => buffer
                | None => createSimplePdf iso (JStr s)
                end
           else createSimplePdf iso (JStr s))
          = createSimplePdf iso (JStr s)) as ->.
  { destruct Hfallback as [-> | ->]; [reflexivity|].
    destruct (truthy pdfBytes); reflexivity. }
  destruct (createSimplePdf iso (JStr s)) as [|b0 bs] eqn:Eb;
    [contradiction|].
  rewrite <- Hid at 1.
  apply (save_or_log_saved
           (set_result d (Some s) (Some (b0 :: bs)) completed
                       (now - child_startTime child)%Z) (old := d)).
  - simpl. rewrite Hid. exact Hfind.
  - apply validate_set_result; [exact Hv | simpl; auto].
Qed.

End Fallback.

Lemma createSimplePdf_spec_witness :
  createSimplePdf iso0 (JStr (lit "x = 2"))
  = pdf_header ++ utf8 (lit "x = 2") ++ utf8 (pdf_footer iso0)
  /\ exists d',
       Solution.findById 0%N (store solved_state) = Some d'
       /\ Solution.status d' = completed
       /\ Solution.solutionText d' = Some (lit "x = 2")
       /\ Solution.solutionPdf d'
          = Some (createSimplePdf iso0 (JStr (lit "x = 2")))
       /\ createSimplePdf iso0 (JStr (lit "x = 2")) <> [].
Proof.
  destruct (createSimplePdf_spec rejects_buffer rejects_cast iso0)
    as [_ [Hstring Hfallback]].
  split; [exact (proj2 (Hstring (lit "x = 2") eq_refl))|].
  exact (Hfallback {| child_solution := 0%N; child_startTime := 1001 |}
           (Some 0%Z) [lit "x = 2"] [] 5000%Z
           [new_solution 0%N 1000 alice homework]
           (new_solution 0%N 1000 alice homework)
           JUndefined (JStr (lit "x = 2")) (lit "x = 2")
           eq_refl eq_refl eq_refl eq_refl eq_refl (or_introl eq_refl)
           eq_refl eq_refl eq_refl).
Defined.

(** C10 as it is stated fails for a value that is not a string: the
    number 5 is neither [null] nor empty nor white space, yet
    [text.trim] is not a function, the catch block answers, and the
    buffer is empty.  On the server, when the solver prints
    [{"solutionText": 5}] the solution is saved ['completed'] with the
    text ["5"], which is not blank, and without a PDF. *)
Lemma createSimplePdf_of_number :
  createSimplePdf iso0 five = []
  /\ truthy five = true
  /\ parse_output numeric_answer = JObj [(lit "solutionText", five)]
  /\ Solution.status (oldest numeric_state) = completed
  /\ Solution.solutionText (oldest numeric_state) = Some (lit "5")
  /\ trim (lit "5") <> []
  /\ Solution.solutionPdf (oldest numeric_state) = None.
Proof.
  vm_compute. repeat split. discriminate.
Qed.

(* ===================================================================== *)
(** * Reading a solution *)
(* ===================================================================== *)

Lemma is_solution_of_true (oid uid : ObjectId) (d : Solution.doc) :
  is_solution_of oid uid d = true <->
  Solution._id d = oid /\ Solution.userId d = uid.
Proof.
  unfold is_solution_of, ObjectId_eqb.
  rewrite andb_true_iff, !N.eqb_eq. tauto.
Qed.

Lemma findOne_some (f : Solution.doc -> bool) (c : Solution.collection)
      (d : Solution.doc) :
  Solution.findOne f c = Some d -> In d c /\ f d = true.
Proof. apply find_some. Qed.

Lemma findOne_none (f : Solution.doc -> bool) (c : Solution.collection) :
  Solution.findOne f c = None -> forall d, In d c -> f d = false.
Proof. apply find_none. Qed.

Lemma findOne_exists (f : Solution.doc -> bool) (c : Solution.collection)
      (d : Solution.doc) :
  In d c -> f d = true -> exists d', Solution.findOne f c = Some d'.
Proof.
  intros Hin Hf. destruct (Solution.findOne f c) as [d'|] eqn:E; eauto.
  rewrite (findOne_none _ _ E d Hin) in Hf. discriminate.
Qed.

(** The route on a [solutionId] that is a well-formed [ObjectId]. *)
Lemma get_solution_cast (c : Solution.collection) (user : User.t)
        (solutionId : JsString) (oid : ObjectId) :
  castObjectId solutionId = Some oid ->
  ((exists d, In d c /\ Solution._id d = oid
              /\ Solution.userId d = User._id user) ->
   exists d, In d c /\ Solution._id d = oid
             /\ Solution.userId d = User._id user
             /\ get_solution c user solutionId
                = Json 200 (BSolution (view_of d)))
  /\ ((forall d, In d c ->
                 ~ (Solution._id d = oid
                    /\ Solution.userId d = User._id user)) ->
      get_solution c user solutionId
      = Json 404 (BError (lit "Solution not found")))
  /\ (forall code body,
         get_solution c user solutionId = Json code body ->
         (code = 200 /\ exists d, In d c /\ Solution._id d = oid
                                  /\ Solution.userId d = User._id user
                                  /\ body = BSolution (view_of d))
         \/ (code = 404 /\ body = BError (lit "Solution not found")
             /\ forall d, In d c ->
                          ~ (Solution._id d = oid
                             /\ Solution.userId d = User._id user))).
Proof.
  intros Hcast. unfold get_solution, find_for_user. rewrite Hcast.
  destruct (Solution.findOne (is_solution_of oid (User._id user)) c)
    as [d|] eqn:Hfind.
  - destruct (findOne_some _ _ Hfind) as [Hin Hd].
    apply is_solution_of_true in Hd. destruct Hd as [Hid Hu].
    split; [intros _; exists d; auto|].
    split.
    + intros Hnone. exfalso. exact (Hnone d Hin (conj Hid Hu)).
    + intros code body H. inversion H; subst. left. split; auto.
      exists d. auto.
  - pose proof (findOne_none _ _ Hfind) as Hnone.
    assert (forall d, In d c ->
                      ~ (Solution._id d = oid
                         /\ Solution.userId d = User._id user)) as Hnone'.
    { intros d Hin Hd. apply is_solution_of_true in Hd.
      rewrite (Hnone d Hin) in Hd. discriminate. }
    split.
    + intros [d [Hin [Hid Hu]]]. exfalso. exact (Hnone' d Hin (conj Hid Hu)).
    + split; [intros _; reflexivity|].
      intros code body H. inversion H; subst. right. auto.
Qed.

(** C5, as the code has it.  A [solutionId] that is not an [ObjectId] is
    answered 500 ['Failed to fetch solution'] by the catch block.  For one
    that is: when the collection holds a solution with that identifier
    whose [userId] is the authenticated user's, the answer is 200 with
    the seven fields of such a solution; when it holds none, the answer
    is 404 ['Solution not found'].  Whatever the [solutionId], the answer
    is one of these three, and a 200 answer carries the fields of a
    solution of the authenticated user that has the identifier asked
    for, so nobody reads another user's solution. *)
Theorem get_solution_spec (c : Solution.collection) (user : User.t)
        (solutionId : JsString) :
  (castObjectId solutionId = None ->
   get_solution c user solutionId
   = Json 500 (BFailure (lit "Failed to fetch solution")))
  /\ (forall oid,
         castObjectId solutionId = Some oid ->
         ((exists d, In d c /\ Solution._id d = oid
                     /\ Solution.userId d = User._id user) ->
          exists d, In d c /\ Solution._id d = oid
                    /\ Solution.userId d = User._id user
                    /\ get_solution c user solutionId
                       = Json 200 (BSolution (view_of d)))
         /\ ((forall d, In d c ->
                        ~ (Solution._id d = oid
                           /\ Solution.userId d = User._id user)) ->
             get_solution c user solutionId
             = Json 404 (BError (lit "Solution not found"))))
  /\ (exists code body,
         get_solution c user solutionId = Json code body
         /\ ((code = 200
              /\ exists d, In d c
                           /\ castObjectId solutionId = Some (Solution._id d)
                           /\ Solution.userId d = User._id user
                           /\ body = BSolution (view_of d))
             \/ (code = 404 /\ body = BError (lit "Solution not found")
                 /\ exists oid,
                      castObjectId solutionId = Some oid
                      /\ forall d, In d c ->
                                   ~ (Solution._id d = oid
                                      /\ Solution.userId d = User._id user))
             \/ (code = 500
                 /\ body = BFailure (lit "Failed to fetch solution")
                 /\ castObjectId solutionId = None))).
Proof.
  split; [|split].
  - intros Hcast. unfold get_solution, find_for_user. rewrite Hcast.
    reflexivity.
  - intros oid Hcast.
    destruct (@get_solution_cast c user solutionId oid Hcast)
      as [H1 [H2 _]].
    split; assumption.
  - destruct (castObjectId solutionId) as [oid|] eqn:Hcast.
    + destruct (@get_solution_cast c user solutionId oid Hcast)
        as [_ [_ H3]].
      unfold get_solution, find_for_user in *. rewrite Hcast in *.
      destruct (Solution.findOne (is_solution_of oid (User._id user)) c)
        as [d|].
      * eexists _, _. split; [reflexivity|].
        destruct (H3 _ _ eq_refl)
          as [[_ [d' [Hin [Hid [Hu Hb]]]]] | [Hc _]]; [|discriminate].
        left. split; [reflexivity|]. exists d'.
        rewrite Hid. auto.
      * eexists _, _. split; [reflexivity|].
        destruct (H3 _ _ eq_refl) as [[Hc _] | [_ [_ Hnone]]];
          [discriminate|].
        right; left. split; [reflexivity|]. split; [reflexivity|].
        exists oid. auto.
    + unfold get_solution, find_for_user. rewrite Hcast.
      eexists _, _. split; [reflexivity|]. right; right. auto.
Qed.

Lemma get_solution_spec_witness :
  castObjectId id0 = Some 0%N
  /\ (exists d, In d (store solved_state) /\ Solution._id d = 0%N
                /\ Solution.userId d = User._id alice
                /\ get_solution (store solved_state) alice id0
                   = Json 200 (BSolution (view_of d)))
  /\ get_solution (store solved_state) bob id0
     = Json 404 (BError (lit "Solution not found"))
  /\ get_solution (store solved_state) bob (lit "abcd")
     = Json 500 (BFailure (lit "Failed to fetch solution")).
Proof.
  split; [reflexivity|]. split; [|split].
  - apply (proj1 (proj1 (proj2 (get_solution_spec (store solved_state)
                                                  alice id0))
                        0%N eq_refl)).
    exists (oldest solved_state).
    split; [left; reflexivity | split; reflexivity].
  - apply (proj2 (proj1 (proj2 (get_solution_spec (store solved_state)
                                                  bob id0))
                        0%N eq_refl)).
    intros d [<- | []] [_ Hu]. discriminate Hu.
  - apply (proj1 (get_solution_spec (store solved_state) bob (lit "abcd"))).
    reflexivity.
Defined.

(** C5 as it is stated fails for a [solutionId] that is not an
    [ObjectId]: no solution has it, yet the answer is not 404 -- the cast
    of the filter throws and the catch block answers 500. *)
Lemma get_solution_malformed_id :
  castObjectId (lit "abc") = None
  /\ get_solution (store solved_state) alice (lit "abc")
     = Json 500 (BFailure (lit "Failed to fetch solution"))
  /\ get_solution (store solved_state) alice (lit "abc")
     <> Json 404 (BError (lit "Solution not found")).
Proof.
  vm_compute. repeat split. discriminate.
Qed.

Lemma has_pdf_true (d : Solution.doc) :
  has_pdf d = true <->
  exists b, Solution.solutionPdf d = Some b /\ b <> [].
Proof.
  unfold has_pdf. destruct (Solution.solutionPdf d) as [[|x b]|].
  - split; [discriminate | intros [b [H Hb]]; inversion H; subst; congruence].
  - split; [intros _; eexists; split; [reflexivity | discriminate] | auto].
  - split; [discriminate | intros [b [H _]]; discriminate].
Qed.

(** The route on a [solutionId] that is a well-formed [ObjectId]. *)
Lemma get_solution_pdf_cast (c : Solution.collection) (user : User.t)
        (solutionId : JsString) (oid : ObjectId) :
  castObjectId solutionId = Some oid ->
  ((forall d, In d c ->
              ~ (Solution._id d = oid /\ Solution.userId d = User._id user)) ->
   get_solution_pdf c user solutionId
   = Json 404 (BError (lit "Solution not found")))
  /\ (forall d,
         Solution.findOne (is_solution_of oid (User._id user)) c = Some d ->
         (Solution.status d <> completed \/ has_pdf d = false ->
          get_solution_pdf c user solutionId
          = Json 400 (BError (lit "Solution PDF not available")))
         /\ (Solution.status d = completed ->
             forall bytes, Solution.solutionPdf d = Some bytes ->
             bytes <> [] ->
             forallb validHeaderChar (pdf_disposition d) = true ->
             get_solution_pdf c user solutionId
             = Send (lit "application/pdf") (pdf_disposition d) bytes))
  /\ (forall contentType disposition payload,
         get_solution_pdf c user solutionId
         = Send contentType disposition payload ->
         contentType = lit "application/pdf"
         /\ payload <> []
         /\ exists d, In d c /\ Solution._id d = oid
                      /\ Solution.userId d = User._id user
                      /\ Solution.status d = completed
                      /\ Solution.solutionPdf d = Some payload).
Proof.
  intros Hcast. unfold get_solution_pdf, find_for_user. rewrite Hcast.
  destruct (Solution.findOne (is_solution_of oid (User._id user)) c)
    as [d|] eqn:Hfind.
  - destruct (findOne_some _ _ Hfind) as [Hin Hd].
    apply is_solution_of_true in Hd. destruct Hd as [Hid Hu].
    split; [intros Hnone; exfalso; exact (Hnone d Hin (conj Hid Hu))|].
    split.
    + intros d0 H0. inversion H0; subst d0. split.
      * intros [Hs | Hp].
        -- destruct (str_eqb (Solution.status d) completed) eqn:E;
             [apply str_eqb_eq in E; contradiction | reflexivity].
        -- rewrite Hp. rewrite orb_true_r. reflexivity.
      * intros Hs bytes Hb Hne Hh.
        rewrite Hs, str_eqb_refl.
        assert (has_pdf d = true) as ->
            by (apply has_pdf_true; exists bytes; auto).
        cbn [negb orb]. rewrite Hh, Hb. reflexivity.
    + intros ct cd payload.
      destruct (str_eqb (Solution.status d) completed) eqn:Es;
        [|cbn [negb orb]; discriminate].
      destruct (has_pdf d) eqn:Ep; [|cbn [negb orb]; discriminate].
      cbn [negb orb].
      destruct (forallb validHeaderChar (pdf_disposition d));
        [|discriminate].
      apply str_eqb_eq in Es. apply has_pdf_true in Ep.
      destruct Ep as [b [Hb Hne]]. rewrite Hb.
      intros H; inversion H; subst.
      split; [reflexivity|]. split; [exact Hne|]. exists d. auto.
  - split; [intros _; reflexivity|].
    split; [intros d H; discriminate | intros ct cd p H; discriminate].
Qed.

(** C6, as the code has it.  A [solutionId] that is not an [ObjectId] is
    answered 500 by the catch block.  For one that is: with no solution
    of that identifier and user the answer is 404; with one that is not
    ['completed'] or has no PDF bytes it is 400 ['Solution PDF not
    available']; with one that is ['completed'], has PDF bytes and a
    title that may stand in a header, the bytes are sent as
    [application/pdf].  Whatever the [solutionId], what is sent is the
    stored, non-empty PDF of a ['completed'] solution of the
    authenticated user that has the identifier asked for. *)
Theorem get_solution_pdf_spec (c : Solution.collection) (user : User.t)
        (solutionId : JsString) :
  (castObjectId solutionId = None ->
   get_solution_pdf c user solutionId
   = Json 500 (BFailure (lit "Failed to download solution PDF")))
  /\ (forall oid,
         castObjectId solutionId = Some oid ->
         ((forall d, In d c ->
                     ~ (Solution._id d = oid
                        /\ Solution.userId d = User._id user)) ->
          get_solution_pdf c user solutionId
          = Json 404 (BError (lit "Solution not found")))
         /\ (forall d,
                Solution.findOne (is_solution_of oid (User._id user)) c
                = Some d ->
                (Solution.status d <> completed \/ has_pdf d = false ->
                 get_solution_pdf c user solutionId
                 = Json 400 (BError (lit "Solution PDF not available")))
                /\ (Solution.status d = completed ->
                    forall bytes, Solution.solutionPdf d = Some bytes ->
                    bytes <> [] ->
                    forallb validHeaderChar (pdf_disposition d) = true ->
                    get_solution_pdf c user solutionId
                    = Send (lit "application/pdf") (pdf_disposition d)
                           bytes)))
  /\ (forall contentType disposition payload,
         get_solution_pdf c user solutionId
         = Send contentType disposition payload ->
         contentType = lit "application/pdf"
         /\ payload <> []
         /\ exists d, In d c
                      /\ castObjectId solutionId = Some (Solution._id d)
                      /\ Solution.userId d = User._id user
                      /\ Solution.status d = completed
                      /\ Solution.solutionPdf d = Some payload).
Proof.
  split; [|split].
  - intros Hcast. unfold get_solution_pdf, find_for_user. rewrite Hcast.
    reflexivity.
  - intros oid Hcast.
    destruct (@get_solution_pdf_cast c user solutionId oid Hcast)
      as [H1 [H2 _]].
    split; assumption.
  - intros ct cd payload Hsend.
    destruct (castObjectId solutionId) as [oid|] eqn:Hcast.
    + destruct (@get_solution_pdf_cast c user solutionId oid Hcast)
        as [_ [_ H3]].
      destruct (H3 ct cd payload Hsend)
        as [Hct [Hne [d [Hin [Hid [Hu [Hs Hp]]]]]]].
      split; [exact Hct|]. split; [exact Hne|].
      exists d. rewrite Hid. auto.
    + unfold get_solution_pdf, find_for_user in Hsend.
      rewrite Hcast in Hsend. discriminate.
Qed.

Lemma get_solution_pdf_spec_witness :
  get_solution_pdf (store solved_state) bob id0
  = Json 404 (BError (lit "Solution not found"))
  /\ get_solution_pdf (store failed_state) alice id0
     = Json 400 (BError (lit "Solution PDF not available"))
  /\ get_solution_pdf (store solved_state) alice id0
     = Send (lit "application/pdf") (pdf_disposition (oldest solved_state))
            (createSimplePdf iso0 (JStr (lit "x = 2")))
  /\ get_solution_pdf (store solved_state) bob (lit "abcd")
     = Json 500 (BFailure (lit "Failed to download solution PDF")).
Proof.
  split; [|split; [|split]].
  - apply (proj1 (proj1 (proj2 (get_solution_pdf_spec (store solved_state)
                                                      bob id0))
                        0%N eq_refl)).
    intros d [<- | []] [_ Hu]. discriminate Hu.
  - apply (proj1 (proj2 (proj1 (proj2 (get_solution_pdf_spec
                                         (store failed_state) alice id0))
                               0%N eq_refl)
                        (oldest failed_state) eq_refl)).
    right. reflexivity.
  - apply (proj2 (proj2 (proj1 (proj2 (get_solution_pdf_spec
                                         (store solved_state) alice id0))
                               0%N eq_refl)
                        (oldest solved_state) eq_refl));
      [reflexivity | reflexivity | discriminate | reflexivity].
  - apply (proj1 (get_solution_pdf_spec (store solved_state) bob
                                        (lit "abcd"))).
    reflexivity.
Defined.

(** C6 as it is stated fails for a [solutionId] that is not an
    [ObjectId]: it matches no solution, yet the answer is 500, not 404. *)
Lemma get_solution_pdf_malformed_id :
  castObjectId (lit "abc") = None
  /\ get_solution_pdf (store solved_state) alice (lit "abc")
     = Json 500 (BFailure (lit "Failed to download solution PDF"))
  /\ get_solution_pdf (store solved_state) alice (lit "abc")
     <> Json 404 (BError (lit "Solution not found")).
Proof.
  vm_compute. repeat split. discriminate.
Qed.

(** What C6 leaves out: a ['completed'] solution of the user with PDF
    bytes is not sent when its title holds a character that may not stand
    in a header (here a euro sign); [res.setHeader] throws and the answer
    is 500. *)
Lemma get_solution_pdf_title :
  Solution.userId (oldest euro_state) = User._id alice
  /\ castObjectId id0 = Some (Solution._id (oldest euro_state))
  /\ Solution.status (oldest euro_state) = completed
  /\ has_pdf (oldest euro_state) = true
  /\ get_solution_pdf (store euro_state) alice id0
     = Json 500 (BFailure (lit "Failed to download solution PDF")).
Proof.
  vm_compute. repeat split.
Qed.

(* ===================================================================== *)
(** * The history of a user *)
(* ===================================================================== *)

Lemma in_insert_desc (d y : Solution.doc) (l : list Solution.doc) :
  In y (Solution.insert_desc d l) <-> y = d \/ In y l.
Proof.
  induction l as [|x l IH]; simpl.
  - split; [intros [<- | []]; auto | intros [-> | []]; auto].
  - destruct (Z.ltb (Solution.solvedAt x) (Solution.solvedAt d)); simpl.
    + split; [intros [<- | [<- | H]]; auto | intros [-> | [-> | H]]; auto].
    + rewrite IH. split; [intros [<- | [-> | H]]; auto
                         | intros [-> | [-> | H]]; auto].
Qed.

Lemma in_sort_desc (y : Solution.doc) (l : list Solution.doc) :
  In y (Solution.sort_desc l) <-> In y l.
Proof.
  induction l as [|x l IH]; simpl; [tauto|].
  rewrite in_insert_desc, IH. split; [intros [-> | H] | intros [-> | H]]; auto.
Qed.

Lemma insert_desc_sorted (d : Solution.doc) (l : list Solution.doc) :
  StronglySorted newer_first l ->
  StronglySorted newer_first (Solution.insert_desc d l).
Proof.
  induction 1 as [|x l Hs IH Hall]; simpl.
  - constructor; constructor.
  - destruct (Z.ltb_spec (Solution.solvedAt x) (Solution.solvedAt d)).
    + constructor; [constructor; assumption|].
      constructor; [unfold newer_first; lia|].
      eapply Forall_impl; [|exact Hall]. unfold newer_first. intros; lia.
    + constructor; [exact IH|].
      rewrite Forall_forall in *. intros y Hy.
      apply in_insert_desc in Hy. destruct Hy as [-> | Hy]; auto.
Qed.

Lemma sort_desc_sorted (l : list Solution.doc) :
  StronglySorted newer_first (Solution.sort_desc l).
Proof.
  induction l as [|x l IH]; simpl; [constructor|].
  apply insert_desc_sorted. exact IH.
Qed.

Lemma in_firstn (k : nat) (l : list Solution.doc) (y : Solution.doc) :
  In y (firstn k l) -> In y l.
Proof.
  revert k; induction l as [|x l IH]; intros [|k]; simpl; try tauto.
  intros [-> | H]; eauto.
Qed.

Lemma firstn_sorted (k : nat) (l : list Solution.doc) :
  StronglySorted newer_first l -> StronglySorted newer_first (firstn k l).
Proof.
  intros H. revert k. induction H as [|x l Hs IH Hall]; intros [|k]; simpl;
    try constructor; auto.
  rewrite Forall_forall in *. intros y Hy. apply Hall.
  eapply in_firstn. exact Hy.
Qed.

Lemma map_without_pdf_sorted (l : list Solution.doc) :
  StronglySorted newer_first l ->
  StronglySorted newer_first (map Solution.without_pdf l).
Proof.
  induction 1 as [|x l Hs IH Hall]; simpl; constructor; auto.
  rewrite Forall_forall in *. intros y Hy.
  apply in_map_iff in Hy. destruct Hy as [z [<- Hz]].
  exact (Hall z Hz).
Qed.

(** C8, as the code has it.  For a limit above zero,
    [findUserSolutions] returns at most that many documents, each a
    document of the collection that belongs to the user, with
    [solutionPdf] removed, newest first.  [GET /solutions] asks for ten
    when the [limit] parameter is absent or [parseInt] makes nothing of
    it, and answers with the summaries of what was found. *)
Theorem findUserSolutions_spec (user : ObjectId) (n : Z)
        (c : Solution.collection) :
  (0 < n)%Z ->
  (Z.of_nat (List.length (Solution.findUserSolutions user n c)) <= n)%Z
  /\ Forall (fun d => Solution.userId d = user
                      /\ Solution.solutionPdf d = None
                      /\ exists d0, In d0 c /\ d = Solution.without_pdf d0)
            (Solution.findUserSolutions user n c)
  /\ StronglySorted newer_first (Solution.findUserSolutions user n c)
  /\ (forall (u : User.t) (param : option JsString),
         param = None \/ (exists s, param = Some s /\ parseInt s = None) ->
         query_limit param = 10%Z
         /\ get_solutions c u param
            = Json 200 (BSolutions
                          (map Solution.getSummary
                               (Solution.findUserSolutions (User._id u) 10 c)))).
Proof.
  intros Hn. unfold Solution.findUserSolutions, Solution.limit.
  destruct (Z.eqb_spec n 0) as [E|_]; [lia|].
  split.
  { rewrite length_map.
    pose proof (firstn_le_length (Z.abs_nat n)
                  (Solution.sort_desc
                     (filter (fun d => ObjectId_eqb (Solution.userId d) user) c))).
    rewrite length_firstn. lia. }
  split.
  { rewrite Forall_forall. intros d Hd.
    apply in_map_iff in Hd. destruct Hd as [d0 [<- Hd0]].
    apply in_firstn in Hd0. apply (proj1 (in_sort_desc _ _)) in Hd0.
    apply filter_In in Hd0. destruct Hd0 as [Hin Hu].
    apply N.eqb_eq in Hu. simpl. repeat split; auto. exists d0. auto. }
  split.
  { apply map_without_pdf_sorted, firstn_sorted, sort_desc_sorted. }
  intros u param Hp.
  assert (query_limit param = 10%Z) as Hq.
  { destruct Hp as [-> | [s [-> Hs]]]; unfold query_limit;
      [reflexivity | rewrite Hs; reflexivity]. }
  split; [exact Hq|]. unfold get_solutions. rewrite Hq. reflexivity.
Qed.

Lemma findUserSolutions_spec_witness :
  (Z.of_nat (List.length (Solution.findUserSolutions
                            7%N 1 (store failed_then_solved_state))) <= 1)%Z
  /\ query_limit (Some (lit "many")) = 10%Z.
Proof.
  destruct (findUserSolutions_spec 7%N (n := 1)
              (store failed_then_solved_state) eq_refl)
    as [Hlen [_ [_ Hroute]]].
  split; [exact Hlen|].
  apply (Hroute alice (Some (lit "many"))).
  right. exists (lit "many"). split; reflexivity.
Defined.

(** C8 as it is stated fails at the limit 0, which MongoDB reads as no
    limit: both solutions of the user are returned. *)
Lemma findUserSolutions_limit_zero :
  (0 <= 0)%Z
  /\ List.length (Solution.findUserSolutions
                    7%N 0 (store failed_then_solved_state)) = 2
  /\ ~ (Z.of_nat (List.length (Solution.findUserSolutions
                                 7%N 0 (store failed_then_solved_state)))
        <= 0)%Z.
Proof.
  split; [lia|].
  assert (List.length (Solution.findUserSolutions
                         7%N 0 (store failed_then_solved_state)) = 2) as E
      by (vm_compute; reflexivity).
  split; [exact E | rewrite E; lia].
Qed.

(* ===================================================================== *)
(** * The polling loop *)
(* ===================================================================== *)

Module PollFacts.
Import Dashboard.

(** With fuel for the calls that are left, [poll] ends, having made at
    most [maxAttempts] calls in all, each further one ten seconds after
    the one before. *)
Lemma poll_ends (getSolution : nat -> Fetched) (fuel made : nat) :
  made + fuel = maxAttempts -> 0 < fuel ->
  exists o, poll fuel getSolution made = Some o
            /\ made < attempts o <= maxAttempts
            /\ timers o = repeat 10000%Z (attempts o - S made).
Proof.
  revert made. induction fuel as [|fuel IH]; intros made Hsum Hpos; [lia|].
  assert (forall m, exists o,
             stop (S made) m = Some o
             /\ made < attempts o <= maxAttempts
             /\ timers o = repeat 10000%Z (attempts o - S made)) as Hstop.
  { intros m. eexists. split; [reflexivity|]. simpl.
    split; [lia|]. rewrite Nat.sub_diag. reflexivity. }
  assert (Nat.ltb (S made) maxAttempts = true ->
          exists o,
            after 10000 (poll fuel getSolution (S made)) = Some o
            /\ made < attempts o <= maxAttempts
            /\ timers o = repeat 10000%Z (attempts o - S made)) as Hagain.
  { intros Hlt. apply Nat.ltb_lt in Hlt.
    destruct (IH (S made)) as [o [Ho [Hb Ht]]]; [lia | lia|].
    rewrite Ho. eexists. split; [reflexivity|]. simpl. split; [lia|].
    rewrite Ht. replace (attempts o - S made) with (S (attempts o - S (S made)))
      by lia. reflexivity. }
  cbn [poll].
  destruct (getSolution (S made)) as [|[|] st].
  - destruct (Nat.ltb (S made) maxAttempts) eqn:E; [apply Hagain; reflexivity|].
    apply Hstop.
  - destruct (str_eqb st completed); [apply Hstop|].
    destruct (str_eqb st failed); [apply Hstop|].
    destruct (str_eqb st processing); cbn [andb].
    + destruct (Nat.ltb (S made) maxAttempts) eqn:E;
        [apply Hagain; reflexivity|].
      destruct (Nat.leb maxAttempts (S made)); apply Hstop.
    + destruct (Nat.leb maxAttempts (S made)); apply Hstop.
  - destruct (Nat.leb maxAttempts (S made)); apply Hstop.
Qed.

(** The loop always terminates, within thirty calls. *)
Lemma pollSolutionStatus_terminates (getSolution : nat -> Fetched) :
  exists o, pollSolutionStatus getSolution = Some o
            /\ 1 <= attempts o <= maxAttempts
            /\ timers o = schedule (attempts o).
Proof.
  destruct (@poll_ends getSolution maxAttempts 0)
    as [o [Ho [Hb Ht]]]; [reflexivity | unfold maxAttempts; lia|].
  unfold pollSolutionStatus. rewrite Ho.
  eexists. split; [reflexivity|]. simpl. split; [lia|].
  unfold schedule. rewrite Ht. reflexivity.
Qed.

(** It stops at the first call that finds the solution ['completed'] or
    ['failed'], with the matching banner. *)
Lemma poll_stops_when_settled (getSolution : nat -> Fetched)
      (fuel made : nat) (st : JsString) (m : Message) :
  getSolution (S made) = Resolved true st ->
  (st = completed /\ m = SolvedMessage) \/ (st = failed /\ m = FailedMessage) ->
  poll (S fuel) getSolution made = stop (S made) (Some m).
Proof.
  intros Hg [[-> ->] | [-> ->]]; simpl; rewrite Hg; reflexivity.
Qed.

(** When the thirtieth call still finds the solution ['processing'], the
    loop reports that solving takes longer than expected. *)
Lemma poll_reports_timeout :
  pollSolutionStatus never_done
  = Some {| attempts := 30; message := Some TakingLonger;
            timers := schedule 30 |}.
Proof. vm_compute. reflexivity. Qed.

(** C7, where the code departs from it.  When all thirty calls of
    [getSolution] are rejected (the server cannot be reached), the loop
    makes its thirty calls and stops, but the catch block, unlike the
    path that follows an answer, sets no banner: nothing reports that
    solving is taking longer than expected. *)
Theorem poll_silent_when_unreachable :
  pollSolutionStatus unreachable
  = Some {| attempts := maxAttempts; message := None;
            timers := schedule maxAttempts |}.
Proof. vm_compute. reflexivity. Qed.

End PollFacts.

(* ===================================================================== *)
(** * Further properties of the routes *)
(* ===================================================================== *)

Lemma fields_present_true (body : SolveBody) :
  fields_present body = true <->
  present (assignmentId body) = true /\ present (assignmentTitle body) = true
  /\ present (courseId body) = true /\ present (courseName body) = true.
Proof.
  unfold fields_present. rewrite !andb_true_iff. tauto.
Qed.

Lemma post_solve_rejects (env : Env) (t1 t2 : Z) (st : State)
      (user : User.t) (body : SolveBody) :
  fields_present body = false ->
  post_solve env t1 t2 st user body = (st, Json 400 (BError missing_fields)).
Proof.
  unfold fields_present, post_solve.
  destruct (present (assignmentId body)), (present (assignmentTitle body)),
    (present (courseId body)), (present (courseName body));
    simpl; try discriminate; reflexivity.
Qed.

Section Outcomes5.

Variable castString_other : JsValue -> option JsString.
Variable isAssignmentSolved_other :
  ObjectId -> JsValue -> Solution.collection -> option (option Solution.doc).

Lemma plain_text_truthy (v : JsValue) :
  plain_text v = true -> truthy v = true ->
  exists s, v = JStr s /\ s <> [].
Proof.
  destruct v as [| |b|x|s|l|l]; cbn [plain_text truthy];
    try discriminate;
    try (intros H1 H2; rewrite H2 in H1; discriminate).
  intros _ H. exists s. split; [reflexivity|].
  destruct s; [discriminate | discriminate].
Qed.

(** X1.  What [POST /solve] answers, for any JSON body: one of five
    answers, each only in its own situation.  400 ['Missing required
    fields'] is given only when one of the four required fields is
    missing or not truthy.  The already-solved answer is given only when
    the four fields are truthy and the duplicate check returned a
    solution, whose identifier it carries.  401 is given only when the
    four fields are truthy, the check found nothing and the user has no
    access token.  200 with an identifier and a status is given only
    when the four fields are truthy, the check found nothing and the
    user has a token; the identifier is the fresh one, the status is
    ['processing'], and exactly one validated ['processing'] document of
    the user has been appended under that identifier.  500 ['Failed to
    start assignment solving'] comes from the catch block, and never for
    a plain body: one whose required fields are strings (or missing) and
    whose materials are absent, [null] or an array of entries that are
    not [null] with plain Drive fields.  The state is the one given in
    every case but the started one. *)
Theorem post_solve_outcomes (env : Env) (t1 t2 : Z) (st : State)
        (user : User.t) (body : JsValue) :
  let answer :=
    post_solve_json castString_other isAssignmentSolved_other env t1 t2 st
                    user body in
  let st' := fst answer in
  let present4 :=
    exists a t c n m,
      body_fields body = Some (a, t, c, n, m)
      /\ truthy a && truthy t && truthy c && truthy n = true in
  let solved found :=
    exists a t c n m,
      body_fields body = Some (a, t, c, n, m)
      /\ isAssignmentSolved_cast isAssignmentSolved_other (User._id user) a
                                 (store st) = Some found in
  match snd answer with
  | Json 400 (BError e) =>
      e = missing_fields /\ st' = st
      /\ exists a t c n m,
           body_fields body = Some (a, t, c, n, m)
           /\ truthy a && truthy t && truthy c && truthy n = false
  | Json 200 (BAlreadySolved i) =>
      st' = st /\ present4
      /\ exists d, solved (Some d) /\ Solution._id d = i
  | Json 401 (BError _) =>
      st' = st /\ present4 /\ solved None /\ hasAccessToken user = false
  | Json 200 (BStarted i s) =>
      i = nextId st /\ s = processing
      /\ present4 /\ solved None /\ hasAccessToken user = true
      /\ nextId st' = N.succ (nextId st)
      /\ exists d,
           store st' = store st ++ [d]
           /\ Solution._id d = i /\ Solution.userId d = User._id user
           /\ Solution.status d = processing
           /\ Solution.validate d = true
  | Json 500 (BFailure e) =>
      e = lit "Failed to start assignment solving"
      /\ st' = st /\ plain_body body = false
  | _ => False
  end.
Proof.
  intros answer st' present4 solved.
  subst answer st' present4 solved. cbv beta.
  unfold post_solve_json, plain_body, body_fields.
  destruct (get_prop body (lit "assignmentId")) as [a|];
    [|cbn; repeat split].
  destruct (get_prop body (lit "assignmentTitle")) as [t|];
    [|cbn; repeat split].
  destruct (get_prop body (lit "courseId")) as [c|];
    [|cbn; repeat split].
  destruct (get_prop body (lit "courseName")) as [n|];
    [|cbn; repeat split].
  destruct (get_prop body (lit "materials")) as [m|];
    [|cbn; repeat split].
  destruct (truthy a) eqn:Ta;
    [|cbn [negb orb fst snd]; repeat split; exists a, t, c, n, m;
      (split; [reflexivity|]);
      rewrite ?Ta, ?Tt, ?Tc, ?Tn; reflexivity].
  destruct (truthy t) eqn:Tt;
    [|cbn [negb orb fst snd]; repeat split; exists a, t, c, n, m;
      (split; [reflexivity|]);
      rewrite ?Ta, ?Tt, ?Tc, ?Tn; reflexivity].
  destruct (truthy c) eqn:Tc;
    [|cbn [negb orb fst snd]; repeat split; exists a, t, c, n, m;
      (split; [reflexivity|]);
      rewrite ?Ta, ?Tt, ?Tc, ?Tn; reflexivity].
  destruct (truthy n) eqn:Tn;
    [|cbn [negb orb fst snd]; repeat split; exists a, t, c, n, m;
      (split; [reflexivity|]);
      rewrite ?Ta, ?Tt, ?Tc, ?Tn; reflexivity].
  cbn [negb orb].
  assert (exists a0 t0 c0 n0 m0,
             Some (a, t, c, n, m) = Some (a0, t0, c0, n0, m0)
             /\ truthy a0 && truthy t0 && truthy c0 && truthy n0 = true)
    as Hpresent.
  { exists a, t, c, n, m. rewrite Ta, Tt, Tc, Tn. auto. }
  destruct (isAssignmentSolved_cast isAssignmentSolved_other
              (User._id user) a (store st)) as [[x|]|] eqn:Hs.
  - cbn [fst snd]. split; [reflexivity|]. split; [exact Hpresent|].
    exists x. split; [|reflexivity]. exists a, t, c, n, m. auto.
  - assert (exists a0 t0 c0 n0 m0,
               Some (a, t, c, n, m) = Some (a0, t0, c0, n0, m0)
               /\ isAssignmentSolved_cast isAssignmentSolved_other
                    (User._id user) a0 (store st) = Some None) as Hnone.
    { exists a, t, c, n, m. auto. }
    destruct (hasAccessToken user) eqn:Htok; cbn [negb fst snd];
      [|repeat split; auto].
    destruct (materials_fields m) as [fields|] eqn:Hf.
    + destruct (cast_solution castString_other (nextId st) t1 user a t c n
                              fields) as [d|] eqn:Hd.
      * destruct (cast_solution_fresh _ _ _ _ _ _ _ _ _ Hd)
          as [Hid [Hu [Hst _]]].
        unfold Solution.insert.
        destruct (Solution.validate d) eqn:Hv; cbn [fst snd].
        -- rewrite store_after_start. cbn [store].
           split; [exact Hid|]. split; [reflexivity|].
           split; [exact Hpresent|]. split; [exact Hnone|].
           split; [reflexivity|].
           split.
           { unfold solveAssignmentAsync.
             destruct (present (GEMINI_API_KEY env)); reflexivity. }
           exists d. rewrite Hid. repeat split; auto.
        -- split; [reflexivity|]. split; [reflexivity|].
           destruct (plain_text a) eqn:Pa; [|reflexivity].
           destruct (plain_text t) eqn:Pt; [|reflexivity].
           destruct (plain_text c) eqn:Pc; [|reflexivity].
           destruct (plain_text n) eqn:Pn; [|reflexivity].
           exfalso.
           destruct (plain_text_truthy _ Pa Ta) as [sa [-> Ha]].
           destruct (plain_text_truthy _ Pt Tt) as [s_t [-> Ht]].
           destruct (plain_text_truthy _ Pc Tc) as [sc [-> Hc]].
           destruct (plain_text_truthy _ Pn Tn) as [sn [-> Hn]].
           unfold cast_solution in Hd. cbn [castString] in Hd.
           destruct (cast_materials castString_other fields) as [ms|];
             [|discriminate].
           inversion Hd; subst d.
           pose proof (started_solution_valid (nextId st) t1 user ms
                         Ha Ht Hc Hn) as Hv'.
           unfold started_solution in Hv'. rewrite Hv' in Hv.
           discriminate.
      * cbn [fst snd]. split; [reflexivity|]. split; [reflexivity|].
        destruct (plain_text a) eqn:Pa; [|reflexivity].
        destruct (plain_text t) eqn:Pt; [|reflexivity].
        destruct (plain_text c) eqn:Pc; [|reflexivity].
        destruct (plain_text n) eqn:Pn; [|reflexivity].
        cbn [andb].
        destruct (plain_materials m) as [ms|] eqn:Hm; [|reflexivity].
        exfalso.
        destruct (plain_text_truthy _ Pa Ta) as [sa [-> Ha]].
        destruct (plain_text_truthy _ Pt Tt) as [s_t [-> Ht]].
        destruct (plain_text_truthy _ Pc Tc) as [sc [-> Hc]].
        destruct (plain_text_truthy _ Pn Tn) as [sn [-> Hn]].
        destruct (@plain_materials_cast castString_other m ms Hm)
          as [fields' [Hf' Hcast]].
        rewrite Hf in Hf'. inversion Hf'; subst fields'.
        unfold cast_solution in Hd. cbn [castString] in Hd.
        rewrite Hcast in Hd. discriminate.
    + cbn [fst snd]. split; [reflexivity|]. split; [reflexivity|].
      destruct (plain_text a); [|reflexivity].
      destruct (plain_text t); [|reflexivity].
      destruct (plain_text c); [|reflexivity].
      destruct (plain_text n); [|reflexivity].
      cbn [andb].
      destruct (plain_materials m) as [ms|] eqn:Hm; [|reflexivity].
      destruct (@plain_materials_cast castString_other m ms Hm)
        as [fields' [Hf' _]].
      rewrite Hf in Hf'. discriminate.
  - cbn [fst snd]. split; [reflexivity|]. split; [reflexivity|].
    destruct (plain_text a) eqn:Pa; [|reflexivity].
    exfalso.
    destruct (plain_text_truthy _ Pa Ta) as [sa [-> Ha]].
    cbn [isAssignmentSolved_cast] in Hs. discriminate.
Qed.

End Outcomes5.

Lemma find_app_last (f : Solution.doc -> bool) (l : list Solution.doc)
      (d : Solution.doc) :
  (forall x, In x l -> f x = false) ->
  find f (l ++ [d]) = if f d then Some d else None.
Proof.
  induction l as [|x l IH]; intros H; simpl; [reflexivity|].
  rewrite (H x (or_introl eq_refl)). apply IH. intros y Hy. apply H. now right.
Qed.

(** In a reachable state no stored document has the next identifier. *)
Lemma Inv_next_unused (st : State) (d : Solution.doc) :
  Inv st -> In d (store st) -> N.eqb (Solution._id d) (nextId st) = false.
Proof.
  intros HI Hd. apply N.eqb_neq. intros E.
  pose proof (inv_below HI) as Hb. rewrite Forall_forall in Hb.
  specialize (Hb _ (in_map Solution._id _ _ Hd)). lia.
Qed.

Lemma findById_new (st : State) (d : Solution.doc) :
  Inv st -> Solution._id d = nextId st ->
  Solution.findById (nextId st) (store st ++ [d]) = Some d.
Proof.
  intros HI Hid. unfold Solution.findById, Solution.findOne.
  rewrite find_app_last.
  - unfold ObjectId_eqb. rewrite Hid, N.eqb_refl. reflexivity.
  - intros x Hx. apply Inv_next_unused; assumption.
Qed.


Section MissingKey.

Variable Buffer_from_object : JsValue -> option Buffer.
Variable castString_other : JsValue -> option JsString.
Variable isAssignmentSolved_other :
  ObjectId -> JsValue -> Solution.collection -> option (option Solution.doc).
Variable env : Env.

(** X2.  On a server without the API key, a request that passes the
    guards is stored and answered ['processing'] like any other, but no
    process is spawned; when the catch block of [solveAssignmentAsync]
    goes on, the solution is saved as ['failed'] with the text that
    names the missing variable and the time since the start, and
    nothing is left pending for it. *)
Theorem missing_key_fails (events : list Event) (st : State) (t1 t2 now : Z)
        (user : User.t) (body : SolveBody) :
  run Buffer_from_object castString_other isAssignmentSolved_other env init events = Some st ->
  present (GEMINI_API_KEY env) = false ->
  fields_present body = true ->
  hasAccessToken user = true ->
  Solution.isAssignmentSolved (User._id user) (text_of (assignmentId body))
                              (store st) = None ->
  let st1 := fst (post_solve env t1 t2 st user body) in
  snd (post_solve env t1 t2 st user body)
  = Json 200 (BStarted (nextId st) processing)
  /\ children st1 = children st
  /\ exists st2,
       step Buffer_from_object castString_other isAssignmentSolved_other env st1
            (CatchResumed (nextId st) now) = Some st2
       /\ Solution.findById (nextId st) (store st2)
          = Some (set_result (new_solution (nextId st) t1 user body)
                    (Some (lit "Solving failed: GEMINI_API_KEY not found in environment variables"))
                    None failed (now - t2)%Z)
       /\ children st2 = children st
       /\ ~ In (nextId st) (pending st2).
Proof.
  intros Hrun Hk Hf Ht Hs st1. subst st1.
  pose proof (run_inv _ _ _ _ events Inv_init Hrun) as HI.
  apply fields_present_true in Hf. destruct Hf as [H1 [H2 [H3 H4]]].
  rewrite (post_solve_accepted env t1 t2 st user body H1 H2 H3 H4 Ht Hs).
  cbn [fst snd]. unfold solveAssignmentAsync. rewrite Hk. cbn [children].
  split; [reflexivity|]. split; [reflexivity|].
  destruct (pending_unused HI) as [Hch Hca].
  cbn [step store caught children nextId].
  rewrite (@take_caught_last (nextId st) (caught st) _ Hca) by reflexivity.
  eexists. split; [reflexivity|]. cbn [store children].
  split; [|split; [reflexivity|]].
  - unfold onCaught. cbn [caught_solution caught_startTime caught_message].
    rewrite (@findById_new st (new_solution (nextId st) t1 user body) HI eq_refl).
    change (nextId st)
      with (Solution._id
              (set_result (new_solution (nextId st) t1 user body)
                 (Some (failure_text
                          (lit "GEMINI_API_KEY not found in environment variables")))
                 (Solution.solutionPdf
                    (new_solution (nextId st) t1 user body))
                 failed (now - t2)%Z)) at 1.
    apply save_or_log_saved
      with (old := new_solution (nextId st) t1 user body).
    + cbn [Solution._id set_result].
      apply (@findById_new st (new_solution (nextId st) t1 user body) HI eq_refl).
    + apply validate_set_result; [|simpl; auto].
      apply new_solution_valid; assumption.
  - unfold pending. cbn [children caught]. intros Hin.
    apply in_app_or in Hin. tauto.
Qed.

End MissingKey.

Lemma missing_key_fails_witness :
  exists st2,
    step rejects_buffer rejects_cast rejects_query unconfigured
         (fst (post_solve unconfigured 1000 1001 init alice homework))
         (CatchResumed 0%N 1002) = Some st2
    /\ Solution.findById 0%N (store st2)
       = Some (set_result (new_solution 0%N 1000 alice homework)
                 (Some (lit "Solving failed: GEMINI_API_KEY not found in environment variables"))
                 None failed 1%Z)
    /\ children st2 = []
    /\ ~ In 0%N (pending st2).
Proof.
  exact (proj2 (proj2 (missing_key_fails rejects_buffer rejects_cast
                         rejects_query unconfigured [] 1000 1001 1002
                         alice homework
                         eq_refl eq_refl eq_refl eq_refl eq_refl))).
Defined.

(* --------------------------------------------------------------------- *)
(** ** From the answer of [POST /solve] to the first poll *)
(* --------------------------------------------------------------------- *)

Lemma hexval_hexchar (d : N) : (d < 16)%N -> hexval (hexchar d) = Some d.
Proof.
  intros Hd. unfold hexchar, hexval, isDigit.
  destruct (N.ltb_spec d 10).
  - replace (N.leb 48 (48 + d)) with true by (symmetry; apply N.leb_le; lia).
    replace (N.leb (48 + d) 57) with true by (symmetry; apply N.leb_le; lia).
    cbn [andb]. f_equal. lia.
  - replace (N.leb (87 + d) 57) with false by (symmetry; apply N.leb_gt; lia).
    rewrite andb_false_r.
    replace (N.leb 97 (87 + d)) with true by (symmetry; apply N.leb_le; lia).
    replace (N.leb (87 + d) 102) with true by (symmetry; apply N.leb_le; lia).
    cbn [andb]. f_equal. lia.
Qed.

Lemma hex_digits_length (w : nat) (n : N) (rest : JsString) :
  List.length (hex_digits w n rest) = w + List.length rest.
Proof.
  revert n rest. induction w as [|w IH]; intros n rest; simpl; [reflexivity|].
  rewrite IH. simpl. lia.
Qed.

(** Reading back the digits that were written. *)
Lemma hex_number_digits (w : nat) (n a : N) (rest : JsString) :
  hex_number a (hex_digits w n rest)
  = hex_number (a * 16 ^ N.of_nat w + n mod 16 ^ N.of_nat w)%N rest.
Proof.
  revert n a rest. induction w as [|w IH]; intros n a rest.
  - cbn [hex_digits]. change (N.of_nat 0) with 0%N.
    rewrite N.pow_0_r, N.mod_1_r. f_equal. lia.
  - cbn [hex_digits]. rewrite IH. cbn [hex_number].
    rewrite hexval_hexchar by (apply N.mod_lt; lia).
    f_equal. rewrite Nnat.Nat2N.inj_succ, N.pow_succ_r'.
    rewrite (N.Div0.mod_mul_r n 16 (16 ^ N.of_nat w)). lia.
Qed.

(** The identifier survives the trip through its string. *)
Lemma ObjectId_round_trip (oid : ObjectId) :
  (oid < ObjectId_bound)%N ->
  castObjectId (ObjectId_toString oid) = Some oid.
Proof.
  intros Hb. unfold castObjectId, ObjectId_toString.
  rewrite hex_digits_length. cbn [Nat.add List.length Nat.eqb].
  rewrite hex_number_digits. cbn [hex_number].
  f_equal. rewrite N.mul_0_l, N.add_0_l. apply N.mod_small. exact Hb.
Qed.

Lemma findOne_new (st : State) (d : Solution.doc) (uid : ObjectId) :
  Inv st -> Solution._id d = nextId st ->
  Solution.findOne (is_solution_of (nextId st) uid) (store st ++ [d])
  = if ObjectId_eqb (Solution.userId d) uid then Some d else None.
Proof.
  intros HI Hid. unfold Solution.findOne. rewrite find_app_last.
  - unfold is_solution_of, ObjectId_eqb. rewrite Hid, N.eqb_refl. reflexivity.
  - intros x Hx. unfold is_solution_of, ObjectId_eqb.
    rewrite (@Inv_next_unused st x HI Hx). reflexivity.
Qed.

Section FirstPoll.

Variable Buffer_from_object : JsValue -> option Buffer.
Variable castString_other : JsValue -> option JsString.
Variable isAssignmentSolved_other :
  ObjectId -> JsValue -> Solution.collection -> option (option Solution.doc).
Variable env : Env.

(** X3.  The identifier that [POST /solve] answers leads back to the
    solution: sent as its 24 digits to [GET /solution/:solutionId] by the
    same user, right after the answer, it gives the new solution, still
    ['processing'], without text, with the title and course of the
    request; its PDF is not available yet (400); and any other user gets
    404 on both routes. *)
Theorem new_solution_is_found (events : list Event) (st : State) (t1 t2 : Z)
        (user other : User.t) (body : SolveBody) :
  run Buffer_from_object castString_other isAssignmentSolved_other env init events = Some st ->
  (nextId st < ObjectId_bound)%N ->
  fields_present body = true ->
  hasAccessToken user = true ->
  Solution.isAssignmentSolved (User._id user) (text_of (assignmentId body))
                              (store st) = None ->
  User._id other <> User._id user ->
  let c := store (fst (post_solve env t1 t2 st user body)) in
  let solutionId := ObjectId_toString (nextId st) in
  snd (post_solve env t1 t2 st user body)
  = Json 200 (BStarted (nextId st) processing)
  /\ get_solution c user solutionId
     = Json 200 (BSolution
                   {| view_id := nextId st;
                      view_assignmentTitle := text_of (assignmentTitle body);
                      view_courseName := text_of (courseName body);
                      view_status := processing;
                      view_solutionText := None;
                      view_solvedAt := t1;
                      view_processingTime := 0 |})
  /\ get_solution_pdf c user solutionId
     = Json 400 (BError (lit "Solution PDF not available"))
  /\ get_solution c other solutionId = not_found
  /\ get_solution_pdf c other solutionId = not_found.
Proof.
  intros Hrun Hb Hf Ht Hs Ho c solutionId. subst c solutionId.
  pose proof (run_inv _ _ _ _ events Inv_init Hrun) as HI.
  apply fields_present_true in Hf. destruct Hf as [H1 [H2 [H3 H4]]].
  rewrite (post_solve_accepted env t1 t2 st user body H1 H2 H3 H4 Ht Hs).
  cbn [fst snd]. rewrite store_after_start. cbn [store].
  split; [reflexivity|].
  unfold get_solution, get_solution_pdf, find_for_user.
  rewrite (ObjectId_round_trip Hb).
  rewrite !(@findOne_new st (new_solution (nextId st) t1 user body) _
                         HI eq_refl).
  cbn [Solution.userId new_solution]. unfold ObjectId_eqb.
  rewrite N.eqb_refl.
  replace (N.eqb (User._id user) (User._id other)) with false
    by (symmetry; apply N.eqb_neq; congruence).
  repeat split.
Qed.

End FirstPoll.

Lemma new_solution_is_found_witness :
  get_solution (store (fst (post_solve configured 1000 1001 init
                                       alice homework)))
               alice id0
  = Json 200 (BSolution
                {| view_id := 0%N;
                   view_assignmentTitle := lit "Homework 1";
                   view_courseName := lit "Algebra";
                   view_status := processing;
                   view_solutionText := None;
                   view_solvedAt := 1000;
                   view_processingTime := 0 |})
  /\ get_solution (store (fst (post_solve configured 1000 1001 init
                                          alice homework)))
                  bob id0
     = not_found.
Proof.
  destruct (new_solution_is_found rejects_buffer rejects_cast rejects_query configured
              [] 1000 1001 alice bob homework
              eq_refl eq_refl eq_refl eq_refl eq_refl)
    as [_ [Hget [_ [Hother _]]]].
  - discriminate.
  - split; [exact Hget | exact Hother].
Defined.

(* ===================================================================== *)
(** * What the server keeps true *)
(* ===================================================================== *)

Lemma outcome_saved (sol d' : Solution.doc) (c : Solution.collection) :
  Solution.findById (Solution._id sol) c = Some sol ->
  outcome_of sol d' ->
  writes_outcome (Solution._id sol) c (save_or_log d' c).
Proof.
  intros Hfind Ho. unfold save_or_log, Solution.update.
  destruct (Solution.validate d') eqn:Hv; [right | left; reflexivity].
  exists sol, d'. auto.
Qed.

Section Outcomes.

Variable Buffer_from_object : JsValue -> option Buffer.
Variable castString_other : JsValue -> option JsString.
Variable isAssignmentSolved_other :
  ObjectId -> JsValue -> Solution.collection -> option (option Solution.doc).
Variable env : Env.

Lemma onClose_writes (child : Child) (code : option Z)
      (out err : list JsString) (now : Z) (iso : JsString)
      (c : Solution.collection) :
  writes_outcome (child_solution child) c
    (onClose Buffer_from_object castString_other
             child code out err now iso c).
Proof.
  unfold onClose.
  destruct (Solution.findById (child_solution child) c) as [sol|] eqn:Hfind;
    [|left; reflexivity].
  pose proof (findById_some _ _ Hfind) as [_ Hid].
  rewrite <- Hid in Hfind |- *.
  destruct (exit_ok code && Solution.nonempty (trim (concat_chunks out))).
  - unfold on_success.
    destruct (get_prop _ (lit "pdfBytes")); [|left; reflexivity].
    destruct (get_prop _ (lit "solutionText")); [|left; reflexivity].
    destruct (castString _ _) as [stored|]; [|left; reflexivity].
    apply outcome_saved; [exact Hfind|].
    eexists _, _, _, _. split; [reflexivity|]. right. split; [reflexivity|].
    match goal with
    | |- context [match ?b with [] => _ | _ => _ end] =>
        destruct b as [|x b'] eqn:Eb
    end; [left; reflexivity|].
    right. eexists. split; [|reflexivity]. discriminate.
  - apply outcome_saved; [exact Hfind|].
    eexists _, _, _, _. split; [reflexivity|]. left.
    split; [reflexivity|]. split; [reflexivity|].
    eexists. reflexivity.
Qed.

Lemma onCaught_writes (k : Caught) (now : Z) (c : Solution.collection) :
  writes_outcome (caught_solution k) c (onCaught k now c).
Proof.
  unfold onCaught.
  destruct (Solution.findById (caught_solution k) c) as [sol|] eqn:Hfind;
    [|left; reflexivity].
  pose proof (findById_some _ _ Hfind) as [_ Hid].
  rewrite <- Hid in Hfind |- *.
  apply outcome_saved; [exact Hfind|].
  eexists _, _, _, _. split; [reflexivity|]. left.
  split; [reflexivity|]. split; [reflexivity|].
  eexists. reflexivity.
Qed.

(** The three things a step can do to the collection and to what is
    pending. *)
Lemma step_writes (st st' : State) (e : Event) :
  step Buffer_from_object castString_other isAssignmentSolved_other env st e = Some st' ->
  (store st' = store st /\ pending st' = pending st)
  \/ (exists d,
         Solution.validate d = true
         /\ Solution._id d = nextId st
         /\ Solution.status d = processing
         /\ Solution.solutionText d = None /\ Solution.solutionPdf d = None
         /\ Solution.processingTime d = 0%Z
         /\ store st' = store st ++ [d]
         /\ Permutation (nextId st :: pending st) (pending st'))
  \/ (exists i,
         In i (pending st)
         /\ writes_outcome i (store st) (store st')
         /\ incl (pending st') (pending st)).
Proof.
  destruct e as [t1 t2 user body | u sid | u sid | u lim
                 | i code out err now iso | i now | i]; cbn [step].
  - intros H; inversion H; subst; clear H.
    destruct (post_solve_json_cases castString_other
                isAssignmentSolved_other env t1 t2 st user body)
      as [-> | [d [Hv [Hid [_ [Hs [Ht [Hp [Hti ->]]]]]]]]];
      [left; auto|].
    right; left. exists d. cbn [fst].
    split; [exact Hv|]. split; [exact Hid|]. split; [exact Hs|].
    split; [exact Ht|]. split; [exact Hp|]. split; [exact Hti|].
    rewrite store_after_start. split; [reflexivity|].
    unfold solveAssignmentAsync, pending.
    destruct (present (GEMINI_API_KEY env)); cbn [children caught];
      rewrite map_app; cbn [map child_solution caught_solution].
    + rewrite <- app_assoc. apply Permutation_middle.
    + rewrite app_assoc. apply Permutation_cons_append.
  - intros H; inversion H; subst; left; auto.
  - intros H; inversion H; subst; left; auto.
  - intros H; inversion H; subst; left; auto.
  - destruct (take_child i (children st)) as [[child rest]|] eqn:Ht;
      [|discriminate].
    intros H; inversion H; subst; clear H.
    apply take_child_spec in Ht. destruct Ht as [Hc [l1 [l2 [Hl ->]]]].
    right; right. exists i. cbn [store].
    split; [|split].
    + unfold pending. rewrite Hl, map_app. cbn [map]. rewrite Hc.
      apply in_or_app; left. apply in_or_app; right. left; reflexivity.
    + rewrite <- Hc. apply onClose_writes.
    + unfold pending. cbn [children caught]. rewrite Hl, !map_app.
      cbn [map]. intros x Hx.
      apply in_app_or in Hx. destruct Hx as [Hx | Hx];
        [|apply in_or_app; right; exact Hx].
      apply in_app_or in Hx. apply in_or_app; left.
      apply in_or_app. cbn [In]. tauto.
  - destruct (take_caught i (caught st)) as [[k rest]|] eqn:Ht;
      [|discriminate].
    intros H; inversion H; subst; clear H.
    apply take_caught_spec in Ht. destruct Ht as [Hc [l1 [l2 [Hl ->]]]].
    right; right. exists i. cbn [store].
    split; [|split].
    + unfold pending. rewrite Hl, map_app. cbn [map]. rewrite Hc.
      apply in_or_app; right. apply in_or_app; right. left; reflexivity.
    + rewrite <- Hc. apply onCaught_writes.
    + unfold pending. cbn [children caught]. rewrite Hl, !map_app.
      cbn [map]. intros x Hx.
      apply in_app_or in Hx. destruct Hx as [Hx | Hx];
        [apply in_or_app; left; exact Hx|].
      apply in_app_or in Hx. apply in_or_app; right.
      apply in_or_app. cbn [In]. tauto.
  - destruct (take_child i (children st)) as [[child rest]|] eqn:Ht;
      [|discriminate].
    intros H; inversion H; subst; clear H.
    apply take_child_spec in Ht. destruct Ht as [Hc [l1 [l2 [Hl _]]]].
    right; right. exists i. cbn [store].
    split; [|split].
    + unfold pending. rewrite Hl, map_app. cbn [map]. rewrite Hc.
      apply in_or_app; left. apply in_or_app; right. left; reflexivity.
    + left. reflexivity.
    + intros x [].
Qed.

(** A property that holds at the start and that every step of a server
    satisfying the invariant keeps, holds in every state reached. *)
Lemma reachable_ind (P : State -> Prop) :
  P init ->
  (forall st e st',
      Inv st -> P st ->
      step Buffer_from_object castString_other isAssignmentSolved_other env st e = Some st' ->
      P st') ->
  forall events st,
    run Buffer_from_object castString_other isAssignmentSolved_other env init events = Some st ->
    P st.
Proof.
  intros H0 Hstep.
  assert (forall events st st',
             Inv st -> P st ->
             run Buffer_from_object castString_other isAssignmentSolved_other env st events = Some st' ->
             P st') as H.
  { induction events as [|e events IH]; intros st st' HI HP; cbn [run].
    - intros E; inversion E; subst; exact HP.
    - destruct (step Buffer_from_object castString_other isAssignmentSolved_other env st e)
        as [st1|] eqn:Hs; [|discriminate].
      apply IH; [eapply step_inv; eauto | eapply Hstep; eauto]. }
  intros events st Hrun. exact (H events init st Inv_init H0 Hrun).
Qed.

End Outcomes.

Lemma same_id_same_doc (c : Solution.collection) (x y : Solution.doc) :
  NoDup (map Solution._id c) -> In x c -> In y c ->
  Solution._id x = Solution._id y -> x = y.
Proof.
  induction c as [|z c IH]; cbn [map In]; [tauto|].
  intros Hnd Hx Hy E. inversion Hnd as [|? ? Hz Hc]; subst.
  destruct Hx as [-> | Hx], Hy as [-> | Hy]; auto.
  - exfalso. apply Hz. rewrite E. apply in_map. exact Hy.
  - exfalso. apply Hz. rewrite <- E. apply in_map. exact Hx.
Qed.

Lemma status_values_differ :
  processing <> completed /\ processing <> failed /\ completed <> failed.
Proof. repeat split; discriminate. Qed.

Lemma outcome_fits (sol d' : Solution.doc) :
  Solution.status sol = processing ->
  result_fits_status sol ->
  outcome_of sol d' ->
  result_fits_status d'.
Proof.
  intros Hs [Hp _] [text [pdf [st [time [-> Hcase]]]]].
  destruct (Hp Hs) as [_ [Hpdf _]].
  destruct status_values_differ as [Hpc [Hpf Hcf]].
  unfold result_fits_status. cbn [set_result Solution.status
    Solution.solutionText Solution.solutionPdf Solution.processingTime].
  destruct Hcase as [[-> [-> [detail ->]]] | [-> Hpdf']].
  - rewrite Hpdf. split; [|split; [|split]].
    + intros E. symmetry in E. contradiction.
    + intros _. split; [reflexivity|]. exists detail. reflexivity.
    + intros _. discriminate.
    + intros b E. discriminate.
  - split; [|split; [|split]].
    + intros E. symmetry in E. contradiction.
    + intros E. contradiction.
    + intros _. discriminate.
    + intros b E. split; [|reflexivity].
      destruct Hpdf' as [-> | [b' [Hb' ->]]].
      * rewrite Hpdf in E. discriminate.
      * inversion E; subst. exact Hb'.
Qed.

Lemma outcome_same_request (sol d' : Solution.doc) :
  outcome_of sol d' ->
  Solution._id d' = Solution._id sol /\ same_request sol d'.
Proof.
  intros [text [pdf [st [time [-> _]]]]].
  unfold same_request. cbn. repeat split.
Qed.

Section Kept.

Variable Buffer_from_object : JsValue -> option Buffer.
Variable castString_other : JsValue -> option JsString.
Variable isAssignmentSolved_other :
  ObjectId -> JsValue -> Solution.collection -> option (option Solution.doc).
Variable env : Env.

Abbreviation step := (step Buffer_from_object castString_other isAssignmentSolved_other env).
Abbreviation run := (run Buffer_from_object castString_other isAssignmentSolved_other env).

(** X4.  In every state the server reaches the result fields of a stored
    solution go with its status: a ['processing'] one has no text, no PDF
    and time 0; a ['failed'] one has no PDF and a text that starts with
    "Solving failed: "; a ['completed'] one has a text; and a solution
    that has a PDF is ['completed'] and the PDF is not empty. *)
Theorem stored_results_fit (events : list Event) (st : State) :
  run init events = Some st ->
  forall d, In d (store st) -> result_fits_status d.
Proof.
  revert events st.
  apply (@reachable_ind Buffer_from_object castString_other isAssignmentSolved_other env
           (fun st => forall d, In d (store st) -> result_fits_status d)).
  - intros d [].
  - intros st e st' HI HP Hs d Hd.
    destruct (step_writes _ _ _ _ _ _ Hs)
      as [[E _]
          | [[d0 [_ [_ [Hs0 [Ht0 [Hp0 [Hti0 [E _]]]]]]]]
            | [i [Hi [Hw _]]]]].
    + rewrite E in Hd. auto.
    + rewrite E in Hd. apply in_app_or in Hd.
      destruct Hd as [Hd | [<- | []]]; [auto|].
      destruct status_values_differ as [Hpc [Hpf _]].
      unfold result_fits_status. rewrite Hs0, Ht0, Hp0, Hti0.
      split; [|split; [|split]].
      * intros _. auto.
      * intros E'. contradiction.
      * intros E'. contradiction.
      * intros b E'. discriminate.
    + destruct Hw as [E | [sol [d' [Hfind [Ho [_ E]]]]]];
        rewrite E in Hd; [auto|].
      apply in_map_replace in Hd. destruct Hd as [-> | [Hd _]]; [|auto].
      pose proof (findById_some _ _ Hfind) as [Hin Hid].
      apply (@outcome_fits sol); auto.
      apply (inv_processing HI); [exact Hin | rewrite Hid; exact Hi].
Qed.

(** The documents of [c] are in [c'] with the same identifier and the
    same request fields. *)
Lemma writes_keep_request (i : ObjectId) (c c' : Solution.collection) :
  NoDup (map Solution._id c) ->
  writes_outcome i c c' ->
  forall d, In d c ->
    exists d', In d' c' /\ Solution._id d' = Solution._id d
               /\ same_request d d'.
Proof.
  intros Hnd [-> | [sol [d' [Hfind [Ho [_ ->]]]]]] d Hd.
  - exists d. unfold same_request. repeat split; auto.
  - pose proof (findById_some _ _ Hfind) as [Hin Hid].
    destruct (outcome_same_request Ho) as [Hid' Hsame].
    exists (Solution.replace d' d). split; [apply in_map; exact Hd|].
    unfold Solution.replace, ObjectId_eqb.
    destruct (N.eqb_spec (Solution._id d) (Solution._id d')) as [E | E].
    + assert (d = sol) as ->.
      { apply (@same_id_same_doc c); auto. congruence. }
      auto.
    + unfold same_request. repeat split; auto.
Qed.

(** X5.  The fields that [POST /solve] fills from the request and the
    clock are never written again: whatever happens after a state the
    server has reached, each stored solution is still stored under its
    identifier with the same user, assignment, title, course, start date
    and materials. *)
Theorem request_fields_kept (before later : list Event) (st st' : State) :
  run init before = Some st ->
  run st later = Some st' ->
  forall d, In d (store st) ->
    exists d', In d' (store st')
               /\ Solution._id d' = Solution._id d
               /\ same_request d d'.
Proof.
  intros Hb. pose proof (run_inv _ _ _ _ before Inv_init Hb) as HI.
  clear Hb. revert st st' HI.
  induction later as [|e later IH]; intros st st' HI; simpl.
  - intros E; inversion E; subst. intros d Hd. exists d.
    unfold same_request. repeat split; auto.
  - destruct (step st e) as [st1|] eqn:Hs; [|discriminate].
    intros Hr d Hd.
    assert (exists d1, In d1 (store st1)
                       /\ Solution._id d1 = Solution._id d
                       /\ same_request d d1) as [d1 [Hd1 [Hid1 Hs1]]].
    { destruct (step_writes _ _ _ _ _ _ Hs)
        as [[E _]
            | [[d0 [_ [_ [_ [_ [_ [_ [E _]]]]]]]] | [i [_ [Hw _]]]]].
      - exists d. rewrite E. unfold same_request. repeat split; auto.
      - exists d. rewrite E. unfold same_request.
        repeat split; auto. apply in_or_app; auto.
      - apply (writes_keep_request (inv_ids HI) Hw). exact Hd. }
    destruct (IH st1 st' (step_inv _ _ _ _ _ HI Hs) Hr d1 Hd1)
      as [d' [Hd' [Hid' Hs']]].
    exists d'. split; [exact Hd'|]. split; [congruence|].
    unfold same_request in *. intuition congruence.
Qed.

Lemma pending_stored (events : list Event) (st : State) :
  run init events = Some st ->
  forall i, In i (pending st) -> In i (map Solution._id (store st)).
Proof.
  revert events st.
  apply (@reachable_ind Buffer_from_object castString_other isAssignmentSolved_other env
           (fun st => forall i, In i (pending st) ->
                                In i (map Solution._id (store st)))).
  - intros i [].
  - intros st e st' HI HP Hs i Hi.
    destruct (step_writes _ _ _ _ _ _ Hs)
      as [[E Ep]
          | [[d0 [_ [Hid0 [_ [_ [_ [_ [E Ep]]]]]]]]
            | [j [_ [Hw Hincl]]]]].
    + rewrite E. rewrite Ep in Hi. auto.
    + rewrite E, map_app. apply in_or_app.
      apply (Permutation_in _ (Permutation_sym Ep)) in Hi.
      destruct Hi as [<- | Hi];
        [right; left; exact Hid0 | left; auto].
    + apply Hincl in Hi. apply HP in Hi.
      destruct Hw as [-> | [sol [d' [_ [_ [_ ->]]]]]]; [exact Hi|].
      rewrite map_replace_ids. exact Hi.
Qed.

(** X6.  In every state the server reaches, each solving still under way
    (a running solver process, or a catch block about to run) belongs to
    a stored solution that is still ['processing'], and no two belong to
    the same solution; so there are never more of them than
    ['processing'] solutions. *)
Theorem pending_are_processing (events : list Event) (st : State) :
  run init events = Some st ->
  NoDup (pending st)
  /\ (forall i, In i (pending st) ->
        exists d, Solution.findById i (store st) = Some d
                  /\ Solution.status d = processing)
  /\ List.length (pending st)
     <= List.length (filter is_processing (store st)).
Proof.
  intros Hrun.
  pose proof (run_inv _ _ _ _ events Inv_init Hrun) as HI.
  pose proof (pending_stored _ Hrun) as Hst.
  assert (forall i, In i (pending st) ->
            exists d, Solution.findById i (store st) = Some d
                      /\ Solution.status d = processing) as Hall.
  { intros i Hi. specialize (Hst i Hi). apply in_map_iff in Hst.
    destruct Hst as [x [Hx Hin]].
    destruct (@findOne_exists (fun d => ObjectId_eqb (Solution._id d) i)
                (store st) x Hin) as [d Hd].
    { unfold ObjectId_eqb. rewrite Hx. apply N.eqb_refl. }
    exists d. split; [exact Hd|].
    pose proof (findById_some _ _ Hd) as [Hdin Hdi].
    apply (inv_processing HI); [exact Hdin | rewrite Hdi; exact Hi]. }
  split; [apply (inv_pending HI)|]. split; [exact Hall|].
  rewrite <- (length_map Solution._id (filter is_processing (store st))).
  apply NoDup_incl_length; [apply (inv_pending HI)|].
  intros i Hi. destruct (Hall i Hi) as [d [Hd Hs]].
  pose proof (findById_some _ _ Hd) as [Hdin Hdi].
  rewrite <- Hdi. apply in_map. apply filter_In. split; [exact Hdin|].
  unfold is_processing. rewrite Hs. apply str_eqb_refl.
Qed.


End Kept.

Lemma stored_results_fit_witness :
  result_fits_status (oldest solved_state)
  /\ result_fits_status (oldest failed_without_key_state).
Proof.
  split.
  - apply (@stored_results_fit rejects_buffer rejects_cast rejects_query configured
             solved_once solved_state); [reflexivity | left; reflexivity].
  - apply (@stored_results_fit rejects_buffer rejects_cast rejects_query unconfigured
             failed_without_key failed_without_key_state);
      [reflexivity | left; reflexivity].
Defined.

Lemma request_fields_kept_witness :
  exists d',
    In d' (store solved_state)
    /\ Solution._id d'
       = Solution._id (new_solution 0%N 1000 alice homework)
    /\ same_request (new_solution 0%N 1000 alice homework) d'.
Proof.
  apply (@request_fields_kept rejects_buffer rejects_cast rejects_query configured
           [PostSolve 1000 1001 alice (body_json homework)]
           [ProcessClosed 0%N (Some 0%Z) [lit "x = 2"] [] 5000 iso0]
           (after_events configured [PostSolve 1000 1001 alice (body_json homework)])
           solved_state);
    [reflexivity | reflexivity | left; reflexivity].
Defined.

Lemma pending_are_processing_witness :
  let st := after_events configured
              [PostSolve 1000 1001 alice (body_json homework);
               PostSolve 1002 1003 alice (body_json homework);
               ProcessClosed 0%N (Some 0%Z) [lit "x = 2"] [] 5000 iso0] in
  pending st = [1%N]
  /\ NoDup (pending st)
  /\ (forall i, In i (pending st) ->
        exists d, Solution.findById i (store st) = Some d
                  /\ Solution.status d = processing)
  /\ List.length (pending st)
     <= List.length (filter is_processing (store st)).
Proof.
  intros st. split; [reflexivity|].
  apply (@pending_are_processing rejects_buffer rejects_cast rejects_query configured
           [PostSolve 1000 1001 alice (body_json homework);
            PostSolve 1002 1003 alice (body_json homework);
            ProcessClosed 0%N (Some 0%Z) [lit "x = 2"] [] 5000 iso0] st).
  reflexivity.
Defined.


(* ===================================================================== *)
(** * GET /solutions: which solutions are listed *)
(* ===================================================================== *)

Lemma insert_desc_perm (d : Solution.doc) (l : list Solution.doc) :
  Permutation (d :: l) (Solution.insert_desc d l).
Proof.
  induction l as [|x l IH]; cbn [Solution.insert_desc]; [reflexivity|].
  destruct (Z.ltb (Solution.solvedAt x) (Solution.solvedAt d));
    [reflexivity|].
  rewrite perm_swap. apply perm_skip. exact IH.
Qed.

Lemma sort_desc_perm (l : list Solution.doc) :
  Permutation l (Solution.sort_desc l).
Proof.
  induction l as [|d l IH]; [reflexivity|].
  change (Solution.sort_desc (d :: l))
    with (Solution.insert_desc d (Solution.sort_desc l)).
  rewrite <- insert_desc_perm. apply perm_skip. exact IH.
Qed.

Lemma sorted_split (k : nat) (l : list Solution.doc) :
  StronglySorted newer_first l ->
  forall x y, In x (firstn k l) -> In y (skipn k l) -> newer_first x y.
Proof.
  intros Hs. revert k. induction Hs as [|a l Hs IH Hall]; intros k x y.
  - rewrite firstn_nil. intros [].
  - destruct k as [|k]; cbn [firstn skipn In]; [intros []|].
    rewrite Forall_forall in Hall.
    intros [<- | Hx] Hy.
    + apply Hall. revert Hy. clear. revert l.
      induction k as [|k IHk]; intros l; [auto|].
      destruct l as [|b l]; cbn [skipn In]; auto.
    + exact (IH k x y Hx Hy).
Qed.

Lemma query_limit_nonzero (param : option JsString) :
  query_limit param <> 0%Z.
Proof.
  unfold query_limit. destruct (parseInt _) as [n|]; [|discriminate].
  destruct (Z.eqb_spec n 0); [discriminate | assumption].
Qed.

Lemma getSummary_without_pdf (d : Solution.doc) :
  Solution.getSummary (Solution.without_pdf d) = Solution.getSummary d.
Proof. reflexivity. Qed.

Lemma asks_for_limit (param : option JsString) (n : nat) :
  asks_for param n -> query_limit param = Z.of_nat n /\ 0 < n.
Proof.
  unfold asks_for, query_limit.
  intros [[-> ->] | [s [-> [[[H | H] ->] | [H [Hn _]]]]]].
  - split; [reflexivity | lia].
  - rewrite H. split; [reflexivity | lia].
  - rewrite H. split; [reflexivity | lia].
  - rewrite H. split; [|exact Hn].
    destruct (Z.eqb_spec (Z.of_nat n) 0); [lia | reflexivity].
Qed.

(** X8.  [GET /solutions] lists the newest solutions of the user, and as
    many as the limit allows.  When the [limit] parameter is absent, or
    [parseInt] reads it as [NaN] or as 0, ten are asked for; when
    [parseInt] reads it as a number from 1 to [2^31 - 1], that many.
    Then the user's solutions split into the ones listed and the rest;
    the number listed is the smaller of the number asked for and the
    number of the user's solutions; the list is newest first, and
    nothing left out is newer than anything listed. *)
Theorem get_solutions_newest (c : Solution.collection) (user : User.t)
        (param : option JsString) (n : nat) :
  asks_for param n ->
  let mine :=
    filter (fun d => ObjectId_eqb (Solution.userId d) (User._id user)) c in
  exists listed rest,
    get_solutions c user param
    = Json 200 (BSolutions (map Solution.getSummary listed))
    /\ Permutation (listed ++ rest) mine
    /\ List.length listed = Nat.min n (List.length mine)
    /\ StronglySorted newer_first listed
    /\ (forall x y, In x listed -> In y rest -> newer_first x y).
Proof.
  intros Hasks mine.
  destruct (asks_for_limit Hasks) as [Hq Hn].
  exists (firstn n (Solution.sort_desc mine)),
         (skipn n (Solution.sort_desc mine)).
  split.
  { unfold get_solutions, Solution.findUserSolutions, Solution.limit.
    fold mine. rewrite Hq.
    destruct (Z.eqb_spec (Z.of_nat n) 0) as [E|_]; [lia|].
    rewrite Zabs2Nat.id. rewrite map_map.
    rewrite (map_ext _ _ getSummary_without_pdf). reflexivity. }
  split.
  { rewrite firstn_skipn. symmetry. apply sort_desc_perm. }
  split.
  { rewrite length_firstn.
    rewrite <- (Permutation_length (sort_desc_perm mine)). reflexivity. }
  split; [apply firstn_sorted, sort_desc_sorted|].
  apply sorted_split, sort_desc_sorted.
Qed.

Lemma get_solutions_newest_witness :
  asks_for (Some (lit "1")) 1
  /\ asks_for None 10
  /\ exists listed rest,
       get_solutions (store failed_then_solved_state) alice (Some (lit "1"))
       = Json 200 (BSolutions (map Solution.getSummary listed))
       /\ Permutation (listed ++ rest)
                      (filter (fun d => ObjectId_eqb (Solution.userId d)
                                                     (User._id alice))
                              (store failed_then_solved_state))
       /\ List.length listed
          = Nat.min 1 (List.length
                         (filter (fun d => ObjectId_eqb (Solution.userId d)
                                                        (User._id alice))
                                 (store failed_then_solved_state)))
       /\ StronglySorted newer_first listed
       /\ (forall x y, In x listed -> In y rest -> newer_first x y).
Proof.
  assert (asks_for (Some (lit "1")) 1) as H1.
  { right. exists (lit "1"). split; [reflexivity|]. right.
    split; [reflexivity|]. split; [lia|]. cbn. lia. }
  split; [exact H1|]. split; [left; split; reflexivity|].
  exact (@get_solutions_newest (store failed_then_solved_state) alice
                               (Some (lit "1")) 1 H1).
Defined.

(* ===================================================================== *)
(** * The polling loop of the dashboard *)
(* ===================================================================== *)

Module PollOutcome.
Import Dashboard.

Lemma banner_fits_after (getSolution : nat -> Fetched) (delay : Z)
      (o : Outcome) :
  banner_fits getSolution o ->
  banner_fits getSolution
    {| attempts := attempts o; message := message o;
       timers := delay :: timers o |}.
Proof. intros H. exact H. Qed.

Lemma banner_none (getSolution : nat -> Fetched) (n : nat) :
  getSolution n = Rejected
  \/ (n <> maxAttempts
      /\ exists ok s, getSolution n = Resolved ok s
                      /\ (ok = false \/ (s <> completed /\ s <> failed))) ->
  banner_fits getSolution {| attempts := n; message := None; timers := [] |}.
Proof.
  intros H. unfold banner_fits. cbn [attempts message].
  split; [|split]; (split; [discriminate|]).
  - intros E. rewrite E in H.
    destruct H as [H | [_ [ok [s [H [-> | [Hc _]]]]]]];
      try discriminate. exfalso. apply Hc. congruence.
  - intros E. rewrite E in H.
    destruct H as [H | [_ [ok [s [H [-> | [_ Hf]]]]]]];
      try discriminate. exfalso. apply Hf. congruence.
  - intros [Hn [ok [s [E _]]]]. rewrite E in H.
    destruct H as [H | [Hm _]]; [discriminate | contradiction].
Qed.

Lemma banner_longer (getSolution : nat -> Fetched) (ok : bool)
      (s : JsString) :
  getSolution maxAttempts = Resolved ok s ->
  ok = false \/ (s <> completed /\ s <> failed) ->
  banner_fits getSolution
    {| attempts := maxAttempts; message := Some TakingLonger; timers := [] |}.
Proof.
  intros E H. unfold banner_fits. cbn [attempts message]. rewrite E.
  split; [|split].
  - split; [discriminate|]. intros E'.
    destruct H as [-> | [H _]]; [discriminate | exfalso; apply H; congruence].
  - split; [discriminate|]. intros E'.
    destruct H as [-> | [_ H]]; [discriminate | exfalso; apply H; congruence].
  - split; [|reflexivity]. intros _. split; [reflexivity|].
    exists ok, s. auto.
Qed.

Lemma banner_settled (getSolution : nat -> Fetched) (n : nat)
      (s : JsString) (m : Message) :
  getSolution n = Resolved true s ->
  (s = completed /\ m = SolvedMessage) \/ (s = failed /\ m = FailedMessage) ->
  banner_fits getSolution {| attempts := n; message := Some m; timers := [] |}.
Proof.
  destruct status_values_differ as [_ [_ Hcf]].
  intros E H. unfold banner_fits. cbn [attempts message]. rewrite E.
  destruct H as [[-> ->] | [-> ->]].
  - split; [|split].
    + split; reflexivity.
    + split; [discriminate|]. intros E'. exfalso. apply Hcf. congruence.
    + split; [discriminate|]. intros [_ [ok [s [E' [-> | [Hc _]]]]]].
      * discriminate.
      * exfalso. apply Hc. congruence.
  - split; [|split].
    + split; [discriminate|]. intros E'. exfalso. apply Hcf. congruence.
    + split; reflexivity.
    + split; [discriminate|]. intros [_ [ok [s [E' [-> | [_ Hf]]]]]].
      * discriminate.
      * exfalso. apply Hf. congruence.
Qed.

(** The loop from [made] calls on, with fuel for the calls that are
    left. *)
Lemma poll_outcome (getSolution : nat -> Fetched) (fuel made : nat) :
  made + fuel = maxAttempts -> 0 < fuel ->
  exists o, poll fuel getSolution made = Some o
            /\ made < attempts o <= maxAttempts
            /\ timers o = repeat 10000%Z (attempts o - S made)
            /\ (forall k, made < k < attempts o ->
                          asks_again (getSolution k))
            /\ (attempts o < maxAttempts ->
                ~ asks_again (getSolution (attempts o)))
            /\ banner_fits getSolution o.
Proof.
  revert made. induction fuel as [|fuel IH]; intros made Hsum Hpos; [lia|].
  assert (forall m,
             (S made < maxAttempts -> ~ asks_again (getSolution (S made))) ->
             banner_fits getSolution
               {| attempts := S made; message := m; timers := [] |} ->
             exists o,
               stop (S made) m = Some o
               /\ made < attempts o <= maxAttempts
               /\ timers o = repeat 10000%Z (attempts o - S made)
               /\ (forall k, made < k < attempts o ->
                             asks_again (getSolution k))
               /\ (attempts o < maxAttempts ->
                   ~ asks_again (getSolution (attempts o)))
               /\ banner_fits getSolution o) as Hstop.
  { intros m Hlast Hb. eexists. split; [reflexivity|].
    cbn [attempts timers]. split; [lia|].
    split; [rewrite Nat.sub_diag; reflexivity|].
    split; [intros k Hk; lia|]. split; [exact Hlast | exact Hb]. }
  assert (Nat.ltb (S made) maxAttempts = true ->
          asks_again (getSolution (S made)) ->
          exists o,
            after 10000 (poll fuel getSolution (S made)) = Some o
            /\ made < attempts o <= maxAttempts
            /\ timers o = repeat 10000%Z (attempts o - S made)
            /\ (forall k, made < k < attempts o ->
                          asks_again (getSolution k))
            /\ (attempts o < maxAttempts ->
                ~ asks_again (getSolution (attempts o)))
            /\ banner_fits getSolution o) as Hagain.
  { intros Hlt Hthis. apply Nat.ltb_lt in Hlt.
    destruct (IH (S made)) as [o [Ho [Hb [Ht [Hk [Hl Hf]]]]]]; [lia | lia|].
    rewrite Ho. eexists. split; [reflexivity|].
    cbn [attempts timers message]. split; [lia|].
    split.
    { rewrite Ht.
      replace (attempts o - S made) with (S (attempts o - S (S made)))
        by lia. reflexivity. }
    split.
    { intros k Hkk. destruct (Nat.eq_dec k (S made)) as [-> | Hne];
        [exact Hthis | apply Hk; lia]. }
    split; [exact Hl | apply banner_fits_after; exact Hf]. }
  assert (made < maxAttempts) as Hmade by lia.
  cbn [poll].
  destruct (getSolution (S made)) as [|[|] st] eqn:Hg.
  - destruct (Nat.ltb (S made) maxAttempts) eqn:E.
    + apply Hagain; [reflexivity | left; reflexivity].
    + apply Nat.ltb_ge in E. apply Hstop; [lia|].
      apply banner_none. left. exact Hg.
  - destruct (str_eqb st completed) eqn:Ec.
    { apply str_eqb_eq in Ec. apply Hstop.
      - intros _ [H | H]; [discriminate|].
        apply (proj1 status_values_differ). congruence.
      - eapply banner_settled; [exact Hg | left; auto]. }
    destruct (str_eqb st failed) eqn:Ef.
    { apply str_eqb_eq in Ef. apply Hstop.
      - intros _ [H | H]; [discriminate|].
        apply (proj1 (proj2 status_values_differ)). congruence.
      - eapply banner_settled; [exact Hg | right; auto]. }
    assert (st <> completed) as Hnc.
    { intros H. apply str_eqb_eq in H. congruence. }
    assert (st <> failed) as Hnf.
    { intros H. apply str_eqb_eq in H. congruence. }
    destruct (str_eqb st processing) eqn:Ep; cbn [andb].
    + apply str_eqb_eq in Ep. subst st.
      destruct (Nat.ltb (S made) maxAttempts) eqn:E;
        [apply Hagain; [reflexivity | right; reflexivity]|].
      apply Nat.ltb_ge in E.
      assert (S made = maxAttempts) as Hm by lia.
      replace (Nat.leb maxAttempts (S made)) with true
        by (symmetry; apply Nat.leb_le; lia).
      apply Hstop; [lia|]. rewrite Hm in Hg |- *.
      eapply banner_longer; [exact Hg | right; auto].
    + assert (~ asks_again (Resolved true st)) as Hno.
      { intros [H | H]; [discriminate|].
        assert (st = processing) as Hp by congruence.
        rewrite Hp, str_eqb_refl in Ep. discriminate. }
      destruct (Nat.leb maxAttempts (S made)) eqn:E.
      * apply Nat.leb_le in E.
        assert (S made = maxAttempts) as Hm by lia.
        apply Hstop; [lia|]. rewrite Hm in Hg |- *.
        eapply banner_longer; [exact Hg | right; auto].
      * apply Nat.leb_gt in E. apply Hstop; [intros _; exact Hno|].
        apply banner_none. right. split; [lia|].
        exists true, st. auto.
  - assert (~ asks_again (Resolved false st)) as Hno.
    { intros [H | H]; discriminate. }
    destruct (Nat.leb maxAttempts (S made)) eqn:E.
    + apply Nat.leb_le in E.
      assert (S made = maxAttempts) as Hm by lia.
      apply Hstop; [lia|]. rewrite Hm in Hg |- *.
      eapply banner_longer; [exact Hg | left; reflexivity].
    + apply Nat.leb_gt in E. apply Hstop; [intros _; exact Hno|].
      apply banner_none. right. split; [lia|].
      exists false, st. auto.
Qed.

(** X9.  What [pollSolutionStatus] does, for every way the server may
    answer.  The loop ends after at most thirty calls of [getSolution],
    the first after five seconds and each further one ten seconds after
    the one before.  Every call before the last was rejected or found
    the solution ['processing']; when the loop ends before the thirtieth
    call, the last call was neither.  The success banner is set exactly
    when the last call found the solution ['completed'], the failure
    banner exactly when it found it ['failed'], and the banner about
    taking longer exactly when the thirtieth call was answered with
    anything else. *)
Theorem pollSolutionStatus_outcome (getSolution : nat -> Fetched) :
  exists o,
    pollSolutionStatus getSolution = Some o
    /\ 1 <= attempts o <= maxAttempts
    /\ timers o = schedule (attempts o)
    /\ (forall k, 1 <= k < attempts o -> asks_again (getSolution k))
    /\ (attempts o < maxAttempts ->
        ~ asks_again (getSolution (attempts o)))
    /\ banner_fits getSolution o.
Proof.
  destruct (@poll_outcome getSolution maxAttempts 0)
    as [o [Ho [Hb [Ht [Hk [Hl Hf]]]]]];
    [reflexivity | unfold maxAttempts; lia|].
  unfold pollSolutionStatus. rewrite Ho.
  eexists. split; [reflexivity|]. cbn [attempts timers message].
  split; [lia|]. split; [unfold schedule; rewrite Ht; reflexivity|].
  split; [intros k Hkk; apply Hk; lia|].
  split; [exact Hl | apply banner_fits_after; exact Hf].
Qed.

End PollOutcome.

(* ===================================================================== *)
(** * From the solver's output to the download *)
(* ===================================================================== *)

Lemma findOne_of_findById (c : Solution.collection) (i uid : ObjectId)
      (d : Solution.doc) :
  Solution.findById i c = Some d ->
  Solution.userId d = uid ->
  Solution.findOne (is_solution_of i uid) c = Some d.
Proof.
  unfold Solution.findById, Solution.findOne, is_solution_of.
  intros Hfind Hu. induction c as [|x c IH]; [discriminate|].
  cbn [find] in Hfind |- *. cbv beta in Hfind |- *.
  destruct (ObjectId_eqb (Solution._id x) i) eqn:E.
  - inversion Hfind; subst x. cbn [andb]. unfold ObjectId_eqb.
    rewrite Hu, N.eqb_refl. reflexivity.
  - cbn [andb]. exact (IH Hfind).
Qed.

Lemma hex_decode_nonempty (hex : JsString) :
  hex_decode hex <> [] -> truthy (JStr hex) = true.
Proof. destruct hex; [intros H; contradiction H; reflexivity | reflexivity]. Qed.

Section Download.

Variable Buffer_from_object : JsValue -> option Buffer.
Variable castString_other : JsValue -> option JsString.
Variable isAssignmentSolved_other :
  ObjectId -> JsValue -> Solution.collection -> option (option Solution.doc).
Variable env : Env.

Abbreviation step := (step Buffer_from_object castString_other isAssignmentSolved_other env).
Abbreviation run := (run Buffer_from_object castString_other isAssignmentSolved_other env).

Lemma pending_found (events : list Event) (st : State) (i : ObjectId) :
  run init events = Some st ->
  In i (pending st) ->
  exists d, Solution.findById i (store st) = Some d
            /\ Solution.status d = processing
            /\ Solution.validate d = true.
Proof.
  intros Hrun Hi.
  pose proof (run_inv _ _ _ _ events Inv_init Hrun) as HI.
  pose proof (pending_stored _ _ _ _ _ Hrun i Hi) as Hst.
  apply in_map_iff in Hst. destruct Hst as [x [Hx Hin]].
  destruct (@findOne_exists (fun d => ObjectId_eqb (Solution._id d) i)
              (store st) x Hin) as [d Hd].
  { unfold ObjectId_eqb. rewrite Hx. apply N.eqb_refl. }
  exists d. split; [exact Hd|].
  pose proof (findById_some _ _ Hd) as [Hdin Hdi].
  split.
  - apply (inv_processing HI); [exact Hdin | rewrite Hdi; exact Hi].
  - pose proof (inv_valid HI) as Hv. rewrite Forall_forall in Hv. auto.
Qed.

(** The decoder reads the low byte of each code unit: ['12'] followed by
    U+0131 U+0132 decodes to the two bytes [0x12 0x12], and decoding
    stops at the first pair that is not two digits. *)
Example hex_decode_low_byte :
  hex_decode [49; 50; 305; 306]%N = [18; 18]%N
  /\ hex_decode (lit "25zz44") = [37%N].
Proof. split; reflexivity. Qed.

(** X10.  From the solver's output to the download.  In a state the
    server has reached, let the process of solution [i] close with exit
    code 0 and an output that is a JSON object whose [solutionText] is a
    non-empty string and whose [pdfBytes] is a string that
    [Buffer.from(..., 'hex')] decodes to at least one byte.  Then the
    solution was ['processing'] and is saved as ['completed'] with that
    text, the
    decoded bytes as its PDF and the time since the process started; its
    owner then gets that text from [GET /solution/:solutionId] and, when
    the title may stand in a header, exactly the decoded bytes, as
    [application/pdf], from [GET /solution/:solutionId/pdf]. *)
Theorem solver_pdf_is_downloaded (events : list Event) (st st' : State)
        (i : ObjectId) (out err : list JsString) (now : Z) (iso : JsString)
        (v : JsValue) (s hex : JsString) :
  run init events = Some st ->
  step st (ProcessClosed i (Some 0%Z) out err now iso) = Some st' ->
  Solution.nonempty (trim (concat_chunks out)) = true ->
  JSON_parse (concat_chunks out) = Some v ->
  get_prop v (lit "solutionText") = Some (JStr s) ->
  s <> [] ->
  get_prop v (lit "pdfBytes") = Some (JStr hex) ->
  hex_decode hex <> [] ->
  (i < ObjectId_bound)%N ->
  exists d child,
    Solution.findById i (store st) = Some d
    /\ Solution.status d = processing
    /\ In child (children st) /\ child_solution child = i
    /\ let d' := set_result d (Some s) (Some (hex_decode hex)) completed
                            (now - child_startTime child) in
       Solution.findById i (store st') = Some d'
       /\ forall user : User.t,
            Solution.userId d = User._id user ->
            get_solution (store st') user (ObjectId_toString i)
            = Json 200 (BSolution (view_of d'))
            /\ (forallb validHeaderChar (pdf_disposition d) = true ->
                get_solution_pdf (store st') user (ObjectId_toString i)
                = Send (lit "application/pdf") (pdf_disposition d)
                       (hex_decode hex)).
Proof.
  intros Hrun Hstep Hn Hparse Htext Hs Hpdf Hb Hi.
  unfold step in Hstep.
  destruct (take_child i (children st)) as [[child rest]|] eqn:Ht;
    [|discriminate].
  inversion Hstep; subst st'; clear Hstep. cbn [store].
  apply take_child_spec in Ht. destruct Ht as [Hc [l1 [l2 [Hl _]]]].
  assert (In child (children st)) as Hchild.
  { rewrite Hl. apply in_or_app. right. left. reflexivity. }
  assert (In i (pending st)) as Hp.
  { unfold pending. apply in_or_app. left. rewrite <- Hc.
    apply in_map. exact Hchild. }
  destruct (@pending_found events st i Hrun Hp) as [d [Hfind [Hst Hv]]].
  exists d, child. split; [exact Hfind|]. split; [exact Hst|].
  split; [exact Hchild|]. split; [exact Hc|].
  pose proof (findById_some _ _ Hfind) as [_ Hid].
  assert (Solution.findById i
            (onClose Buffer_from_object castString_other child (Some 0%Z)
                     out err now iso (store st))
          = Some (set_result d (Some s) (Some (hex_decode hex)) completed
                             (now - child_startTime child))) as Hsaved.
  { unfold onClose. rewrite Hc, Hfind, Hn. cbn [exit_ok Z.eqb andb].
    unfold on_success, parse_output. rewrite Hparse, Hpdf, Htext.
    rewrite (@hex_decode_nonempty hex Hb).
    unfold or_else. cbn [truthy].
    destruct s as [|c0 s0]; [contradiction Hs; reflexivity|].
    cbn [castString Buffer_from_hex].
    destruct (hex_decode hex) as [|b0 bs] eqn:Eb;
      [contradiction Hb; reflexivity|].
    rewrite <- Hid at 1.
    apply (save_or_log_saved
             (set_result d (Some (c0 :: s0)) (Some (b0 :: bs)) completed
                         (now - child_startTime child)) (old := d)).
    - cbn [Solution._id set_result]. rewrite Hid. exact Hfind.
    - apply validate_set_result; [exact Hv|].
      right; left; reflexivity. }
  cbv zeta. split; [exact Hsaved|].
  intros user Hu.
  assert (Solution.findOne (is_solution_of i (User._id user))
            (onClose Buffer_from_object castString_other child (Some 0%Z)
                     out err now iso (store st))
          = Some (set_result d (Some s) (Some (hex_decode hex)) completed
                             (now - child_startTime child))) as Hone.
  { apply findOne_of_findById; [exact Hsaved | exact Hu]. }
  split.
  - unfold get_solution, find_for_user.
    rewrite (@ObjectId_round_trip i Hi), Hone. reflexivity.
  - intros Hh. unfold get_solution_pdf, find_for_user.
    rewrite (@ObjectId_round_trip i Hi), Hone.
    cbn [set_result Solution.status].
    rewrite str_eqb_refl. cbn [negb orb].
    unfold has_pdf. cbn [set_result Solution.solutionPdf].
    destruct (hex_decode hex) as [|b0 bs] eqn:Eb;
      [contradiction Hb; reflexivity|].
    cbn [negb].
    change (pdf_disposition (set_result d (Some s) (Some (b0 :: bs))
                                        completed
                                        (now - child_startTime child)))
      with (pdf_disposition d).
    rewrite Hh. reflexivity.
Qed.

End Download.

Lemma solver_pdf_is_downloaded_witness :
  exists d child,
    Solution.findById 0%N (store started_state) = Some d
    /\ Solution.status d = processing
    /\ In child (children started_state) /\ child_solution child = 0%N
    /\ let d' := set_result d (Some (lit "x = 2"))
                            (Some (hex_decode (lit "255044462d"))) completed
                            (5000 - child_startTime child) in
       Solution.findById 0%N (store answered_state) = Some d'
       /\ forall user : User.t,
            Solution.userId d = User._id user ->
            get_solution (store answered_state) user
                         (ObjectId_toString 0%N)
            = Json 200 (BSolution (view_of d'))
            /\ (forallb validHeaderChar (pdf_disposition d) = true ->
                get_solution_pdf (store answered_state) user
                                 (ObjectId_toString 0%N)
                = Send (lit "application/pdf") (pdf_disposition d)
                       (hex_decode (lit "255044462d"))).
Proof.
  apply (@solver_pdf_is_downloaded rejects_buffer rejects_cast
           rejects_query configured
           [PostSolve 1000 1001 alice (body_json homework)]
           started_state answered_state 0%N [solver_answer] [] 5000 iso0
           (JObj [(lit "solutionText", JStr (lit "x = 2"));
                  (lit "pdfBytes", JStr (lit "255044462d"))])
           (lit "x = 2") (lit "255044462d"));
    try (vm_compute; reflexivity); vm_compute; discriminate.
Defined.

(* ===================================================================== *)
(** * The dashboard's badges and lists *)
(* ===================================================================== *)

Ltac by_status a :=
  unfold getStatusText, getStatusColor;
  destruct (Assignment.isSolved a);
  destruct (Assignment.isOverdue a);
  destruct (str_eqb (Assignment.submissionState a) (lit "TURNED_IN"));
  destruct (str_eqb (Assignment.submissionState a) (lit "RETURNED"));
  destruct (str_eqb (Assignment.submissionState a) (lit "CREATED"));
  destruct (str_eqb (Assignment.submissionState a) (lit "NEW"));
  destruct (str_eqb (Assignment.state a) (lit "TURNED_IN"));
  destruct (str_eqb (Assignment.state a) (lit "CREATED"));
  destruct (str_eqb (Assignment.state a) (lit "ASSIGNED")).

Lemma getStatusText_label (a : Assignment.t) :
  In (getStatusText a) badge_labels.
Proof.
  unfold getStatusText, badge_labels.
  destruct (Assignment.isSolved a).
  - destruct (str_eqb _ (lit "TURNED_IN")); [left; reflexivity|].
    destruct (str_eqb _ (lit "RETURNED")); [right; left; reflexivity|].
    right; right; left; reflexivity.
  - destruct (Assignment.isOverdue a);
      [right; right; right; left; reflexivity|].
    destruct (str_eqb _ (lit "CREATED"));
      [right; right; right; right; left; reflexivity|].
    destruct (str_eqb _ (lit "NEW"));
      [right; right; right; right; right; left; reflexivity|].
    destruct (str_eqb _ (lit "TURNED_IN")); [left; reflexivity|].
    destruct (str_eqb _ (lit "CREATED"));
      [right; right; right; right; left; reflexivity|].
    destruct (str_eqb _ (lit "ASSIGNED"));
      [right; right; right; right; right; right; left; reflexivity|].
    right; right; right; right; right; right; right; left; reflexivity.
Qed.

(** X11.  The status badge is consistent: its label is one of eight, and
    its colour is the colour of its label -- green for 'Submitted',
    'Graded' and 'Completed', red for 'Overdue', blue for 'In Progress',
    yellow for 'Not Started' and 'Assigned', grey for 'Unknown'.  A solved
    assignment is always green, whatever else is known about it. *)
Theorem badge_colour_follows_label (a : Assignment.t) :
  In (getStatusText a) badge_labels
  /\ getStatusColor a = badge_colour (getStatusText a)
  /\ (Assignment.isSolved a = true ->
      getStatusColor a
      = lit "text-green-300 bg-green-500/20 border border-green-500/30").
Proof.
  split; [apply getStatusText_label|]. split.
  - by_status a; reflexivity.
  - intros H. unfold getStatusColor. rewrite H. reflexivity.
Qed.

Lemma badge_colour_follows_label_witness :
  getStatusColor
    {| Assignment.id := lit "a1"; Assignment.title := lit "Homework 1";
       Assignment.courseId := lit "c1";
       Assignment.courseName := Some (lit "Algebra");
       Assignment.state := lit "PUBLISHED";
       Assignment.isOverdue := true;
       Assignment.daysUntilDue := None;
       Assignment.isSolved := true;
       Assignment.submissionState := lit "NEW";
       Assignment.materials := None |}
  = lit "text-green-300 bg-green-500/20 border border-green-500/30".
Proof.
  apply (badge_colour_follows_label
           {| Assignment.id := lit "a1"; Assignment.title := lit "Homework 1";
              Assignment.courseId := lit "c1";
              Assignment.courseName := Some (lit "Algebra");
              Assignment.state := lit "PUBLISHED";
              Assignment.isOverdue := true;
              Assignment.daysUntilDue := None;
              Assignment.isSolved := true;
              Assignment.submissionState := lit "NEW";
              Assignment.materials := None |}).
  reflexivity.
Defined.

Lemma pending_unsolved (a : Assignment.t) :
  Assignment.isSolved a = false ->
  str_eqb (Assignment.state a) (lit "TURNED_IN") = false ->
  In (getStatusText a) unsolved_labels
  /\ getStatusColor a
     <> lit "text-green-300 bg-green-500/20 border border-green-500/30".
Proof.
  intros Hs Ht. unfold getStatusText, getStatusColor, unsolved_labels.
  rewrite Hs, Ht.
  destruct (Assignment.isOverdue a);
    [split; [left; reflexivity | discriminate]|].
  destruct (str_eqb _ (lit "CREATED"));
    [split; [right; left; reflexivity | discriminate]|].
  destruct (str_eqb _ (lit "NEW"));
    [split; [right; right; left; reflexivity | discriminate]|].
  destruct (str_eqb _ (lit "CREATED"));
    [split; [right; left; reflexivity | discriminate]|].
  destruct (str_eqb _ (lit "ASSIGNED"));
    [split; [right; right; right; left; reflexivity | discriminate]|].
  split; [right; right; right; right; left; reflexivity | discriminate].
Qed.

Lemma filter_disjoint_length {A : Type} (f g : A -> bool) (l : list A) :
  (forall x, f x = true -> g x = false) ->
  List.length (filter f l) + List.length (filter g l) <= List.length l.
Proof.
  intros H. induction l as [|x l IH]; cbn [filter List.length]; [lia|].
  destruct (f x) eqn:Ef.
  - rewrite (H x Ef). cbn [List.length]. lia.
  - destruct (g x); cbn [List.length]; lia.
Qed.

(** X12.  The list of assignments to solve.  Every card that is drawn is
    an assignment of the list that is not solved; its label is 'Overdue',
    'In Progress', 'Not Started', 'Assigned' or 'Unknown' -- never
    'Submitted', 'Graded' or 'Completed' -- and its badge is not green.
    At most ten cards are drawn, the first ten of the pending ones, and
    the link 'View all' appears exactly when some are left out.  The
    cards 'Unsolved' and 'Solved' never count an assignment twice, nor do
    'In Progress' and 'Solved'. *)
Theorem pending_cards (assignments : list Assignment.t) :
  Forall (fun a =>
            In a assignments
            /\ Assignment.isSolved a = false
            /\ In (getStatusText a) unsolved_labels
            /\ getStatusColor a
               <> lit "text-green-300 bg-green-500/20 border border-green-500/30")
         (shownAssignments assignments)
  /\ List.length (shownAssignments assignments)
     = Nat.min 10 (unsolvedCount assignments)
  /\ (showsViewAll assignments = true
      <-> List.length (shownAssignments assignments)
          < unsolvedCount assignments)
  /\ unsolvedCount assignments + solvedCount assignments
     <= List.length assignments
  /\ inProgressCount assignments + solvedCount assignments
     <= List.length assignments.
Proof.
  split.
  { rewrite Forall_forall. intros a Ha.
    unfold shownAssignments in Ha.
    assert (In a (pendingAssignments assignments)) as Hp.
    { revert Ha. generalize (pendingAssignments assignments) as l.
      generalize 10 as k. induction k as [|k IH]; intros l; [intros []|].
      destruct l as [|x l]; [intros []|]. cbn [firstn In].
      intros [-> | H]; [left; reflexivity | right; exact (IH l H)]. }
    unfold pendingAssignments in Hp. apply filter_In in Hp.
    destruct Hp as [Hin Hf]. rewrite !andb_true_iff in Hf.
    destruct Hf as [[Ht _] Hs].
    apply negb_true_iff in Ht, Hs.
    split; [exact Hin|]. split; [exact Hs|].
    apply pending_unsolved; assumption. }
  split.
  { unfold shownAssignments, unsolvedCount. apply length_firstn. }
  split.
  { unfold showsViewAll, shownAssignments, unsolvedCount.
    rewrite length_firstn, Nat.ltb_lt. lia. }
  split.
  { unfold unsolvedCount, solvedCount, pendingAssignments.
    apply filter_disjoint_length. intros x Hx.
    rewrite !andb_true_iff in Hx. destruct Hx as [_ Hs].
    apply negb_true_iff in Hs. exact Hs. }
  unfold inProgressCount, solvedCount.
  apply filter_disjoint_length. intros x Hx.
  rewrite andb_true_iff in Hx. destruct Hx as [_ Hs].
  apply negb_true_iff in Hs. exact Hs.
Qed.

Lemma le_int_down (x y : JsDouble) (k : Z) :
  double_le x y -> le_int y k = true -> le_int x k = true.
Proof.
  destruct x as [|[|]|a b], y as [|[|]|c d]; cbn [double_le le_int];
    try tauto; try discriminate.
  rewrite !Z.leb_le. intros H1 H2.
  assert (a * Z.pos d <= k * Z.pos b * Z.pos d)%Z as H by nia.
  assert (0 < Z.pos d)%Z as Hd by lia.
  nia.
Qed.

(** X13.  The border colour of a card.  An overdue assignment is red,
    whatever its due date and also when it has none; one that is not
    overdue and has no due date is grey, and only such a one; and of two
    assignments with a due date, the second not overdue, the one that is
    due no later is at least as urgent (red before yellow before
    green). *)
Theorem sooner_is_more_urgent :
  (forall a : Assignment.t,
      Assignment.isOverdue a = true ->
      getPriorityColor a = lit "border-red-500")
  /\ (forall a : Assignment.t,
         getPriorityColor a = lit "border-slate-500"
         <-> Assignment.isOverdue a = false
             /\ Assignment.daysUntilDue a = None)
  /\ (forall (a b : Assignment.t) (x y : JsDouble),
         Assignment.daysUntilDue a = Some x ->
         Assignment.daysUntilDue b = Some y ->
         Assignment.isOverdue b = false ->
         double_le x y ->
         urgency (getPriorityColor b) <= urgency (getPriorityColor a)).
Proof.
  split; [|split].
  - intros a Ho. unfold getPriorityColor. rewrite Ho. reflexivity.
  - intros a. unfold getPriorityColor. split.
    + destruct (Assignment.isOverdue a); [discriminate|].
      destruct (Assignment.daysUntilDue a) as [x|]; [|auto].
      destruct (le_int x 1); [discriminate|].
      destruct (le_int x 3); discriminate.
    + intros [-> ->]. reflexivity.
  - intros a b x y Ha Hb Hob Hle.
    unfold getPriorityColor. rewrite Ha, Hb, Hob.
    assert (urgency (lit "border-red-500") = 3) as U3 by reflexivity.
    assert (urgency (lit "border-yellow-500") = 2) as U2 by reflexivity.
    assert (urgency (lit "border-green-500") = 1) as U1 by reflexivity.
    destruct (Assignment.isOverdue a).
    + rewrite U3.
      destruct (le_int y 1); [rewrite U3; lia|].
      destruct (le_int y 3); [rewrite U2 | rewrite U1]; lia.
    + destruct (le_int y 1) eqn:Y1.
      * rewrite (le_int_down _ _ _ Hle Y1). lia.
      * destruct (le_int y 3) eqn:Y3.
        -- rewrite (le_int_down _ _ _ Hle Y3).
           destruct (le_int x 1); rewrite ?U3, ?U2; lia.
        -- destruct (le_int x 1); [rewrite U3, U1; lia|].
           destruct (le_int x 3); rewrite ?U2, ?U1; lia.
Qed.

Lemma sooner_is_more_urgent_witness :
  getPriorityColor (overdue undated) = lit "border-red-500"
  /\ getPriorityColor (overdue (due_in 5)) = lit "border-red-500"
  /\ getPriorityColor undated = lit "border-slate-500"
  /\ urgency (getPriorityColor (due_in 5))
     <= urgency (getPriorityColor (due_in 1)).
Proof.
  split; [|split; [|split]].
  - apply (proj1 sooner_is_more_urgent (overdue undated)). reflexivity.
  - apply (proj1 sooner_is_more_urgent (overdue (due_in 5))). reflexivity.
  - apply (proj2 (proj1 (proj2 sooner_is_more_urgent) undated)).
    split; reflexivity.
  - apply (proj2 (proj2 sooner_is_more_urgent) (due_in 1) (due_in 5)
                 (Ratio 1 1) (Ratio 5 1));
      try reflexivity.
    cbn [double_le]. lia.
Defined.

(* ===================================================================== *)
(** * What the dashboard posts *)
(* ===================================================================== *)

Lemma assignmentData_present (a : Assignment.t) :
  fields_present (assignmentData a) = solvable a.
Proof.
  unfold fields_present, solvable, assignmentData, present.
  cbn [assignmentId assignmentTitle courseId courseName].
  destruct (Assignment.id a), (Assignment.title a), (Assignment.courseId a);
    reflexivity.
Qed.

(** X14.  What becomes of the request the dashboard posts for an
    assignment.  When the assignment has no course name (the field is
    optional in the dashboard), or an empty identifier, title, course or
    course name, the server refuses it with 400 in every state and for
    every user, and nothing changes.  When it has all four, the request
    is never refused for missing fields; and when the user has an access
    token and no completed solution of the assignment, the solution that
    is stored carries the assignment's identifier, title, course and
    course name, and one entry for each of its materials. *)
Theorem dashboard_request (env : Env) (t1 t2 : Z) (st : State)
        (user : User.t) (a : Assignment.t) :
  let answer := post_solve env t1 t2 st user (assignmentData a) in
  (solvable a = false ->
   answer = (st, Json 400 (BError missing_fields)))
  /\ (solvable a = true ->
      snd answer <> Json 400 (BError missing_fields)
      /\ (hasAccessToken user = true ->
          Solution.isAssignmentSolved (User._id user) (Assignment.id a)
                                      (store st) = None ->
          exists d,
            snd answer = Json 200 (BStarted (Solution._id d) processing)
            /\ store (fst answer) = store st ++ [d]
            /\ Solution.userId d = User._id user
            /\ Solution.assignmentId d = Assignment.id a
            /\ Solution.assignmentTitle d = Assignment.title a
            /\ Solution.courseId d = Assignment.courseId a
            /\ Assignment.courseName a = Some (Solution.courseName d)
            /\ Solution.status d = processing
            /\ List.length (Solution.materials d)
               = match Assignment.materials a with
                 | Some ms => List.length ms
                 | None => 0
                 end)).
Proof.
  intros answer. subst answer. split.
  - intros H. apply post_solve_rejects.
    rewrite assignmentData_present. exact H.
  - intros H. pose proof H as Hf. rewrite <- assignmentData_present in Hf.
    apply fields_present_true in Hf. destruct Hf as [H1 [H2 [H3 H4]]].
    split.
    + unfold post_solve. rewrite H1, H2, H3, H4. cbn [negb orb].
      destruct (Solution.isAssignmentSolved _ _ _); [discriminate|].
      destruct (hasAccessToken user); cbn [negb]; [|discriminate].
      destruct (Solution.insert _ _); discriminate.
    + intros Ht Hs.
      rewrite (post_solve_accepted env t1 t2 st user (assignmentData a)
                 H1 H2 H3 H4 Ht Hs).
      cbn [fst snd]. rewrite store_after_start. cbn [store].
      exists (new_solution (nextId st) t1 user (assignmentData a)).
      split; [reflexivity|]. split; [reflexivity|].
      cbn [new_solution assignmentData Solution.userId Solution.assignmentId
           Solution.assignmentTitle Solution.courseId Solution.courseName
           Solution.status Solution.materials text_of
           assignmentId assignmentTitle courseId courseName materials].
      repeat split.
      * unfold solvable in H. rewrite !andb_true_iff in H.
        destruct H as [_ Hc].
        destruct (Assignment.courseName a) as [s|]; [reflexivity|].
        discriminate.
      * rewrite length_map. destruct (Assignment.materials a); reflexivity.
Qed.

Lemma dashboard_request_witness :
  post_solve configured 1000 1001 solved_state alice (assignmentData nameless)
  = (solved_state, Json 400 (BError missing_fields)).
Proof.
  apply (dashboard_request configured 1000 1001 solved_state alice nameless).
  reflexivity.
Defined.

(* ===================================================================== *)
(** * The dashboard polling the server *)
(* ===================================================================== *)

Module PollServer.
Import Dashboard.

Lemma polled_resolved (states : nat -> State) (user : User.t)
      (solutionId : JsString) (k : nat) (ok : bool) (s : JsString) :
  polled states user solutionId k = Resolved ok s ->
  ok = true -> holds_with (states k) user solutionId s.
Proof.
  unfold polled, get_solution, find_for_user, holds_with.
  destruct (castObjectId solutionId) as [oid|].
  - destruct (Solution.findOne _ _) as [d|] eqn:Hd.
    + cbn. intros H _. inversion H; subst. exists oid, d. auto.
    + cbn. discriminate.
  - cbn. discriminate.
Qed.

Lemma polled_holds (states : nat -> State) (user : User.t)
      (solutionId : JsString) (k : nat) (s : JsString) :
  holds_with (states k) user solutionId s ->
  polled states user solutionId k = Resolved true s.
Proof.
  intros [oid [d [Hc [Hd Hs]]]].
  unfold polled, get_solution, find_for_user. rewrite Hc, Hd.
  cbn. rewrite Hs. reflexivity.
Qed.

(** X15.  The banners of the polling loop are truthful.  Let the calls of
    [getSolution] be answered by the server, in whatever states it is in
    by then, and let nothing else fail.  The loop ends; and when it sets
    the success banner, the server held, at the last call, the solution
    the URL names, as a solution of this user, with status
    ['completed']; when it sets the failure banner, with status
    ['failed']. *)
Theorem banners_are_truthful (states : nat -> State) (user : User.t)
        (solutionId : JsString) :
  exists o,
    pollSolutionStatus (polled states user solutionId) = Some o
    /\ 1 <= attempts o <= maxAttempts
    /\ (message o = Some SolvedMessage ->
        holds_with (states (attempts o)) user solutionId completed)
    /\ (message o = Some FailedMessage ->
        holds_with (states (attempts o)) user solutionId failed).
Proof.
  destruct (@PollOutcome.poll_outcome (polled states user solutionId)
              maxAttempts 0)
    as [o [Ho [Hb [_ [_ [_ [Hsolved [Hfailed _]]]]]]]];
    [reflexivity | unfold maxAttempts; lia|].
  unfold pollSolutionStatus. rewrite Ho.
  eexists. split; [reflexivity|]. cbn [attempts message].
  split; [lia|]. split.
  - intros H. apply Hsolved in H.
    exact (@polled_resolved states user solutionId _ true _ H eq_refl).
  - intros H. apply Hfailed in H.
    exact (@polled_resolved states user solutionId _ true _ H eq_refl).
Qed.

(** X16.  The loop meets the end of the solving.  Let the server hold
    the user's solution as ['processing'] at each of the first [k - 1]
    calls and as ['completed'] or ['failed'] at the [k]-th, with [k] at
    most thirty.  Then the loop makes exactly [k] calls, the last one
    [5 + 10 (k - 1)] seconds after it was started, and sets the success
    banner when the solution is ['completed'] and the failure banner when
    it is ['failed']. *)
Theorem poll_meets_the_end (states : nat -> State) (user : User.t)
        (solutionId : JsString) (k : nat) (final : JsString)
        (banner : Message) :
  1 <= k <= maxAttempts ->
  (forall j, 1 <= j < k ->
             holds_with (states j) user solutionId processing) ->
  holds_with (states k) user solutionId final ->
  (final = completed /\ banner = SolvedMessage)
  \/ (final = failed /\ banner = FailedMessage) ->
  pollSolutionStatus (polled states user solutionId)
  = Some {| attempts := k; message := Some banner; timers := schedule k |}.
Proof.
  intros Hk Hbefore Hlast Hfinal.
  destruct status_values_differ as [Hpc [Hpf Hcf]].
  destruct (@PollOutcome.poll_outcome (polled states user solutionId)
              maxAttempts 0)
    as [o [Ho [Hb [Ht [Hagain [Hstop [Hsolved [Hfailed _]]]]]]]];
    [reflexivity | unfold maxAttempts; lia|].
  pose proof (@polled_holds states user solutionId k final Hlast) as Hk_answer.
  assert (~ asks_again (Resolved true final)) as Hno.
  { intros [H | H]; [discriminate|].
    assert (final = processing) as E by congruence.
    destruct Hfinal as [[-> _] | [-> _]]; auto. }
  assert (attempts o = k) as Hn.
  { destruct (Nat.lt_trichotomy (attempts o) k) as [Hlt | [E | Hgt]];
      [exfalso | exact E | exfalso].
    - apply Hstop; [lia|].
      right. apply polled_holds. apply Hbefore. lia.
    - apply Hno. rewrite <- Hk_answer. apply Hagain. lia. }
  unfold pollSolutionStatus. rewrite Ho. cbn [after].
  destruct o as [n m ts]. cbn [attempts message timers] in *. subst n.
  f_equal. f_equal.
  - destruct Hfinal as [[-> ->] | [-> ->]].
    + apply Hsolved. exact Hk_answer.
    + apply Hfailed. exact Hk_answer.
  - unfold schedule. rewrite Ht. reflexivity.
Qed.

End PollServer.

Lemma poll_meets_the_end_witness :
  Dashboard.pollSolutionStatus (polled done_at_second_call alice id0)
  = Some {| Dashboard.attempts := 2;
            Dashboard.message := Some Dashboard.SolvedMessage;
            Dashboard.timers := schedule 2 |}.
Proof.
  apply (@PollServer.poll_meets_the_end done_at_second_call alice id0 2
           completed Dashboard.SolvedMessage).
  - unfold Dashboard.maxAttempts. lia.
  - intros j Hj. assert (j = 1) as -> by lia.
    exists 0%N, (new_solution 0%N 1000 alice homework).
    vm_compute. repeat split; reflexivity.
  - exists 0%N,
      (set_result (new_solution 0%N 1000 alice homework)
                  (Some (lit "x = 2")) (Some (hex_decode (lit "255044462d")))
                  completed 3999).
    vm_compute. repeat split; reflexivity.
  - left. split; reflexivity.
Defined.

(* ===================================================================== *)
(** * Solutions nobody works on, and the list against the detail *)
(* ===================================================================== *)

Section Abandoned.

Variable Buffer_from_object : JsValue -> option Buffer.
Variable castString_other : JsValue -> option JsString.
Variable isAssignmentSolved_other :
  ObjectId -> JsValue -> Solution.collection -> option (option Solution.doc).
Variable env : Env.

Abbreviation step := (step Buffer_from_object castString_other isAssignmentSolved_other env).
Abbreviation run := (run Buffer_from_object castString_other isAssignmentSolved_other env).

Lemma step_keeps_idle (st st' : State) (e : Event) (d : Solution.doc) :
  Inv st -> step st e = Some st' ->
  In d (store st) -> ~ In (Solution._id d) (pending st) ->
  In d (store st') /\ ~ In (Solution._id d) (pending st').
Proof.
  intros HI Hs Hd Hn.
  destruct (step_writes _ _ _ _ _ _ Hs)
    as [[E Ep]
        | [[d0 [_ [_ [_ [_ [_ [_ [E Ep]]]]]]]] | [i [Hi [Hw Hincl]]]]].
  - rewrite E, Ep. auto.
  - rewrite E. split; [apply in_or_app; left; exact Hd|].
    intros H. apply (Permutation_in _ (Permutation_sym Ep)) in H.
    destruct H as [H | H]; [|contradiction].
    pose proof (inv_below HI) as Hb. rewrite Forall_forall in Hb.
    specialize (Hb (Solution._id d) (in_map _ _ _ Hd)). lia.
  - split; [|intros H; apply Hn, Hincl, H].
    destruct Hw as [-> | [sol [d' [Hfind [Ho [_ ->]]]]]]; [exact Hd|].
    pose proof (findById_some _ _ Hfind) as [_ Hid].
    destruct (outcome_same_request Ho) as [Hid' _].
    apply in_map_iff. exists d. split; [|exact Hd].
    unfold Solution.replace, ObjectId_eqb.
    destruct (N.eqb_spec (Solution._id d) (Solution._id d')) as [E|_];
      [|reflexivity].
    exfalso. apply Hn. rewrite E, Hid', Hid. exact Hi.
Qed.

(** X17.  The server never takes up a solution again.  A stored solution
    for which nothing is pending (no running process, no catch block
    about to run) stays in the collection exactly as it is, whatever
    happens afterwards, and nothing ever becomes pending for it.  In
    particular a solution left ['processing'] by a close callback that
    threw, or whose save was refused, is ['processing'] for ever. *)
Theorem idle_solution_never_changes (before later : list Event)
        (st st' : State) (d : Solution.doc) :
  run init before = Some st ->
  In d (store st) ->
  ~ In (Solution._id d) (pending st) ->
  run st later = Some st' ->
  In d (store st') /\ ~ In (Solution._id d) (pending st').
Proof.
  intros Hb Hd Hn.
  pose proof (run_inv _ _ _ _ before Inv_init Hb) as HI. clear Hb.
  revert st HI Hd Hn.
  induction later as [|e later IH]; intros st HI Hd Hn; simpl.
  - intros E; inversion E; subst. auto.
  - destruct (step st e) as [st1|] eqn:Hs; [|discriminate].
    intros Hr.
    destruct (@step_keeps_idle st st1 e d HI Hs Hd Hn) as [Hd1 Hn1].
    exact (IH st1 (step_inv _ _ _ _ _ HI Hs) Hd1 Hn1 Hr).
Qed.

(** X18.  The list and the detail agree.  In a state the server has
    reached (with identifiers of twelve bytes), each solution that
    [GET /solutions] lists for a user is found by
    [GET /solution/:solutionId] for that user under the identifier
    listed, with the same title, course name, status, start date and
    processing time. *)
Theorem listed_solutions_are_found (events : list Event) (st : State)
        (user : User.t) (param : option JsString) :
  run init events = Some st ->
  (nextId st <= ObjectId_bound)%N ->
  exists listed,
    get_solutions (store st) user param = Json 200 (BSolutions listed)
    /\ Forall (fun s =>
                 exists v,
                   get_solution (store st) user
                                (ObjectId_toString (Solution.sum_id s))
                   = Json 200 (BSolution v)
                   /\ same_solution s v)
              listed.
Proof.
  intros Hrun Hbound.
  pose proof (run_inv _ _ _ _ events Inv_init Hrun) as HI.
  eexists. split; [reflexivity|].
  rewrite Forall_forall. intros s Hs.
  apply in_map_iff in Hs. destruct Hs as [d0 [<- Hd0]].
  unfold Solution.findUserSolutions in Hd0.
  apply in_map_iff in Hd0. destruct Hd0 as [d [<- Hd]].
  assert (In d (filter (fun x => ObjectId_eqb (Solution.userId x)
                                              (User._id user))
                       (store st))) as Hmine.
  { apply (proj1 (in_sort_desc _ _)).
    unfold Solution.limit in Hd.
    destruct (Z.eqb (query_limit param) 0); [exact Hd|].
    exact (in_firstn _ _ _ Hd). }
  apply filter_In in Hmine. destruct Hmine as [Hin Hu].
  apply N.eqb_eq in Hu.
  assert (Solution._id d < ObjectId_bound)%N as Hlt.
  { pose proof (inv_below HI) as Hb. rewrite Forall_forall in Hb.
    specialize (Hb (Solution._id d) (in_map _ _ _ Hin)). lia. }
  destruct (@findOne_exists
              (fun x => ObjectId_eqb (Solution._id x) (Solution._id d))
              (store st) d Hin) as [d1 Hd1].
  { unfold ObjectId_eqb. apply N.eqb_refl. }
  pose proof (findById_some _ _ Hd1) as [Hin1 Hid1].
  assert (d1 = d) as ->.
  { apply (@same_id_same_doc (store st)); auto. apply (inv_ids HI). }
  exists (view_of d). split.
  - unfold get_solution, find_for_user.
    cbn [Solution.getSummary Solution.without_pdf Solution.sum_id
         Solution._id].
    rewrite (@ObjectId_round_trip (Solution._id d) Hlt).
    rewrite (@findOne_of_findById (store st) (Solution._id d)
               (User._id user) d Hd1 Hu).
    reflexivity.
  - unfold same_solution. repeat split.
Qed.

End Abandoned.

Lemma idle_solution_never_changes_witness :
  Solution.status (oldest abandoned_state) = processing
  /\ In (oldest abandoned_state)
        (store (after_events configured
                  ([PostSolve 1000 1001 alice (body_json homework);
                    ProcessClosed 0%N (Some 0%Z) [lit "null"] [] 5000 iso0]
                   ++ second_attempt)))
  /\ ~ In (Solution._id (oldest abandoned_state))
          (pending (after_events configured
                      ([PostSolve 1000 1001 alice (body_json homework);
                        ProcessClosed 0%N (Some 0%Z) [lit "null"] []
                                      5000 iso0]
                       ++ second_attempt))).
Proof.
  split; [reflexivity|].
  apply (@idle_solution_never_changes rejects_buffer rejects_cast rejects_query configured
           [PostSolve 1000 1001 alice (body_json homework);
            ProcessClosed 0%N (Some 0%Z) [lit "null"] [] 5000 iso0]
           second_attempt abandoned_state).
  - reflexivity.
  - left. reflexivity.
  - vm_compute. intros [].
  - reflexivity.
Defined.

Lemma listed_solutions_are_found_witness :
  exists listed,
    get_solutions (store failed_then_solved_state) alice (Some (lit "1"))
    = Json 200 (BSolutions listed)
    /\ Forall (fun s =>
                 exists v,
                   get_solution (store failed_then_solved_state) alice
                                (ObjectId_toString (Solution.sum_id s))
                   = Json 200 (BSolution v)
                   /\ same_solution s v)
              listed.
Proof.
  apply (@listed_solutions_are_found rejects_buffer rejects_cast rejects_query configured
           failed_then_solved failed_then_solved_state alice
           (Some (lit "1"))).
  - reflexivity.
  - vm_compute. discriminate.
Defined.

(* ===================================================================== *)
(** * The response interceptor *)
(* ===================================================================== *)

Lemma startsWith_app (p rest : JsString) : startsWith (p ++ rest) p = true.
Proof.
  induction p as [|c p IH]; [destruct rest; reflexivity|].
  cbn [app startsWith]. rewrite N.eqb_refl. exact IH.
Qed.

Lemma includes_prefix (p rest : JsString) : includes (p ++ rest) p = true.
Proof.
  destruct (p ++ rest) as [|c s] eqn:E; cbn [includes];
    rewrite <- E, startsWith_app; reflexivity.
Qed.

Lemma assignment_url_passed (status : option nat) (rest : JsString) :
  on_response_error status (Some (lit "/assignments" ++ rest)) = PassedOn.
Proof.
  unfold on_response_error.
  destruct status as [n|]; [|reflexivity].
  destruct (Nat.eqb n 401); [|reflexivity].
  cbv zeta. rewrite includes_prefix. reflexivity.
Qed.

(** X19.  No answer to a request of [assignmentService] signs the user
    out.  Whatever the status of the failed request -- in particular the
    401 that [POST /solve] gives a user without a Google token -- and
    whatever the solution identifier, the time stamp or the limit in the
    URL (even one that holds ['/auth']), the interceptor passes the error
    on to the caller and leaves the token and the page alone. *)
Theorem assignment_calls_never_sign_out (status : option nat)
        (solutionId stamp : JsString) (limit : option JsString) :
  on_response_error status (Some solveAssignment_url) = PassedOn
  /\ on_response_error status (Some (getSolution_url solutionId)) = PassedOn
  /\ on_response_error status
       (Some (downloadSolutionPdf_url solutionId stamp)) = PassedOn
  /\ on_response_error status (Some (getSolutions_url limit)) = PassedOn.
Proof.
  split; [|split; [|split]].
  - exact (assignment_url_passed status (lit "/solve")).
  - exact (assignment_url_passed status (lit "/solution/" ++ solutionId)).
  - exact (assignment_url_passed status
             (lit "/solution/" ++ solutionId ++ lit "/pdf?t=" ++ stamp)).
  - destruct limit as [n|].
    + exact (assignment_url_passed status (lit "/solutions?limit=" ++ n)).
    + exact (assignment_url_passed status (lit "/solutions")).
Qed.
